(** * nodeunit task runner ([task_runner.js]): bundle assembly and command dispatch

    The script is embedded shallowly.  Text is [string] (a sequence of
    8-bit code units, UTF-8 for characters outside ASCII), the calls the
    script makes to [fs], [child_process], [UglifyJS], [console] and
    [process] are the nodes of a finite program tree ([js]), and [run]
    executes such a tree against an arbitrary environment, returning what
    was observed, how the script ended and the final environment state.
    The two string methods whose result depends on Unicode tables,
    [toLowerCase] and [trim], are fixed on ASCII text and taken from the
    runtime ([Runtime]) on any other text. *)

From Stdlib Require Import String Ascii List Bool Arith ZArith Lia Permutation.
From Equations Require Import Equations.
Import ListNotations.
Open Scope string_scope.

(** ** Strings *)

Module Str.

Definition newline : ascii := ascii_of_nat 10.

Definition nl : string := String newline EmptyString.

(** [s.startsWith(p)] *)
Definition startsWith (s p : string) : bool := prefix p s.

Fixpoint drop (n : nat) (s : string) : string :=
  match n, s with
  | S k, String _ s' => drop k s'
  | _, _ => s
  end.

Fixpoint mapChars (f : ascii -> ascii) (s : string) : string :=
  match s with
  | EmptyString => EmptyString
  | String c s' => String (f c) (mapChars f s')
  end.

Definition lowerChar (c : ascii) : ascii :=
  let n := nat_of_ascii c in
  if (65 <=? n)%nat && (n <=? 90)%nat then ascii_of_nat (n + 32) else c.

(** Lower-casing of ASCII text: the letters A-Z are mapped to a-z, every
    other code unit is kept. *)
Definition asciiLowerCase (s : string) : string := mapChars lowerChar s.

(** [asciiOnly s]: every code unit of [s] is below 128, that is, [s] is
    made of ASCII characters only. *)
Fixpoint asciiOnly (s : string) : bool :=
  match s with
  | EmptyString => true
  | String c s' => (nat_of_ascii c <? 128)%nat && asciiOnly s'
  end.

Definition isEmpty (s : string) : bool :=
  match s with EmptyString => true | _ => false end.

(** Number of positions of [s] at which [m] occurs (overlapping
    occurrences are counted one by one). *)
Fixpoint occurrences (m s : string) : nat :=
  (if prefix m s then 1 else 0) +
  match s with
  | EmptyString => 0
  | String _ s' => occurrences m s'
  end.

(** [border_in t m]: some non-empty suffix of [t] is a prefix of [m]. *)
Fixpoint border_in (t m : string) : bool :=
  match t with
  | EmptyString => false
  | String _ t' => prefix t m || border_in t' m
  end.

(** A string overlaps itself when a proper non-empty suffix of it is
    also a prefix of it (as "aa" or "aba" do). *)
Definition self_overlap (m : string) : bool :=
  match m with
  | EmptyString => false
  | String _ m' => border_in m' m
  end.

(** [hasChar c s]: the code unit [c] occurs in [s]. *)
Fixpoint hasChar (c : ascii) (s : string) : bool :=
  match s with
  | EmptyString => false
  | String d s' => Ascii.eqb c d || hasChar c s'
  end.

(** [line_final m s]: every occurrence of [m] in [s] is immediately
    followed by a newline. *)
Fixpoint line_final (m s : string) : bool :=
  implb (prefix m s) (prefix (m ++ nl) s) &&
  match s with
  | EmptyString => true
  | String _ s' => line_final m s'
  end.

(** [tagLike m]: [m] is an at-sign followed by characters that are neither
    an at-sign nor a newline. *)
Definition tagLike (m : string) : bool :=
  match m with
  | String c m' =>
      Ascii.eqb c "@" && negb (hasChar "@" m') && negb (hasChar newline m')
  | EmptyString => false
  end.

End Str.
Import Str.

(** ** The marker-removal step of [buildAndClean]

    [content.replace(new RegExp(line.replace(/[-\/\\^$*+?.()|[\]{}]/g, '\\$&'), 'g'), '')] *)

Module Regex.

(** The character class [[-\/\\^$*+?.()|[\]{}]]. *)
Definition escapedClass : string := "-/\^$*+?.()|[]{}".

Definition inEscapedClass (c : ascii) : bool := hasChar c escapedClass.

(** [line.replace(/[-\/\\^$*+?.()|[\]{}]/g, '\\$&')]: a backslash is put
    before every character of the class. *)
Fixpoint escapeRegExp (line : string) : string :=
  match line with
  | EmptyString => EmptyString
  | String c rest =>
      if inEscapedClass c
      then String "\" (String c (escapeRegExp rest))
      else String c (escapeRegExp rest)
  end.

(** Pattern characters with a meaning of their own in a regular
    expression source. *)
Definition syntaxChar (c : ascii) : bool := hasChar c "^$\.*+?()[]{}|".

(** [new RegExp(source, 'g')] for the sources that denote a plain
    sequence of characters: ordinary characters stand for themselves and
    a backslash followed by a punctuation character of the class stands
    for that character.  Any other source is outside this fragment. *)
Fixpoint RegExp_literal (source : string) : option string :=
  match source with
  | EmptyString => Some EmptyString
  | String c rest =>
      if Ascii.eqb c "\" then
        match rest with
        | String d rest' =>
            if inEscapedClass d
            then option_map (String d) (RegExp_literal rest')
            else None
        | EmptyString => None
        end
      else if syntaxChar c then None
      else option_map (String c) (RegExp_literal rest)
  end.

(** One left-to-right pass of a global replace by the empty string, for
    a non-empty literal [pattern]: where the pattern matches, the match is
    dropped and matching resumes right after it; elsewhere the character
    is kept. *)
Equations? scan (pattern s : string) : string by wf (String.length s) lt :=
  scan pattern EmptyString := EmptyString;
  scan pattern (String c s') with prefix pattern (String c s') => {
    | true := scan pattern (drop (String.length pattern - 1) s');
    | false := String c (scan pattern s') }.
Proof.
  enough (forall n s, String.length (drop n s) <= String.length s) as Hdrop
    by (specialize (Hdrop (String.length pattern - 1) s'); lia).
  induction n as [|n IH]; intros [|d s]; simpl; auto;
    specialize (IH s); lia.
Qed.

(** [content.replace(re, '')] with [re] global and literal.  The empty
    pattern matches the empty string at every position, and replacing
    those matches by the empty string gives the content back. *)
Definition replaceGlobal (pattern content : string) : string :=
  if isEmpty pattern then content else scan pattern content.

(** The body of [replacements.forEach(line => ...)] for one [line]. *)
Definition removeMarker (line content : string) : string :=
  match RegExp_literal (escapeRegExp line) with
  | Some pattern => replaceGlobal pattern content
  | None => content
  end.

(** [replacements.forEach(line => { content = content.replace(...) })] *)
Definition removeMarkers (replacements : list string) (content : string) : string :=
  fold_left (fun content line => removeMarker line content) replacements content.

End Regex.
Import Regex.


(** ** Programs: the calls a script makes, and their execution *)

Module JS.

(** A thrown value, as far as the script inspects it: [e.message] and
    [error.stderr] ([None] is a property that is not there). *)
Record exn : Type := { exn_message : option string; exn_stderr : option string }.

(** What [UglifyJS.minify] returns: [{ error, code }]. *)
Record minified : Type := { error : option exn; code : string }.

(** What a function call evaluates to. *)
Inductive value : Type :=
| undefined
| str (s : string).

Inductive stream : Type := stdout | stderr.

(** Calls into [fs], [child_process] and [UglifyJS], indexed by the type of
    what they return.  Each of them may throw instead. *)
Inductive call : Type -> Type :=
| existsSync (path : string) : call bool
| mkdirSync (path : string) (recursive : bool) : call unit
| rmSync (path : string) : call unit
| unlinkSync (path : string) : call unit
| writeFileSync (path data : string) (mode : option nat) : call unit
| readFileSync (path : string) : call string
| copyFileSync (src dest : string) : call unit
| execSync (command : string) : call string
| minify (source : string) : call minified.

(** A script: [console.log] / [console.error], calls, [throw],
    [process.exit] and [try { } catch (e) { }]. *)
Inductive js (A : Type) : Type :=
| Ret (a : A)
| Print (out : stream) (text : string) (k : js A)
| Call {X : Type} (c : call X) (k : X -> js A)
| Throw (e : exn)
| Exit (status : Z)
| TryCatch (body : js unit) (handler : exn -> js unit) (k : js A).

Arguments Ret {A} a.
Arguments Print {A} out text k.
Arguments Call {A X} c k.
Arguments Throw {A} e.
Arguments Exit {A} status.
Arguments TryCatch {A} body handler k.

Fixpoint bind {A B : Type} (p : js A) (f : A -> js B) : js B :=
  match p with
  | Ret a => f a
  | Print out text k => Print out text (bind k f)
  | Call c k => Call c (fun x => bind (k x) f)
  | Throw e => Throw e
  | Exit status => Exit status
  | TryCatch body handler k => TryCatch body handler (bind k f)
  end.

Definition console_log (text : string) : js unit := Print stdout text (Ret tt).
Definition console_error (text : string) : js unit := Print stderr text (Ret tt).
Definition fs {X : Type} (c : call X) : js X := Call c Ret.
Definition process_exit (status : Z) : js unit := Exit status.

(** [xs.forEach(f)] *)
Fixpoint forEach {X : Type} (xs : list X) (f : X -> js unit) : js unit :=
  match xs with
  | [] => Ret tt
  | x :: rest => bind (f x) (fun _ => forEach rest f)
  end.

(** How a script ends. *)
Inductive outcome (A : Type) : Type :=
| Normal (a : A)
| Thrown (e : exn)
| Exited (status : Z).

Arguments Normal {A} a.
Arguments Thrown {A} e.
Arguments Exited {A} status.

(** The exit status of the process: 0 when the script runs to its end, 1
    when an exception is not caught, the argument of [process.exit]
    otherwise. *)
Definition exitStatus {A : Type} (o : outcome A) : Z :=
  match o with
  | Normal _ => 0
  | Thrown _ => 1
  | Exited status => status
  end.

(** One observation: a line printed, or a call with what it returned or
    threw. *)
Inductive obs : Type :=
| Printed (out : stream) (text : string)
| Called {X : Type} (c : call X) (r : X + exn).

(** The world outside the script: a state and an answer to every call. *)
Record Env : Type := {
  world : Type;
  respond : forall X : Type, call X -> world -> (X + exn) * world
}.

Fixpoint run (env : Env) {A : Type} (p : js A) (w : world env)
  : list obs * outcome A * world env :=
  match p with
  | Ret a => ([], Normal a, w)
  | Print out text k =>
      let '(t, o, w') := run env k w in (Printed out text :: t, o, w')
  | Call c k =>
      match respond env _ c w with
      | (inl x, w1) =>
          let '(t, o, w') := run env (k x) w1 in (Called c (inl x) :: t, o, w')
      | (inr e, w1) => ([Called c (inr e)], Thrown e, w1)
      end
  | Throw e => ([], Thrown e, w)
  | Exit status => ([], Exited status, w)
  | TryCatch body handler k =>
      let '(t1, o1, w1) := run env body w in
      match o1 with
      | Normal _ =>
          let '(t, o, w') := run env k w1 in ((t1 ++ t)%list, o, w')
      | Thrown e =>
          let '(t2, o2, w2) := run env (handler e) w1 in
          match o2 with
          | Normal _ =>
              let '(t, o, w') := run env k w2 in ((t1 ++ t2 ++ t)%list, o, w')
          | Thrown e' => ((t1 ++ t2)%list, Thrown e', w2)
          | Exited status => ((t1 ++ t2)%list, Exited status, w2)
          end
      | Exited status => (t1, Exited status, w1)
      end
  end.

Definition trace (env : Env) {A : Type} (p : js A) (w : world env) : list obs :=
  fst (fst (run env p w)).

Definition result (env : Env) {A : Type} (p : js A) (w : world env) : outcome A :=
  snd (fst (run env p w)).

(** [printsOnly p]: the lines [p] prints when it does nothing else and
    runs to its end; [None] when [p] makes a call, throws, exits or
    enters a [try]. *)
Fixpoint printsOnly {A : Type} (p : js A) : option (list (stream * string)) :=
  match p with
  | Ret _ => Some []
  | Print out text k => option_map (cons (out, text)) (printsOnly k)
  | _ => None
  end.

Definition isWrite (o : obs) : bool :=
  match o with
  | Called (writeFileSync _ _ _) _ => true
  | _ => false
  end.

Definition isWriteTo (path : string) (o : obs) : bool :=
  match o with
  | Called (writeFileSync p _ _) _ => String.eqb p path
  | _ => false
  end.

(** A write of [data] to [path] that succeeded. *)
Definition isWriteOf (path data : string) (o : obs) : bool :=
  match o with
  | Called (writeFileSync p d _) (inl _) => String.eqb p path && String.eqb d data
  | _ => false
  end.

End JS.
Import JS.

Declare Scope js_scope.
Delimit Scope js_scope with js.
Notation "x <- p ;; q" := (bind p (fun x => q))
  (at level 61, p at next level, right associativity) : js_scope.
Notation "p ;; q" := (bind p (fun _ => q))
  (at level 61, right associativity) : js_scope.
Open Scope js_scope.

(** ** Built-ins the script uses *)

Module Builtins.

(** Truthiness of an optional string property: a missing property and the
    empty string are falsy.  [populated field] is the value when truthy. *)
Definition populated (field : option string) : option string :=
  match field with
  | Some s => if isEmpty s then None else Some s
  | None => None
  end.

(** [x || d] for an optional string [x]. *)
Definition orElse (x : option string) (d : string) : string :=
  match populated x with
  | Some s => s
  | None => d
  end.

(** A property inside a template literal. *)
Definition show (field : option string) : string :=
  match field with
  | Some s => s
  | None => "undefined"
  end.

(** [list.includes(x)] *)
Definition includes (l : list string) (x : string) : bool :=
  existsb (String.eqb x) l.

(** What [String.prototype.toLowerCase] and [String.prototype.trim] do to
    text with characters outside ASCII is the runtime's business (Unicode
    case mapping, Unicode white space): the script is run with both as the
    runtime provides them. *)
Class Runtime : Type := {
  unicodeLowerCase : string -> string;
  unicodeTrim : string -> string
}.

(** [s.toLowerCase()].  On ASCII text the letters A-Z become a-z and
    nothing else changes; any other text is lower-cased by the runtime. *)
Definition toLowerCase {rt : Runtime} (s : string) : string :=
  if asciiOnly s then asciiLowerCase s else unicodeLowerCase s.

(** The ASCII white space and line terminators: TAB, LF, VT, FF, CR and
    the space. *)
Definition isSpace (c : ascii) : bool :=
  let n := nat_of_ascii c in
  ((9 <=? n)%nat && (n <=? 13)%nat) || (n =? 32)%nat.

Fixpoint trimStart (s : string) : string :=
  match s with
  | EmptyString => EmptyString
  | String c s' => if isSpace c then trimStart s' else s
  end.

Fixpoint trimEnd (s : string) : string :=
  match s with
  | EmptyString => EmptyString
  | String c s' =>
      let r := trimEnd s' in
      if isEmpty r && isSpace c then EmptyString else String c r
  end.

(** Trimming of ASCII text: the ASCII white space at both ends goes. *)
Definition asciiTrim (s : string) : string := trimEnd (trimStart s).

(** [s.trim()].  On ASCII text the ASCII white space at both ends goes;
    any other text is trimmed by the runtime. *)
Definition trim {rt : Runtime} (s : string) : string :=
  if asciiOnly s then asciiTrim s else unicodeTrim s.

(** [s.split(sep)] for a one-character separator. *)
Fixpoint split (sep : ascii) (s : string) : list string :=
  match s with
  | EmptyString => [EmptyString]
  | String c s' =>
      if Ascii.eqb c sep then EmptyString :: split sep s'
      else match split sep s' with
           | h :: t => String c h :: t
           | [] => [String c EmptyString]
           end
  end.

(** [s.replace(/-/g, '_')] *)
Definition hyphensToUnderscores (s : string) : string :=
  mapChars (fun c => if Ascii.eqb c "-" then "_"%char else c) s.

(** [path.join(a, b)] for the segments the script joins (relative, no
    empty, [.] or [..] segment, no trailing separator). *)
Definition path_join (a b : string) : string := a ++ "/" ++ b.

Fixpoint lastSegment (p : string) : string :=
  match p with
  | EmptyString => EmptyString
  | String c p' =>
      if hasChar "/" p' then lastSegment p'
      else if Ascii.eqb c "/" then p' else p
  end.

Fixpoint stripSuffix (ext s : string) : string :=
  match s with
  | EmptyString => EmptyString
  | String c s' =>
      if String.eqb s' ext then String c EmptyString
      else String c (stripSuffix ext s')
  end.

(** [path.basename(p, ext)] for paths without a trailing separator. *)
Definition path_basename (p ext : string) : string :=
  stripSuffix ext (lastSegment p).

End Builtins.
Import Builtins.

(** ** The script *)

Module TaskRunner.

(** *** 1. Argument parsing and setup *)

(** [userArgs.find(arg => !arg.startsWith('-')) || ''], lower-cased. *)
Definition primaryCommand {rt : Runtime} (userArgs : list string) : string :=
  toLowerCase
    (orElse (find (fun arg => negb (startsWith arg "-")) userArgs) "").

(** [userArgs.filter(arg => arg.startsWith('-'))] *)
Definition options (userArgs : list string) : list string :=
  filter (fun arg => startsWith arg "-") userArgs.

Definition BUILDDIR : string := "dist".
Definition PREFIX : string := "/usr/local".
Definition BINDIR : string := PREFIX ++ "/bin".
Definition MANDIR : string := PREFIX ++ "/share/man".
Definition LIBDIR : string := PREFIX ++ "/lib".
Definition PACKAGE : string := "nodeunit".

(** *** Helper functions *)

Definition exec {rt : Runtime} (command taskName : string) : js unit :=
  TryCatch
    (console_log ("   -> Executing: " ++ command) ;;
     output <- fs (execSync command) ;;
     if isEmpty output then Ret tt
     else forEach (split newline (trim output))
                  (fun line => console_log ("      | " ++ line)))
    (fun error =>
       console_error (nl ++ "❌ ERROR in " ++ taskName ++ ": Command failed.") ;;
       match populated (exn_stderr error) with
       | Some err =>
           console_error "--- Shell Error Output ---" ;;
           console_error (trim err) ;;
           console_error "--------------------------"
       | None => Ret tt
       end ;;
       process_exit 1)
    (Ret tt).

Definition setupBuildDir : js unit :=
  exists_ <- fs (existsSync BUILDDIR) ;;
  if negb exists_ then
    console_log ("   -> Creating build directory: " ++ BUILDDIR) ;;
    fs (mkdirSync BUILDDIR false)
  else Ret tt.

(** *** 2. Core tasks *)

Definition runClean : js unit :=
  console_log (nl ++ "🧹 Running CLEAN task...") ;;
  exists_ <- fs (existsSync BUILDDIR) ;;
  (if exists_ then
     console_log ("   -> Removing build directory: " ++ BUILDDIR) ;;
     fs (rmSync BUILDDIR)
   else Ret tt) ;;
  stamp <- fs (existsSync "stamp-build") ;;
  (if stamp then
     console_log "   -> Removing stamp-build file" ;;
     fs (unlinkSync "stamp-build")
   else Ret tt) ;;
  console_log "✅ Clean complete!".

Definition runBuild {rt : Runtime} : js unit :=
  console_log (nl ++ "📦 Running BUILD task (Node Module)...") ;;
  setupBuildDir ;;
  console_log "   -> Creating dependency marker: stamp-build" ;;
  fs (writeFileSync "stamp-build" "" None) ;;
  let targetDir := path_join BUILDDIR PACKAGE in
  console_log ("   -> Creating module directory: " ++ targetDir) ;;
  fs (mkdirSync targetDir true) ;;
  console_log "   -> Copying source files to dist/... (via shell)" ;;
  exec ("cp -R bin deps index.js lib package.json share " ++ targetDir) "Build" ;;
  let nodejsLibDir := LIBDIR ++ "/node" in
  let wrapperScript :=
    "#!/bin/sh" ++ nl ++ "node " ++ nodejsLibDir ++ "/" ++ PACKAGE ++ "/bin/nodeunit $@" in
  console_log "   -> Creating shell wrapper script: nodeunit.sh" ;;
  fs (writeFileSync (BUILDDIR ++ "/nodeunit.sh") wrapperScript (Some 493)) ;;
  console_log "✅ Node module build complete!".

(** One element of [parts]: [{ path: ... }] or [{ content: ... }]. *)
Record part : Type := { path : option string; content : option string }.

Definition file (p : string) : part := {| path := Some p; content := None |}.
Definition text (s : string) : part := {| path := None; content := Some s |}.

(** The body of [parts.forEach(part => ...)]; [buffer] is the variable
    [content] of [buildAndClean] before and the result the variable after. *)
Definition appendPart (buffer : string) (p : part) : js string :=
  buffer' <- match populated (path p) with
             | Some filePath =>
                 data <- fs (readFileSync filePath) ;; Ret (buffer ++ data)
             | None =>
                 match populated (content p) with
                 | Some literal => Ret (buffer ++ literal)
                 | None => Ret buffer
                 end
             end ;;
  Ret (buffer' ++ nl).

Fixpoint concatParts (parts : list part) (buffer : string) : js string :=
  match parts with
  | [] => Ret buffer
  | p :: rest => buffer' <- appendPart buffer p ;; concatParts rest buffer'
  end.

(** [buildAndClean(targetFile, parts, replacements)].  The function has no
    [return] statement: a call evaluates to [undefined]. *)
Definition buildAndClean (targetFile : string) (parts : list part)
    (replacements : list string) : js value :=
  buffer <- concatParts parts "" ;;
  fs (writeFileSync targetFile (removeMarkers replacements buffer) None) ;;
  Ret undefined.


(** *** The browser target *)

Module Browser.

Definition browserDir : string := path_join BUILDDIR "browser".
Definition targetFile : string := path_join browserDir "nodeunit.js".
Definition minFile : string := path_join browserDir "nodeunit.min.js".

Definition parts : list part :=
  [ file "share/license.js";
    text "nodeunit = (function(){";
    file "deps/json2.js";
    text "var assert = this.assert = {};";
    text "var types = {};";
    text "var core = {};";
    text "var nodeunit = {};";
    text "var reporter = {};";
    file "deps/async.js";
    text "(function(exports){";
    file "lib/assert.js";
    text "})(assert);";
    text "(function(exports){";
    file "lib/types.js";
    text "})(types);";
    text "(function(exports){";
    file "lib/core.js";
    text "})(core);";
    text "(function(exports){";
    file "lib/reporters/browser.js";
    text "})(reporter);";
    text "nodeunit = core;";
    text "nodeunit.assert = assert;";
    text "nodeunit.reporter = reporter;";
    text "nodeunit.run = reporter.run;";
    text "return nodeunit; })();" ].

Definition replacements : list string := ["@REMOVE_LINE_FOR_BROWSER"].

(** Directory set-up, the main bundle and the style sheet. *)
Definition bundle : js unit :=
  exists_ <- fs (existsSync browserDir) ;;
  (if exists_ then fs (rmSync browserDir) else Ret tt) ;;
  fs (mkdirSync browserDir true) ;;
  console_log ("   -> Concatenating library files into " ++ targetFile ++ "...") ;;
  buildAndClean targetFile parts replacements ;;
  console_log "   -> Copying nodeunit.css" ;;
  fs (copyFileSync "share/nodeunit.css" (path_join browserDir "nodeunit.css")).

(** The [try] block of step 2. *)
Definition minifyTry : js unit :=
  unminifiedCode <- fs (readFileSync targetFile) ;;
  minified <- fs (minify unminifiedCode) ;;
  match error minified with
  | Some e => Throw e
  | None =>
      fs (writeFileSync minFile (code minified) None) ;;
      console_log "      | Minification successful."
  end.

(** The [catch (e)] block of step 2. *)
Definition minifyCatch (e : exn) : js unit :=
  console_error (nl ++ "❌ ERROR during UglifyJS minification: " ++ show (exn_message e)).

(** Step 2: minification. *)
Definition minification : js unit :=
  console_log "   -> Minifying browser bundle using UglifyJS module..." ;;
  TryCatch minifyTry minifyCatch (Ret tt).

Definition testDir : string := path_join browserDir "test".

Definition testScripts : list string :=
  ["test-base.js"; "test-runmodule.js"; "test-runtest.js";
   "test-testcase.js"; "test-testcase-legacy.js"].

Definition testParts (script : string) : list part :=
  let scriptName := path_basename script ".js" in
  [ text "(function (exports) {";
    file ("test/" ++ script);
    text ("})(this." ++ hyphensToUnderscores scriptName ++ " = {});") ].

(** The body of [testScripts.forEach(script => ...)]. *)
Definition wrapTestScript (script : string) : js unit :=
  let targetPath := path_join testDir script in
  buildAndClean targetPath (testParts script) replacements ;; Ret tt.

(** Step 3 and the final copies. *)
Definition hostTests : js unit :=
  fs (mkdirSync testDir true) ;;
  fs (copyFileSync "test/test.html" (path_join testDir "test.html")) ;;
  forEach testScripts wrapTestScript ;;
  fs (copyFileSync targetFile (path_join testDir "nodeunit.js")) ;;
  fs (copyFileSync (path_join browserDir "nodeunit.css") (path_join testDir "nodeunit.css")) ;;
  console_log "✅ Browser build complete.".

End Browser.

Definition runBrowser : js unit :=
  console_log (nl ++ "🌐 Running BROWSER build task...") ;;
  Browser.bundle ;;
  Browser.minification ;;
  Browser.hostTests.

(** *** The CommonJS target *)

Module CommonJS.

Definition commonjsDir : string := path_join BUILDDIR "commonjs".
Definition targetFile : string := path_join commonjsDir "nodeunit.js".

Definition parts : list part :=
  [ text "var async = require('async');";
    text "var assert = {};";
    text "var types = {};";
    text "var core = {};";
    text "var nodeunit = {};";
    text "var reporter = {};";
    text "(function(exports){";
    file "lib/assert.js";
    text "})(assert);";
    text "(function(exports){";
    file "lib/types.js";
    text "})(types);";
    text "(function(exports){";
    file "lib/core.js";
    text "})(core);";
    text "module.exports = core;";
    text "(function(exports, nodeunit){";
    file "lib/reporters/browser.js";
    text "})(reporter, module.exports);";
    text "module.exports.assert = assert;";
    text "module.exports.reporter = reporter;";
    text "module.exports.run = reporter.run;" ].

Definition replacements : list string :=
  ["@REMOVE_LINE_FOR_BROWSER"; "@REMOVE_LINE_FOR_COMMONJS"].

End CommonJS.

Definition runCommonJS : js unit :=
  console_log (nl ++ "🧩 Running COMMONJS build task...") ;;
  exists_ <- fs (existsSync CommonJS.commonjsDir) ;;
  (if exists_ then fs (rmSync CommonJS.commonjsDir) else Ret tt) ;;
  fs (mkdirSync CommonJS.commonjsDir true) ;;
  fs (mkdirSync (path_join CommonJS.commonjsDir "deps") true) ;;
  fs (copyFileSync "deps/json2.js" (path_join CommonJS.commonjsDir "deps/json2.js")) ;;
  fs (copyFileSync "deps/async.js" (path_join CommonJS.commonjsDir "deps/async.js")) ;;
  console_log ("   -> Concatenating library files into " ++ CommonJS.targetFile ++ "...") ;;
  buildAndClean CommonJS.targetFile CommonJS.parts CommonJS.replacements ;;
  console_log "✅ CommonJS build complete.".

(** *** The remaining tasks *)

Definition runTest {rt : Runtime} : js unit :=
  console_log (nl ++ "🧪 Running TEST task...") ;;
  console_log "   -> [SKIPPED] Test execution via external binary." ;;
  exec "node ./bin/nodeunit test" "Test" ;;
  console_log "✅ Tests finished.".

Definition runLint : js unit :=
  console_log (nl ++ "🔍 Running LINT task...") ;;
  console_log "   -> [SKIPPED] Lint execution via external binary (nodelint)." ;;
  console_log "✅ Lint complete.".

Definition runDoc : js unit :=
  console_log (nl ++ "📖 Running DOC task (Man page generation)...") ;;
  fs (mkdirSync "man1" true) ;;
  console_log "   -> [SKIPPED] Man page generation via external binary (ronn)." ;;
  console_log "✅ Doc generation complete.".

Definition runInstall {rt : Runtime} : js unit :=
  console_log (nl ++ "⬇️ Running INSTALL task (requires elevated permissions)...") ;;
  runBuild ;;
  let nodejsLibDir := LIBDIR ++ "/node" in
  exec ("install -d " ++ nodejsLibDir) "Install" ;;
  exec ("cp -a " ++ BUILDDIR ++ "/" ++ PACKAGE ++ " " ++ nodejsLibDir) "Install" ;;
  exec ("install -m 0755 " ++ BUILDDIR ++ "/nodeunit.sh " ++ BINDIR ++ "/nodeunit") "Install" ;;
  exec ("install -d " ++ MANDIR ++ "/man1/") "Install" ;;
  exec ("cp -a man1/nodeunit.1 " ++ MANDIR ++ "/man1/ || true") "Install" ;;
  console_log "✅ Install complete. You may need to run this with sudo.".

Definition runUninstall {rt : Runtime} : js unit :=
  console_log (nl ++ "⬆️ Running UNINSTALL task (requires elevated permissions)...") ;;
  let nodejsLibDir := LIBDIR ++ "/node" in
  exec ("rm -rf " ++ nodejsLibDir ++ "/nodeunit " ++ nodejsLibDir ++ "/nodeunit.js "
          ++ BINDIR ++ "/nodeunit") "Uninstall" ;;
  exec ("rm -rf " ++ MANDIR ++ "/man1/nodeunit.1") "Uninstall" ;;
  console_log "✅ Uninstall complete. You may need to run this with sudo.".

(** The lines of the help menu. *)
Definition helpLines (showVerbose : bool) : list string :=
  [ nl ++ "=================================================";
    "       Node.js Task Runner Help Menu (nodeunit)";
    "=================================================";
    "Usage: node task_runner.js <command> [options]";
    nl ++ "Available Commands (from Makefile):";
    "  all        : Runs 'build' and 'doc'.";
    "  build      : Copies source files and creates installer script.";
    "  browser    : Creates the concatenated browser bundle (.js, .min.js).";
    "  commonjs   : Creates the CommonJS browser module bundle.";
    "  test       : Runs the unit tests. (Currently skipped)";
    "  lint       : Runs static analysis. (Currently skipped)";
    "  install    : Copies files to " ++ BINDIR ++ " and " ++ LIBDIR ++ "/node.";
    "  uninstall  : Removes installed files.";
    "  clean      : Removes the '" ++ BUILDDIR ++ "' directory and stamp files.";
    "  doc        : Generates man pages. (Currently skipped)";
    "  help (-h)  : Shows this simple help message." ]
  ++ (if showVerbose then
        [ nl ++ "Available Options (Flags):";
          "  -h, --help : Simple help view (use with no command).";
          "  -hh        : Verbose help view (use with no command)." ]
      else [])
  ++ [ "=================================================" ].

Definition showHelp (showVerbose : bool) : js unit :=
  forEach (helpLines showVerbose) console_log.

(** *** 3. Command switch *)

(** The [switch (primaryCommand)] statement. *)
Definition dispatch {rt : Runtime} (primaryCommand : string) : js unit :=
  if primaryCommand =? "all" then runBuild ;; runDoc
  else if primaryCommand =? "build" then runBuild
  else if primaryCommand =? "browser" then runBrowser
  else if primaryCommand =? "commonjs" then runCommonJS
  else if primaryCommand =? "test" then runTest
  else if primaryCommand =? "clean" then runClean
  else if primaryCommand =? "lint" then runLint
  else if primaryCommand =? "doc" then runDoc
  else if primaryCommand =? "install" then runInstall
  else if primaryCommand =? "uninstall" then runUninstall
  else
    console_error (nl ++ "❌ ERROR: Unknown command: '" ++ primaryCommand ++ "'") ;;
    showHelp false.

(** The script, run with [process.argv.slice(2) = userArgs]. *)
Definition main {rt : Runtime} (userArgs : list string) : js unit :=
  let primaryCommand := primaryCommand userArgs in
  let options := options userArgs in
  if includes options "-h" || includes options "--help" then showHelp false
  else if includes options "-hh" then showHelp true
  else if primaryCommand =? "" then
    console_error (nl ++ "❌ ERROR: No command provided.") ;;
    showHelp false
  else dispatch primaryCommand.

End TaskRunner.
Import TaskRunner.

(** ** Notions used to state the properties *)

Module Props.

Definition recognizedTargets : list string :=
  ["all"; "build"; "browser"; "commonjs"; "test"; "clean"; "lint"; "doc";
   "install"; "uninstall"].

Definition helpFlags : list string := ["-h"; "--help"; "-hh"].

(** Some argument is one of the help flags. *)
Definition hasHelpFlag (userArgs : list string) : bool :=
  existsb (includes helpFlags) userArgs.

(** [joined m pieces last]: the pieces, each followed by [m], and then
    [last].  With the empty string for [m] this is the pieces and [last]
    put together. *)
Fixpoint joined (m : string) (pieces : list string) (last : string) : string :=
  match pieces with
  | [] => last
  | piece :: rest => piece ++ m ++ joined m rest last
  end.

(** [leftmost m pieces last]: in [joined m pieces last], each [m] that
    follows a piece is the first occurrence of [m] after the previous one
    ([m] occurs in the piece followed by [m] only at the end), and [m]
    does not occur in [last]. *)
Definition leftmost (m : string) (pieces : list string) (last : string) : Prop :=
  Forall (fun piece => occurrences m (piece ++ m) = 1) pieces /\
  occurrences m last = 0.

(** The one-line message for a missing or unknown command. *)
Definition usageError (command : string) : string :=
  if command =? "" then nl ++ "❌ ERROR: No command provided."
  else nl ++ "❌ ERROR: Unknown command: '" ++ command ++ "'".

(** [readsFrom env files]: in [env], reading a path gives the text [files]
    has for it and throws when [files] has none. *)
Definition readsFrom (env : Env) (files : string -> option string) : Prop :=
  forall (p : string) (w : world env),
    match files p with
    | Some data => fst (respond env _ (readFileSync p) w) = inl data
    | None => exists e, fst (respond env _ (readFileSync p) w) = inr e
    end.

(** The text a part stands for: the file's text when [path] is populated,
    else the literal when [content] is populated, else nothing. *)
Definition resolved (files : string -> option string) (p : part) : option string :=
  match populated (path p) with
  | Some filePath => files filePath
  | None =>
      match populated (content p) with
      | Some literal => Some literal
      | None => Some EmptyString
      end
  end.

(** The texts put one after the other, each followed by one newline. *)
Definition assembled (texts : list string) : string :=
  String.concat "" (map (fun data => data ++ nl) texts).

(** A part that names a file which cannot be read. *)
Definition unreadable (files : string -> option string) (p : part) : Prop :=
  exists filePath, populated (path p) = Some filePath /\ files filePath = None.

(** [minifierFails env]: whenever it is called, [UglifyJS.minify] throws or
    returns an error payload. *)
Definition minifierFails (env : Env) : Prop :=
  forall (source : string) (w : world env),
    match fst (respond env _ (minify source) w) with
    | inl m => error m <> None
    | inr _ => True
    end.

(** [aborts env p]: in [env], [p] always ends by an exception it does not
    catch, and has not called [fs.writeFileSync] by then. *)
Definition aborts (env : Env) {A : Type} (p : js A) : Prop :=
  forall w : world env,
  exists t e w',
    run env p w = (t, Thrown e, w') /\ existsb isWrite t = false.

(** [passes env target p]: in [env], [p] never writes [target] and never
    ends the process by [process.exit]. *)
Definition passes (env : Env) (target : string) {A : Type} (p : js A) : Prop :=
  forall w : world env,
    existsb (isWriteTo target) (trace env p w) = false /\
    forall status, result env p w <> Exited status.

(** [failsSparing env target p]: in [env], [p] never writes [target] and
    always ends by an exception it does not catch. *)
Definition failsSparing (env : Env) (target : string) {A : Type} (p : js A) : Prop :=
  forall w : world env,
    existsb (isWriteTo target) (trace env p w) = false /\
    exists e, result env p w = Thrown e.

Definition ENOENT (p : string) : exn :=
  {| exn_message := Some ("ENOENT: no such file or directory, open '" ++ p ++ "'");
     exn_stderr := None |}.

(** A simple environment: reads are answered from [files], the minifier
    by [minifier], every other call succeeds. *)
Definition fixture (files : string -> option string)
    (minifier : string -> minified + exn) : Env :=
  {| world := unit;
     respond := fun (X : Type) (c : call X) (w : unit) =>
       match c in call T return (T + exn) * unit with
       | existsSync p =>
           (inl match files p with Some _ => true | None => false end, w)
       | readFileSync p =>
           (match files p with Some data => inl data | None => inr (ENOENT p) end, w)
       | minify source => (minifier source, w)
       | execSync _ => (inl EmptyString, w)
       | mkdirSync _ _ => (inl tt, w)
       | rmSync _ => (inl tt, w)
       | unlinkSync _ => (inl tt, w)
       | writeFileSync _ _ _ => (inl tt, w)
       | copyFileSync _ _ => (inl tt, w)
       end |}.

Definition identityMinifier (source : string) : minified + exn :=
  inl {| error := None; code := source |}.

Definition brokenMinifier (source : string) : minified + exn :=
  inl {| error := Some {| exn_message := Some "Unexpected token"; exn_stderr := None |};
         code := EmptyString |}.

(** Every path holds the one-line text [stub]. *)
Definition stubFiles (p : string) : option string := Some "stub".

(** As [stubFiles], with [lib/core.js] deleted. *)
Definition withoutCore (p : string) : option string :=
  if p =? "lib/core.js" then None else Some "stub".

(** The five legacy test scripts, each with the identifier of its wrapper. *)
Definition legacyTests : list (string * string) :=
  [ ("test-base", "test_base");
    ("test-runmodule", "test_runmodule");
    ("test-runtest", "test_runtest");
    ("test-testcase", "test_testcase");
    ("test-testcase-legacy", "test_testcase_legacy") ].

(** [conforming rt]: what lower-casing does in every JavaScript runtime,
    whatever the characters.  Lower-casing twice is lower-casing once, a
    leading hyphen is neither added nor removed, and only the empty string
    becomes empty. *)
Record conforming (rt : Runtime) : Prop := {
  lower_idem : forall s : string, toLowerCase (toLowerCase s) = toLowerCase s;
  lower_hyphen : forall s : string,
    startsWith (toLowerCase s) "-" = startsWith s "-";
  lower_empty : forall s : string, isEmpty (toLowerCase s) = isEmpty s
}.

(** An ASCII word in capitals: the letters a-z are mapped to A-Z. *)
Definition asciiUpperCase (s : string) : string :=
  mapChars (fun c => let n := nat_of_ascii c in
                     if (97 <=? n)%nat && (n <=? 122)%nat
                     then ascii_of_nat (n - 32) else c) s.

(** A runtime that knows ASCII only: it leaves every character outside
    ASCII alone. *)
Definition asciiRuntime : Runtime :=
  {| unicodeLowerCase := asciiLowerCase; unicodeTrim := asciiTrim |}.

End Props.
Import Props.

(** ** The older variant of the script ([old/task_runner_with_cli_calls.js])

    Its argument parsing, [exec] and [setupBuildDir] are the same text as in
    [task_runner.js] and are shared; every other task goes through [exec]. *)

Module Old.

(** A double quote inside a shell command. *)
Definition dq : string := String (ascii_of_nat 34) EmptyString.

Definition runClean {rt : Runtime} : js unit :=
  console_log (nl ++ "🧹 Running CLEAN task...") ;;
  exists_ <- fs (existsSync BUILDDIR) ;;
  (if exists_ then exec ("rm -rf " ++ BUILDDIR) "Clean" else Ret tt) ;;
  stamp <- fs (existsSync "stamp-build") ;;
  (if stamp then exec "rm -f stamp-build" "Clean" else Ret tt) ;;
  console_log "✅ Clean complete!".

Definition runBuild {rt : Runtime} : js unit :=
  console_log (nl ++ "📦 Running BUILD task (Node Module)...") ;;
  setupBuildDir ;;
  exec "touch stamp-build" "Build" ;;
  exec ("mkdir -p " ++ BUILDDIR ++ "/" ++ PACKAGE) "Build" ;;
  console_log "   -> Copying source files to dist/..." ;;
  exec ("cp -R bin deps index.js lib package.json share " ++ BUILDDIR ++ "/" ++ PACKAGE)
    "Build" ;;
  let nodejsLibDir := LIBDIR ++ "/node" in
  let wrapperScript :=
    "#!/bin/sh" ++ nl ++ "node " ++ nodejsLibDir ++ "/" ++ PACKAGE ++ "/bin/nodeunit $@" in
  fs (writeFileSync (BUILDDIR ++ "/nodeunit.sh") wrapperScript (Some 493)) ;;
  console_log "✅ Node module build complete!".

Definition runBrowser {rt : Runtime} : js unit :=
  console_log (nl ++ "🌐 Running BROWSER build task...") ;;
  exec ("mkdir -p " ++ BUILDDIR ++ "/browser") "Browser Build" ;;
  exec ("rm -rf " ++ BUILDDIR ++ "/browser/*") "Browser Build" ;;
  console_log "   -> Concatenating library files (lib/core.js, lib/assert.js, etc.)..." ;;
  console_log
    "   -> [SKIPPED] Complex file concatenation/injection due to missing source files." ;;
  console_log "   -> Minifying browser bundle using uglify-js..." ;;
  exec ("node_modules/uglify-js/bin/uglifyjs " ++ BUILDDIR ++ "/browser/nodeunit.js > "
          ++ BUILDDIR ++ "/browser/nodeunit.min.js || echo " ++ dq
          ++ "Minification skipped (file missing)." ++ dq) "Browser Build" ;;
  console_log "   -> Copying assets and test scripts..." ;;
  exec ("cp share/nodeunit.css " ++ BUILDDIR ++ "/browser/nodeunit.css || true")
    "Browser Build" ;;
  exec ("mkdir -p " ++ BUILDDIR ++ "/browser/test") "Browser Build" ;;
  console_log "✅ Browser build complete (Requires full source files to function).".

Definition runCommonJS {rt : Runtime} : js unit :=
  console_log (nl ++ "🧩 Running COMMONJS build task...") ;;
  exec ("mkdir -p " ++ BUILDDIR ++ "/commonjs") "CommonJS Build" ;;
  exec ("rm -rf " ++ BUILDDIR ++ "/commonjs/*") "CommonJS Build" ;;
  console_log "   -> [SKIPPED] Complex file concatenation/injection for CommonJS module." ;;
  console_log "   -> Applying CommonJS specific sed replacements..." ;;
  exec ("sed -i " ++ dq ++ "/\@REMOVE_LINE_FOR_BROWSER/d" ++ dq ++ " " ++ BUILDDIR
          ++ "/commonjs/nodeunit.js || echo " ++ dq ++ "Sed step skipped (file missing)."
          ++ dq) "CommonJS Build" ;;
  console_log "✅ CommonJS build complete (Requires full source files to function).".

Definition runTest {rt : Runtime} : js unit :=
  console_log (nl ++ "🧪 Running TEST task...") ;;
  exec "node ./bin/nodeunit test" "Test" ;;
  console_log "✅ Tests finished.".

Definition runLint {rt : Runtime} : js unit :=
  console_log (nl ++ "🔍 Running LINT task...") ;;
  exec ("nodelint --config nodelint.cfg ./index.js ./bin/nodeunit ./bin/nodeunit.json "
          ++ "./lib/*.js ./lib/reporters/*.js ./test/*.js") "Lint" ;;
  console_log "✅ Lint complete.".

Definition runDoc {rt : Runtime} : js unit :=
  console_log (nl ++ "📖 Running DOC task (Man page generation)...") ;;
  exec "mkdir -p man1" "Doc" ;;
  console_log "   -> [Placeholder] Converting doc/*.md to man1/*.1 using ronn..." ;;
  exec ("ronn --roff doc/nodeunit.md > man1/nodeunit.1 || echo " ++ dq
          ++ "Ronn command failed or doc/nodeunit.md not found." ++ dq) "Doc" ;;
  console_log "✅ Doc generation complete.".

Definition runInstall {rt : Runtime} : js unit :=
  console_log (nl ++ "⬇️ Running INSTALL task (requires elevated permissions)...") ;;
  runBuild ;;
  exec ("install -d " ++ LIBDIR ++ "/node") "Install" ;;
  exec ("cp -a " ++ BUILDDIR ++ "/" ++ PACKAGE ++ " " ++ LIBDIR ++ "/node") "Install" ;;
  exec ("install -m 0755 " ++ BUILDDIR ++ "/nodeunit.sh " ++ BINDIR ++ "/nodeunit") "Install" ;;
  exec ("install -d " ++ MANDIR ++ "/man1/") "Install" ;;
  exec ("cp -a man1/nodeunit.1 " ++ MANDIR ++ "/man1/") "Install" ;;
  console_log "✅ Install complete. You may need to run this with sudo.".

Definition runUninstall {rt : Runtime} : js unit :=
  console_log (nl ++ "⬆️ Running UNINSTALL task (requires elevated permissions)...") ;;
  exec ("rm -rf " ++ LIBDIR ++ "/node/nodeunit " ++ LIBDIR ++ "/node/nodeunit.js "
          ++ BINDIR ++ "/nodeunit") "Uninstall" ;;
  exec ("rm -rf " ++ MANDIR ++ "/man1/nodeunit.1") "Uninstall" ;;
  console_log "✅ Uninstall complete. You may need to run this with sudo.".

Definition helpLines (showVerbose : bool) : list string :=
  [ nl ++ "=================================================";
    "       Node.js Task Runner Help Menu (nodeunit)";
    "=================================================";
    "Usage: node task_runner.js <command> [options]";
    nl ++ "Available Commands (from Makefile):";
    "  all        : Runs 'build' and 'doc'.";
    "  build      : Copies source files and creates installer script.";
    "  browser    : Creates the concatenated browser bundle (.js, .min.js).";
    "  commonjs   : Creates the CommonJS browser module bundle.";
    "  test       : Runs the unit tests.";
    "  lint       : Runs static analysis using 'nodelint'.";
    "  install    : Copies files to " ++ BINDIR ++ " and " ++ LIBDIR ++ "/node.";
    "  uninstall  : Removes installed files.";
    "  clean      : Removes the '" ++ BUILDDIR ++ "' directory and stamp files.";
    "  doc        : Generates man pages using 'ronn'.";
    "  help (-h)  : Shows this simple help message." ]
  ++ (if showVerbose then
        [ nl ++ "Available Options (Flags):";
          "  -h, --help : Simple help view (use with no command).";
          "  -hh        : Verbose help view (use with no command)." ]
      else [])
  ++ [ "=================================================" ].

Definition showHelp (showVerbose : bool) : js unit :=
  forEach (helpLines showVerbose) console_log.

(** The [switch]: the cases [lint] and [doc] are commented out, and [all]
    runs the build only. *)
Definition dispatch {rt : Runtime} (primaryCommand : string) : js unit :=
  if primaryCommand =? "all" then runBuild
  else if primaryCommand =? "build" then runBuild
  else if primaryCommand =? "browser" then runBrowser
  else if primaryCommand =? "commonjs" then runCommonJS
  else if primaryCommand =? "test" then runTest
  else if primaryCommand =? "clean" then runClean
  else if primaryCommand =? "install" then runInstall
  else if primaryCommand =? "uninstall" then runUninstall
  else
    console_error (nl ++ "❌ ERROR: Unknown command: '" ++ primaryCommand ++ "'") ;;
    showHelp false.

Definition main {rt : Runtime} (userArgs : list string) : js unit :=
  let primaryCommand := primaryCommand userArgs in
  let options := options userArgs in
  if includes options "-h" || includes options "--help" then showHelp false
  else if includes options "-hh" then showHelp true
  else if primaryCommand =? "" then
    console_error (nl ++ "❌ ERROR: No command provided.") ;;
    showHelp false
  else dispatch primaryCommand.

(** The targets the [switch] of the older script knows. *)
Definition recognizedTargets : list string :=
  ["all"; "build"; "browser"; "commonjs"; "test"; "clean"; "install"; "uninstall"].

End Old.

(** ** Notions for the properties of whole runs *)

Module Runs.

(** [p] is [BUILDDIR] or lies under it. *)
Definition inBuildDir (p : string) : bool :=
  (p =? BUILDDIR) || prefix (BUILDDIR ++ "/") p.

(** What the script may change through [fs] directly: the build
    directory and what is under it, the stamp file and the [man1]
    directory. *)
Definition confined (o : obs) : bool :=
  match o with
  | Called (writeFileSync p _ _) _ => inBuildDir p || (p =? "stamp-build")
  | Called (mkdirSync p _) _ => inBuildDir p || (p =? "man1")
  | Called (rmSync p) _ => inBuildDir p
  | Called (unlinkSync p) _ => p =? "stamp-build"
  | Called (copyFileSync _ dest) _ => inBuildDir dest
  | _ => true
  end.

(** As [confined], for the older script: one directory and one file. *)
Definition confinedOld (o : obs) : bool :=
  match o with
  | Called (writeFileSync p _ _) _ => p =? BUILDDIR ++ "/nodeunit.sh"
  | Called (mkdirSync p _) _ => p =? BUILDDIR
  | Called (rmSync _) _ => false
  | Called (unlinkSync _) _ => false
  | Called (copyFileSync _ _) _ => false
  | Called (readFileSync _) _ => false
  | Called (minify _) _ => false
  | _ => true
  end.

(** A call that changes the file system. *)
Definition mutates (o : obs) : bool :=
  match o with
  | Called (writeFileSync _ _ _) _ => true
  | Called (mkdirSync _ _) _ => true
  | Called (rmSync _) _ => true
  | Called (unlinkSync _) _ => true
  | Called (copyFileSync _ _) _ => true
  | Called (execSync _) _ => true
  | _ => false
  end.

Definition isShell (o : obs) : bool :=
  match o with
  | Called (execSync _) _ => true
  | _ => false
  end.

(** The shell commands run, in order. *)
Fixpoint commands (t : list obs) : list string :=
  match t with
  | [] => []
  | Called (execSync command) _ :: rest => command :: commands rest
  | _ :: rest => commands rest
  end.

(** The lines printed on one stream, in order. *)
Fixpoint printed (out : stream) (t : list obs) : list string :=
  match t with
  | [] => []
  | Printed out' line :: rest =>
      match out, out' with
      | stdout, stdout | stderr, stderr => line :: printed out rest
      | _, _ => printed out rest
      end
  | _ :: rest => printed out rest
  end.

(** The files produced, in order: the paths of the writes and the
    destinations of the copies that succeeded. *)
Fixpoint produced (t : list obs) : list string :=
  match t with
  | [] => []
  | Called (writeFileSync p _ _) (inl _) :: rest => p :: produced rest
  | Called (copyFileSync _ dest) (inl _) :: rest => dest :: produced rest
  | _ :: rest => produced rest
  end.

(** [producesOnSuccess env p files]: in [env], every run of [p] that
    returns has produced exactly [files], in that order. *)
Definition producesOnSuccess (env : Env) {A : Type} (p : js A) (files : list string) : Prop :=
  forall (w : world env) t a w',
    run env p w = (t, Normal a, w') -> produced t = files.

(** [onSuccess env p Q]: in [env], the observations of every run of [p]
    that returns satisfy [Q]. *)
Definition onSuccess (env : Env) {A : Type} (p : js A) (Q : list obs -> Prop) : Prop :=
  forall (w : world env) t a w',
    run env p w = (t, Normal a, w') -> Q t.

(** [conforms ok env p]: in [env], every observation of every run of [p]
    satisfies [ok], and the process ends with exit status 0 or 1. *)
Definition conforms (ok : obs -> bool) (env : Env) {A : Type} (p : js A) : Prop :=
  forall w : world env,
    forallb ok (trace env p w) = true /\
    (exitStatus (result env p w) = 0%Z \/ exitStatus (result env p w) = 1%Z).

(** The targets implemented with [fs] alone. *)
Definition nativeTargets : list string := ["browser"; "commonjs"; "clean"; "lint"; "doc"].

(** [commandFails env command]: in [env], running [command] always throws. *)
Definition commandFails (env : Env) (command : string) : Prop :=
  forall w : world env, exists e, fst (respond env _ (execSync command) w) = inr e.

(** [nothingExists env]: in [env], [fs.existsSync] always answers [false]. *)
Definition nothingExists (env : Env) : Prop :=
  forall (p : string) (w : world env), fst (respond env _ (existsSync p) w) = inl false.

(** An environment whose shell fails and in which no path exists; reads
    and the minifier are as in [fixture stubFiles identityMinifier]. *)
Definition barren : Env :=
  {| world := unit;
     respond := fun (X : Type) (c : call X) (w : unit) =>
       match c in call T return (T + exn) * unit with
       | existsSync _ => (inl false, w)
       | readFileSync p => (inl "stub", w)
       | minify source => (identityMinifier source, w)
       | execSync command =>
           (inr {| exn_message := Some ("Command failed: " ++ command);
                   exn_stderr := Some "sh: not found" |}, w)
       | mkdirSync _ _ => (inl tt, w)
       | rmSync _ => (inl tt, w)
       | unlinkSync _ => (inl tt, w)
       | writeFileSync _ _ _ => (inl tt, w)
       | copyFileSync _ _ => (inl tt, w)
       end |}.

End Runs.
Import Runs.

(** * Supporting lemmas *)

(** ** Strings: basic facts *)

Section StringFacts.

Implicit Types s t u m : string.

Lemma append_nil_r s : s ++ "" = s.
Proof. induction s as [|c s IH]; simpl; congruence. Qed.

Lemma append_assoc s t u : (s ++ t) ++ u = s ++ (t ++ u).
Proof. induction s as [|c s IH]; simpl; congruence. Qed.

Lemma length_append s t : String.length (s ++ t) = String.length s + String.length t.
Proof. induction s as [|c s IH]; simpl; congruence. Qed.

Lemma prefix_cons c d s t :
  prefix (String c s) (String d t) = Ascii.eqb c d && prefix s t.
Proof.
  simpl. destruct (ascii_dec c d) as [->|Hne].
  - now rewrite Ascii.eqb_refl.
  - apply Ascii.eqb_neq in Hne. now rewrite Hne.
Qed.

Lemma prefix_nil_l s : prefix "" s = true.
Proof. now destruct s. Qed.

Lemma prefix_append m t : prefix m (m ++ t) = true.
Proof.
  induction m as [|c m IH]; simpl.
  - apply prefix_nil_l.
  - destruct (ascii_dec c c); congruence.
Qed.

Lemma prefix_split m s : prefix m s = true -> s = m ++ drop (String.length m) s.
Proof.
  revert s; induction m as [|c m IH]; intros [|d s]; simpl; try easy.
  destruct (ascii_dec c d) as [->|]; [|easy].
  intros H. now rewrite <- IH.
Qed.

Lemma drop_append m t : drop (String.length m) (m ++ t) = t.
Proof. induction m as [|c m IH]; simpl; [now destruct t|exact IH]. Qed.

(** A pattern that matches across [u ++ t] and is at least as long as [u]
    begins with [u]. *)
Lemma prefix_append_short m u t :
  prefix m (u ++ t) = true -> String.length u <= String.length m ->
  prefix u m = true.
Proof.
  revert m; induction u as [|c u IH]; intros m H Hlen.
  - apply prefix_nil_l.
  - destruct m as [|d m]; simpl in Hlen; [lia|].
    simpl in H |- *.
    destruct (ascii_dec d c) as [->|]; [|easy].
    destruct (ascii_dec c c); [|congruence].
    apply IH; [exact H | lia].
Qed.

(** A pattern no longer than [u] matches [u ++ t] exactly when it is a
    prefix of [u]. *)
Lemma prefix_append_long m u t :
  String.length m <= String.length u -> prefix m (u ++ t) = prefix m u.
Proof.
  revert u; induction m as [|c m IH]; intros u Hlen.
  - now rewrite !prefix_nil_l.
  - destruct u as [|d u]; simpl in Hlen; [lia|].
    simpl. destruct (ascii_dec c d); [|reflexivity].
    apply IH; lia.
Qed.

Lemma hasChar_false_prefix c m s :
  hasChar c m = false -> prefix (String c s) m = false.
Proof.
  destruct m as [|d m]; simpl; [reflexivity|].
  intros H. apply orb_false_elim in H as [H _].
  apply Ascii.eqb_neq in H. now destruct (ascii_dec c d).
Qed.

End StringFacts.

(** ** The regular expression built from a marker is the marker itself *)

Lemma outside_class c :
  inEscapedClass c = false -> Ascii.eqb c "\" = false /\ syntaxChar c = false.
Proof.
  destruct c as [[] [] [] [] [] [] [] []]; vm_compute; intros H;
    try discriminate H; split; reflexivity.
Qed.

Lemma escapeRegExp_literal line : RegExp_literal (escapeRegExp line) = Some line.
Proof.
  induction line as [|c line IH]; [reflexivity|].
  simpl. destruct (inEscapedClass c) eqn:Hc.
  - cbn [RegExp_literal]. rewrite Ascii.eqb_refl, Hc.
    fold RegExp_literal. now rewrite IH.
  - destruct (outside_class c Hc) as [Hb Hs].
    cbn [RegExp_literal]. rewrite Hb, Hs. fold RegExp_literal. now rewrite IH.
Qed.

Lemma removeMarker_replaceGlobal line content :
  removeMarker line content = replaceGlobal line content.
Proof. unfold removeMarker. now rewrite escapeRegExp_literal. Qed.

Example escapeRegExp_dot : escapeRegExp "lib/a.js" = "lib\/a\.js".
Proof. reflexivity. Qed.

Example removeMarker_mid_line :
  removeMarker "@REMOVE_LINE_FOR_BROWSER"
    "var a = 1; //@REMOVE_LINE_FOR_BROWSER keep @REMOVE_LINE_FOR_BROWSE"
  = "var a = 1; // keep @REMOVE_LINE_FOR_BROWSE".
Proof. reflexivity. Qed.

Example removeMarker_dot_is_literal :
  removeMarker "a.b" "a.b axb a.b" = " axb ".
Proof. reflexivity. Qed.

Example removeMarker_rejoined :
  removeMarker "ab" "aabb" = "ab".
Proof. reflexivity. Qed.

(** ** One pass of the global replace *)

Lemma scan_nomatch m c s :
  prefix m (String c s) = false -> scan m (String c s) = String c (scan m s).
Proof. intros H. rewrite scan_equation_2, H. reflexivity. Qed.

Lemma scan_match m t : isEmpty m = false -> scan m (m ++ t) = scan m t.
Proof.
  destruct m as [|a m]; [discriminate|]; intros _.
  change (String a m ++ t) with (String a (m ++ t)).
  rewrite scan_equation_2.
  change (String a (m ++ t)) with (String a m ++ t).
  rewrite prefix_append. cbn [scan_unfold_clause_2 String.length].
  replace (S (String.length m) - 1) with (String.length m) by lia.
  now rewrite drop_append.
Qed.

Lemma scan_cases m s :
  isEmpty m = false ->
  match s with
  | EmptyString => scan m s = EmptyString
  | String c s' =>
      if prefix m s
      then exists t, s = m ++ t /\ scan m s = scan m t
      else scan m s = String c (scan m s')
  end.
Proof.
  intros Hm. destruct s as [|c s']; [reflexivity|].
  destruct (prefix m (String c s')) eqn:Hp.
  - exists (drop (String.length m) (String c s')).
    pose proof (prefix_split _ _ Hp) as Hs. split; [exact Hs|].
    rewrite Hs at 1. now apply scan_match.
  - now apply scan_nomatch.
Qed.

(** Induction on a string along the pass: either the pattern matches at
    the front and the pass resumes after it, or one character is kept. *)
Lemma scan_ind (m : string) (P : string -> Prop) :
  isEmpty m = false ->
  P EmptyString ->
  (forall t, P t -> P (m ++ t)) ->
  (forall c s, prefix m (String c s) = false -> P s -> P (String c s)) ->
  forall s, P s.
Proof.
  intros Hm H0 Hmatch Hkeep s.
  remember (String.length s) as n eqn:Hn.
  revert s Hn. induction n as [n IH] using lt_wf_ind. intros s ->.
  destruct s as [|c s]; [exact H0|].
  destruct (prefix m (String c s)) eqn:Hp.
  - rewrite (prefix_split _ _ Hp). apply Hmatch.
    eapply IH; [|reflexivity].
    pose proof (f_equal String.length (prefix_split _ _ Hp)) as Hlen.
    rewrite length_append in Hlen.
    destruct m; [discriminate|]. simpl in Hlen |- *. lia.
  - apply Hkeep; [exact Hp|]. eapply IH; [|reflexivity]. simpl; lia.
Qed.

(** ** Occurrences *)

Lemma prefix_length m s : prefix m s = true -> String.length m <= String.length s.
Proof.
  intros H. rewrite (prefix_split _ _ H), length_append. lia.
Qed.

Lemma occurrences_longer m s :
  String.length s < String.length m -> occurrences m s = 0.
Proof.
  induction s as [|c s IH]; intros Hlen; cbn [occurrences].
  - destruct (prefix m "") eqn:E; [|reflexivity].
    apply prefix_length in E. lia.
  - destruct (prefix m (String c s)) eqn:E.
    + apply prefix_length in E. lia.
    + apply IH. simpl in Hlen. lia.
Qed.

(** ** Marker removal: what is deleted and what is kept *)

Lemma replaceGlobal_pieces m s :
  exists p ps,
    s = String.concat m (p :: ps) /\
    replaceGlobal m s = String.concat "" (p :: ps).
Proof.
  unfold replaceGlobal. destruct (isEmpty m) eqn:Hm.
  - exists s, []. split; reflexivity.
  - revert s. apply (scan_ind m); [exact Hm | | |].
    + exists "", []. split; reflexivity.
    + intros t (p & ps & Ht & Hscan).
      exists "", (p :: ps). rewrite (scan_match _ _ Hm). split.
      * cbn [String.concat]. cbn [String.concat] in Ht. now rewrite <- Ht.
      * cbn [String.concat]. cbn [String.concat] in Hscan. now rewrite <- Hscan.
    + intros c s Hp (p & ps & Hs & Hscan).
      exists (String c p), ps. rewrite (scan_nomatch _ _ _ Hp). split.
      * rewrite Hs at 1. now destruct ps.
      * rewrite Hscan. now destruct ps.
Qed.

Lemma replaceGlobal_absent m s :
  occurrences m s = 0 -> replaceGlobal m s = s.
Proof.
  unfold replaceGlobal. destruct (isEmpty m); [reflexivity|].
  induction s as [|c s IH]; [reflexivity|].
  cbn [occurrences]. destruct (prefix m (String c s)) eqn:Hp; [discriminate|].
  intros H. rewrite (scan_nomatch _ _ _ Hp), IH; [reflexivity | exact H].
Qed.

Lemma occurrences_inside m u t :
  border_in u m = false -> String.length u <= String.length m ->
  occurrences m (u ++ t) = occurrences m t.
Proof.
  induction u as [|c u IH]; intros Hb Hlen; [reflexivity|].
  cbn [border_in] in Hb. apply orb_false_elim in Hb as [Hp Hb].
  change (String c u ++ t) with (String c (u ++ t)). cbn [occurrences].
  change (String c (u ++ t)) with (String c u ++ t).
  destruct (prefix m (String c u ++ t)) eqn:Hm.
  - apply prefix_append_short in Hm; [congruence | exact Hlen].
  - simpl in Hlen. rewrite IH; [reflexivity | exact Hb | lia].
Qed.

Lemma occurrences_after_match m t :
  isEmpty m = false -> self_overlap m = false ->
  occurrences m (m ++ t) = S (occurrences m t).
Proof.
  destruct m as [|a m]; [discriminate|]. intros _ Hb. cbn [self_overlap] in Hb.
  change (String a m ++ t) with (String a (m ++ t)). cbn [occurrences].
  change (String a (m ++ t)) with (String a m ++ t).
  rewrite prefix_append, occurrences_inside; [reflexivity | exact Hb | simpl; lia].
Qed.

Lemma replaceGlobal_count m s :
  self_overlap m = false ->
  String.length (replaceGlobal m s) + occurrences m s * String.length m
  = String.length s.
Proof.
  intros Hb. unfold replaceGlobal. destruct (isEmpty m) eqn:Hm.
  - destruct m; [simpl; lia | discriminate].
  - revert s. apply (scan_ind m); [exact Hm | | |].
    + rewrite scan_equation_1. destruct m; [discriminate | reflexivity].
    + intros t IH. rewrite (scan_match _ _ Hm), (occurrences_after_match _ _ Hm Hb).
      rewrite length_append. simpl. lia.
    + intros c s Hp IH. rewrite (scan_nomatch _ _ _ Hp).
      cbn [occurrences]. rewrite Hp. simpl. lia.
Qed.

(** ** Two tag-like markers: removal in either order *)

Lemma prefix_append_cancel m u t : prefix (m ++ u) (m ++ t) = prefix u t.
Proof.
  induction m as [|c m IH]; [reflexivity|].
  simpl. destruct (ascii_dec c c); [exact IH | congruence].
Qed.

Lemma line_final_tail m c s : line_final m (String c s) = true -> line_final m s = true.
Proof. cbn [line_final]. intros H. now apply andb_prop in H. Qed.

Lemma line_final_suffix m u t : line_final m (u ++ t) = true -> line_final m t = true.
Proof.
  induction u as [|c u IH]; [easy|].
  intros H. apply IH. eapply line_final_tail. exact H.
Qed.

Lemma line_final_match m t :
  line_final m (m ++ t) = true ->
  exists t', t = String newline t' /\ line_final m t = true.
Proof.
  intros H. pose proof (line_final_suffix _ _ _ H) as Ht.
  assert (prefix (m ++ nl) (m ++ t) = true) as Hp.
  { destruct (m ++ t) eqn:E; cbn [line_final] in H;
      apply andb_prop in H as [H _]; rewrite <- E in H |- *;
      now rewrite prefix_append in H. }
  rewrite prefix_append_cancel in Hp.
  destruct t as [|d t]; [discriminate|].
  unfold nl in Hp. rewrite prefix_cons in Hp. apply andb_prop in Hp as [Hd _].
  apply Ascii.eqb_eq in Hd. subst d. now exists t.
Qed.

Lemma tagLike_inv m :
  tagLike m = true ->
  exists m', m = String "@" m' /\ hasChar "@" m' = false /\ hasChar newline m' = false.
Proof.
  destruct m as [|c m']; [discriminate|]. cbn [tagLike]. intros H.
  apply andb_prop in H as [H Hn]. apply andb_prop in H as [Hc Ha].
  apply Ascii.eqb_eq in Hc. subst c. exists m'.
  now rewrite !negb_true_iff in *.
Qed.

Lemma tagLike_nonempty m : tagLike m = true -> isEmpty m = false.
Proof. now destruct m. Qed.

Lemma tagLike_needs_at m d s :
  tagLike m = true -> Ascii.eqb d "@" = false -> prefix m (String d s) = false.
Proof.
  intros Hm Hd. apply tagLike_inv in Hm as (m' & -> & _).
  rewrite prefix_cons, Ascii.eqb_sym, Hd. reflexivity.
Qed.

Lemma hasChar_cons_false c d u :
  hasChar c (String d u) = false -> Ascii.eqb d c = false /\ hasChar c u = false.
Proof.
  cbn [hasChar]. intros H. apply orb_false_elim in H as [H1 H2].
  now rewrite Ascii.eqb_sym.
Qed.

(** A pass for a tag-like marker copies a stretch without at-sign. *)
Lemma scan_through m u t :
  tagLike m = true -> hasChar "@" u = false -> scan m (u ++ t) = u ++ scan m t.
Proof.
  intros Hm. induction u as [|d u IH]; intros Hu; [reflexivity|].
  apply hasChar_cons_false in Hu as [Hd Hu].
  change (String d u ++ t) with (String d (u ++ t)).
  rewrite scan_nomatch by now apply tagLike_needs_at.
  now rewrite IH.
Qed.

Lemma distinct_no_match p q t :
  prefix p q = false -> prefix q p = false -> prefix p (q ++ t) = false.
Proof.
  intros Hpq Hqp. destruct (prefix p (q ++ t)) eqn:H; [|reflexivity].
  destruct (Nat.le_gt_cases (String.length p) (String.length q)) as [Hle|Hgt].
  - rewrite prefix_append_long in H by exact Hle. congruence.
  - apply prefix_append_short in H; [congruence | lia].
Qed.

(** A pass for one marker copies an occurrence of the other. *)
Lemma scan_over_other p q t :
  tagLike p = true -> tagLike q = true ->
  prefix p q = false -> prefix q p = false ->
  scan p (q ++ t) = q ++ scan p t.
Proof.
  intros Hp Hq Hpq Hqp.
  pose proof (distinct_no_match p q t Hpq Hqp) as Hno.
  destruct (tagLike_inv _ Hq) as (q' & -> & Hq' & _).
  change (String "@" q' ++ t) with (String "@" (q' ++ t)) in *.
  rewrite scan_nomatch by exact Hno.
  now rewrite scan_through.
Qed.

(** Removing a marker that stands at line ends does not change whether a
    stretch without at-sign and newline begins the text. *)
Lemma prefix_scan_clean p u :
  tagLike p = true -> hasChar "@" u = false -> hasChar newline u = false ->
  forall s, line_final p s = true -> prefix u (scan p s) = prefix u s.
Proof.
  intros Hp. induction u as [|w u IH]; intros Hat Hnl s Hs.
  - now rewrite !prefix_nil_l.
  - apply hasChar_cons_false in Hat as [Hw1 Hat].
    apply hasChar_cons_false in Hnl as [Hw2 Hnl].
    destruct s as [|d s]; [reflexivity|].
    destruct (prefix p (String d s)) eqn:Hm.
    + rewrite (prefix_split _ _ Hm) in Hs |- *.
      destruct (line_final_match _ _ Hs) as (t' & Ht & _).
      rewrite Ht, (scan_match _ _ (tagLike_nonempty _ Hp)).
      rewrite scan_nomatch by (apply tagLike_needs_at; [exact Hp | reflexivity]).
      destruct (tagLike_inv _ Hp) as (p' & -> & _).
      change (String "@" p' ++ String newline t')
        with (String "@" (p' ++ String newline t')).
      now rewrite !prefix_cons, Hw1, Hw2.
    + rewrite (scan_nomatch _ _ _ Hm), !prefix_cons.
      rewrite IH; [reflexivity | exact Hat | exact Hnl |].
      eapply line_final_tail; exact Hs.
Qed.

Lemma prefix_after_scan p q c s :
  tagLike p = true -> tagLike q = true -> line_final p s = true ->
  prefix q (String c (scan p s)) = prefix q (String c s).
Proof.
  intros Hp Hq Hs. destruct (tagLike_inv _ Hq) as (q' & -> & Hat & Hnl).
  rewrite !prefix_cons, prefix_scan_clean; auto.
Qed.

Lemma scan_commute p q :
  tagLike p = true -> tagLike q = true ->
  prefix p q = false -> prefix q p = false ->
  forall s, line_final p s = true -> line_final q s = true ->
  scan q (scan p s) = scan p (scan q s).
Proof.
  intros Hp Hq Hpq Hqp s.
  remember (String.length s) as n eqn:Hn. revert s Hn.
  induction n as [n IH] using lt_wf_ind. intros s -> Hsp Hsq.
  pose proof (tagLike_nonempty _ Hp) as Hpe.
  pose proof (tagLike_nonempty _ Hq) as Hqe.
  destruct s as [|c s]; [reflexivity|].
  destruct (prefix p (String c s)) eqn:Hmp; [|destruct (prefix q (String c s)) eqn:Hmq].
  - pose proof (prefix_split _ _ Hmp) as Hs.
    set (t := drop (String.length p) (String c s)) in *.
    rewrite Hs in Hsp, Hsq |- *.
    rewrite (scan_match _ _ Hpe), scan_over_other, (scan_match _ _ Hpe); auto.
    apply (IH (String.length t)); [|reflexivity| |].
    + apply (f_equal String.length) in Hs. rewrite length_append in Hs.
      destruct p; [discriminate|]. simpl in Hs |- *. lia.
    + eapply line_final_suffix; exact Hsp.
    + eapply line_final_suffix; exact Hsq.
  - pose proof (prefix_split _ _ Hmq) as Hs.
    set (t := drop (String.length q) (String c s)) in *.
    rewrite Hs in Hsp, Hsq |- *.
    rewrite (scan_match _ _ Hqe), scan_over_other, (scan_match _ _ Hqe); auto.
    apply (IH (String.length t)); [|reflexivity| |].
    + apply (f_equal String.length) in Hs. rewrite length_append in Hs.
      destruct q; [discriminate|]. simpl in Hs |- *. lia.
    + eapply line_final_suffix; exact Hsp.
    + eapply line_final_suffix; exact Hsq.
  - pose proof (line_final_tail _ _ _ Hsp) as Hsp'.
    pose proof (line_final_tail _ _ _ Hsq) as Hsq'.
    rewrite (scan_nomatch _ _ _ Hmp), (scan_nomatch _ _ _ Hmq).
    rewrite !scan_nomatch.
    + f_equal. apply (IH (String.length s)); [simpl; lia | reflexivity | exact Hsp' | exact Hsq'].
    + rewrite prefix_after_scan; auto.
    + rewrite prefix_after_scan; auto.
Qed.

(** ** Running programs *)

Lemma run_bind env {A B : Type} (p : js A) (f : A -> js B) (w : world env) :
  run env (bind p f) w =
  match run env p w with
  | (t1, Normal a, w1) =>
      let '(t2, o, w2) := run env (f a) w1 in ((t1 ++ t2)%list, o, w2)
  | (t1, Thrown e, w1) => (t1, Thrown e, w1)
  | (t1, Exited status, w1) => (t1, Exited status, w1)
  end.
Proof.
  revert B f w.
  induction p as [A a|A out line k IH|A X c k IH|A e|A status|A body _ handler _ k IH];
    intros B f w; cbn [bind run].
  - destruct (run env (f a) w) as [[t o] w']. reflexivity.
  - rewrite IH. destruct (run env k w) as [[t1 [a|e|n]] w1]; try reflexivity.
    destruct (run env (f a) w1) as [[t2 o] w2]. reflexivity.
  - destruct (respond env X c w) as [[x|e] w1]; [|reflexivity].
    rewrite IH. destruct (run env (k x) w1) as [[t1 [a|e|n]] w2]; try reflexivity.
    destruct (run env (f a) w2) as [[t2 o] w3]. reflexivity.
  - reflexivity.
  - reflexivity.
  - destruct (run env body w) as [[t1 [[]|e|n]] w1]; [| |reflexivity].
    + rewrite IH. destruct (run env k w1) as [[t2 [a|e|n]] w2]; try reflexivity.
      destruct (run env (f a) w2) as [[t3 o] w3]. now rewrite app_assoc.
    + destruct (run env (handler e) w1) as [[t2 [[]|e'|n]] w2]; try reflexivity.
      rewrite IH. destruct (run env k w2) as [[t3 [a|e'|n]] w3]; try reflexivity.
      destruct (run env (f a) w3) as [[t4 o] w4]. now rewrite !app_assoc.
Qed.

Lemma run_bind_normal env {A B : Type} (p : js A) (f : A -> js B) w t b w' :
  run env (bind p f) w = (t, Normal b, w') ->
  exists t1 a w1 t2,
    run env p w = (t1, Normal a, w1) /\ run env (f a) w1 = (t2, Normal b, w') /\
    t = (t1 ++ t2)%list.
Proof.
  rewrite run_bind. destruct (run env p w) as [[t1 [a|e|n]] w1]; try discriminate.
  destruct (run env (f a) w1) as [[t2 o] w2] eqn:E. intros H. injection H as <- -> <-.
  now exists t1, a, w1, t2.
Qed.

Lemma run_printsOnly env {A : Type} (p : js A) lines (w : world env) :
  printsOnly p = Some lines ->
  exists a, run env p w = (map (fun l => Printed (fst l) (snd l)) lines, Normal a, w).
Proof.
  revert lines.
  induction p as [A a|A out line k IH|A X c k IH|A e|A status|A body _ handler _ k IH];
    intros lines H; cbn [printsOnly] in H; try discriminate H.
  - injection H as <-. now exists a.
  - destruct (printsOnly k) as [l|]; [|discriminate H]. injection H as <-.
    destruct (IH l eq_refl) as [a Ha]. exists a. cbn [run map fst snd].
    now rewrite Ha.
Qed.

(** ** [buildAndClean]: concatenation *)

Lemma concat_empty_cons x xs :
  String.concat "" (x :: xs) = x ++ String.concat "" xs.
Proof. destruct xs; cbn [String.concat]; [now rewrite append_nil_r | reflexivity]. Qed.

Section Assembly.

Variable env : Env.
Variable files : string -> option string.
Hypothesis Hreads : readsFrom env files.

Lemma appendPart_resolved buffer p data (w : world env) :
  resolved files p = Some data ->
  exists t w',
    run env (appendPart buffer p) w = (t, Normal (buffer ++ data ++ nl), w') /\
    existsb isWrite t = false.
Proof.
  unfold resolved, appendPart. intros H.
  destruct (populated (path p)) as [filePath|].
  - specialize (Hreads filePath w). rewrite H in Hreads.
    cbn [bind fs run]. 
    destruct (respond env string (readFileSync filePath) w) as [r w1].
    cbn [fst] in Hreads. subst r. cbn.
    exists [Called (readFileSync filePath) (inl data)], w1.
    now rewrite append_assoc.
  - destruct (populated (content p)) as [literal|]; injection H as <-; cbn.
    + exists [], w. now rewrite append_assoc.
    + exists [], w. easy.
Qed.

Lemma appendPart_unreadable buffer p (w : world env) :
  unreadable files p ->
  exists t e w',
    run env (appendPart buffer p) w = (t, Thrown e, w') /\
    existsb isWrite t = false.
Proof.
  intros (filePath & Hp & Hnone). unfold appendPart. rewrite Hp.
  specialize (Hreads filePath w). rewrite Hnone in Hreads.
  destruct Hreads as [e He]. cbn [bind fs run].
  destruct (respond env string (readFileSync filePath) w) as [r w1].
  cbn [fst] in He. subst r.
  exists [Called (readFileSync filePath) (inr e)], e, w1. easy.
Qed.

Lemma resolved_or_unreadable p :
  (exists data, resolved files p = Some data) \/ unreadable files p.
Proof.
  unfold resolved, unreadable.
  destruct (populated (path p)) as [filePath|].
  - destruct (files filePath) as [data|] eqn:E; [left|right]; eauto.
  - left. destruct (populated (content p)); eauto.
Qed.

Lemma concatParts_resolved parts texts :
  Forall2 (fun p data => resolved files p = Some data) parts texts ->
  forall buffer (w : world env),
  exists t w',
    run env (concatParts parts buffer) w
    = (t, Normal (buffer ++ assembled texts), w') /\
    existsb isWrite t = false.
Proof.
  induction 1 as [|p data parts texts Hp _ IH]; intros buffer w.
  - exists [], w. cbn. now rewrite append_nil_r.
  - cbn [concatParts]. rewrite run_bind.
    destruct (appendPart_resolved buffer p data w Hp) as (t1 & w1 & -> & Ht1).
    destruct (IH (buffer ++ data ++ nl) w1) as (t2 & w2 & -> & Ht2).
    exists (t1 ++ t2)%list, w2. split.
    + do 2 f_equal. unfold assembled. cbn [map].
      now rewrite concat_empty_cons, !append_assoc.
    + rewrite existsb_app, Ht1, Ht2. reflexivity.
Qed.

Lemma concatParts_unreadable parts :
  Exists (unreadable files) parts ->
  forall buffer (w : world env),
  exists t e w',
    run env (concatParts parts buffer) w = (t, Thrown e, w') /\
    existsb isWrite t = false.
Proof.
  induction parts as [|p parts IH]; intros Hex buffer w.
  - inversion Hex.
  - cbn [concatParts]. rewrite run_bind.
    destruct (resolved_or_unreadable p) as [[data Hp]|Hp].
    + destruct (appendPart_resolved buffer p data w Hp) as (t1 & w1 & -> & Ht1).
      assert (Exists (unreadable files) parts) as Hrest.
      { inversion Hex as [? ? (fp & Hfp & Hnone)|]; subst; [|assumption].
        unfold resolved in Hp. rewrite Hfp in Hp. congruence. }
      destruct (IH Hrest (buffer ++ data ++ nl) w1) as (t2 & e & w2 & -> & Ht2).
      exists (t1 ++ t2)%list, e, w2. split; [reflexivity|].
      rewrite existsb_app, Ht1, Ht2. reflexivity.
    + destruct (appendPart_unreadable buffer p w Hp) as (t1 & e & w1 & -> & Ht1).
      exists t1, e, w1. easy.
Qed.

End Assembly.

(** ** Argument parsing *)

Lemma includes_In l x : includes l x = true <-> In x l.
Proof.
  unfold includes. rewrite existsb_exists. split.
  - intros (y & Hy & E). apply String.eqb_eq in E. now subst.
  - intros H. exists x. split; [exact H | apply String.eqb_refl].
Qed.

Lemma includes_options userArgs flag :
  startsWith flag "-" = true ->
  includes (options userArgs) flag = includes userArgs flag.
Proof.
  intros Hf. unfold options, includes.
  induction userArgs as [|a userArgs IH]; [reflexivity|].
  cbn [filter existsb]. destruct (startsWith a "-") eqn:Ha.
  - cbn [existsb]. now rewrite IH.
  - rewrite IH. destruct (String.eqb_spec flag a) as [->|]; [congruence|reflexivity].
Qed.

Lemma lowerChar_idem c : lowerChar (lowerChar c) = lowerChar c.
Proof. destruct c as [[] [] [] [] [] [] [] []]; reflexivity. Qed.

Lemma lowerChar_hyphen c : Ascii.eqb (lowerChar c) "-" = Ascii.eqb c "-".
Proof. destruct c as [[] [] [] [] [] [] [] []]; reflexivity. Qed.

Lemma lowerChar_ascii c :
  (nat_of_ascii (lowerChar c) <? 128)%nat = (nat_of_ascii c <? 128)%nat.
Proof. destruct c as [[] [] [] [] [] [] [] []]; reflexivity. Qed.

Lemma asciiLowerCase_idem s : asciiLowerCase (asciiLowerCase s) = asciiLowerCase s.
Proof.
  unfold asciiLowerCase. induction s as [|c s IH]; [reflexivity|].
  cbn [mapChars]. now rewrite lowerChar_idem, IH.
Qed.

Lemma startsWith_hyphen c s : startsWith (String c s) "-" = Ascii.eqb c "-".
Proof.
  unfold startsWith. rewrite prefix_cons, prefix_nil_l, andb_true_r.
  apply Ascii.eqb_sym.
Qed.

Lemma startsWith_asciiLowerCase s :
  startsWith (asciiLowerCase s) "-" = startsWith s "-".
Proof.
  destruct s as [|c s]; [reflexivity|]. unfold asciiLowerCase. cbn [mapChars].
  rewrite !startsWith_hyphen. apply lowerChar_hyphen.
Qed.

Lemma isEmpty_asciiLowerCase s : isEmpty (asciiLowerCase s) = isEmpty s.
Proof. now destruct s. Qed.

Lemma asciiOnly_asciiLowerCase s : asciiOnly (asciiLowerCase s) = asciiOnly s.
Proof.
  unfold asciiLowerCase. induction s as [|c s IH]; [reflexivity|].
  cbn [mapChars asciiOnly]. now rewrite lowerChar_ascii, IH.
Qed.

(** On ASCII text [toLowerCase] is the same in every runtime. *)
Lemma toLowerCase_ascii {rt : Runtime} s :
  asciiOnly s = true -> toLowerCase s = asciiLowerCase s.
Proof. intros H. unfold toLowerCase. now rewrite H. Qed.

Lemma toLowerCase_asciiRuntime s : @toLowerCase asciiRuntime s = asciiLowerCase s.
Proof. unfold toLowerCase. now destruct (asciiOnly s). Qed.

Lemma asciiRuntime_conforming : conforming asciiRuntime.
Proof.
  split; intros s; rewrite ?toLowerCase_asciiRuntime.
  - apply asciiLowerCase_idem.
  - apply startsWith_asciiLowerCase.
  - apply isEmpty_asciiLowerCase.
Qed.

(** What the argument parsing needs of the lower-casing of one word: it
    holds of every ASCII word, and of every word in a conforming runtime. *)
Lemma lower_laws {rt : Runtime} w :
  asciiOnly w = true \/ conforming rt ->
  toLowerCase (toLowerCase w) = toLowerCase w /\
  startsWith (toLowerCase w) "-" = startsWith w "-" /\
  isEmpty (toLowerCase w) = isEmpty w.
Proof.
  intros [Hw|Hrt].
  - rewrite (toLowerCase_ascii w Hw).
    rewrite (toLowerCase_ascii (asciiLowerCase w)) by now rewrite asciiOnly_asciiLowerCase.
    repeat split.
    + apply asciiLowerCase_idem.
    + apply startsWith_asciiLowerCase.
    + apply isEmpty_asciiLowerCase.
  - repeat split; [apply lower_idem | apply lower_hyphen | apply lower_empty]; exact Hrt.
Qed.

Lemma options_replace pre post w w' :
  startsWith w "-" = false -> startsWith w' "-" = false ->
  options (pre ++ w :: post) = options (pre ++ w' :: post).
Proof.
  intros Hw Hw'. unfold options. rewrite !filter_app. cbn [filter].
  now rewrite Hw, Hw'.
Qed.

Lemma primaryCommand_lower {rt : Runtime} pre post w :
  asciiOnly w = true \/ conforming rt ->
  startsWith w "-" = false ->
  primaryCommand (pre ++ w :: post) = primaryCommand (pre ++ toLowerCase w :: post).
Proof.
  intros Hlaws Hw. destruct (lower_laws w Hlaws) as (Hidem & Hhyphen & Hempty).
  unfold primaryCommand.
  induction pre as [|a pre IH]; cbn [app find].
  - rewrite Hhyphen, Hw. cbn [negb].
    unfold orElse, populated. rewrite Hempty.
    destruct (isEmpty w); [reflexivity|]. now rewrite Hidem.
  - destruct (negb (startsWith a "-")); [reflexivity | exact IH].
Qed.

(** ** The minification step *)

Lemma minifyTry_fails env :
  minifierFails env ->
  forall w : world env,
  exists t e w',
    run env Browser.minifyTry w = (t, Thrown e, w') /\ existsb isWrite t = false.
Proof.
  intros Hfail w. unfold Browser.minifyTry. cbn [bind fs run].
  destruct (respond env string (readFileSync Browser.targetFile) w) as [[source|e] w1].
  - specialize (Hfail source w1).
    destruct (respond env minified (minify source) w1) as [[m|e] w2]; cbn [fst] in Hfail.
    + destruct (error m) as [e|]; [|congruence]. cbn.
      eexists _, e, w2. split; reflexivity.
    + eexists _, e, w2. split; reflexivity.
  - eexists _, e, w1. split; reflexivity.
Qed.

Lemma fixture_readsFrom files minifier : readsFrom (fixture files minifier) files.
Proof.
  intros p w. cbn. destruct (files p) as [data|]; [reflexivity|].
  now exists (ENOENT p).
Qed.

Lemma fixture_brokenMinifier files : minifierFails (fixture files brokenMinifier).
Proof. intros source w. cbn. discriminate. Qed.

(** ** Programs that abort before writing *)

Lemma aborts_print env {A : Type} out line (k : js A) :
  aborts env k -> aborts env (Print out line k).
Proof.
  intros Hk w. destruct (Hk w) as (t & e & w' & Hrun & Ht).
  exists (Printed out line :: t), e, w'. cbn [run]. rewrite Hrun. easy.
Qed.

Lemma aborts_call env {A X : Type} (c : call X) (k : X -> js A) :
  (forall r, isWrite (Called c r) = false) ->
  (forall x, aborts env (k x)) -> aborts env (Call c k).
Proof.
  intros Hc Hk w. cbn [run].
  destruct (respond env X c w) as [[x|e] w1].
  - destruct (Hk x w1) as (t & e & w' & Hrun & Ht).
    exists (Called c (inl x) :: t), e, w'. rewrite Hrun. split; [reflexivity|].
    cbn [existsb]. now rewrite Hc, Ht.
  - exists [Called c (inr e)], e, w1. split; [reflexivity|].
    cbn [existsb]. now rewrite Hc.
Qed.

Lemma aborts_bind env {A B : Type} (p : js A) (f : A -> js B) :
  aborts env p -> aborts env (bind p f).
Proof.
  intros Hp w. destruct (Hp w) as (t & e & w' & Hrun & Ht).
  exists t, e, w'. rewrite run_bind, Hrun. easy.
Qed.

Lemma aborts_exit_status env {A : Type} (p : js A) (w : world env) :
  aborts env p ->
  existsb isWrite (trace env p w) = false /\ exitStatus (result env p w) = 1%Z.
Proof.
  intros Hp. destruct (Hp w) as (t & e & w' & Hrun & Ht).
  unfold trace, result. rewrite Hrun. easy.
Qed.

Lemma buildAndClean_aborts env files targetFile parts replacements :
  readsFrom env files -> Exists (unreadable files) parts ->
  aborts env (buildAndClean targetFile parts replacements).
Proof.
  intros Hreads Hex w. unfold buildAndClean.
  destruct (concatParts_unreadable env files Hreads parts Hex "" w)
    as (t & e & w' & Hrun & Ht).
  exists t, e, w'. rewrite run_bind, Hrun. easy.
Qed.

(** One step towards [aborts]: through a print, a call that is not a
    write, or a conditional on what a call returned. *)
Ltac abort_step :=
  cbn [bind fs console_log];
  lazymatch goal with
  | |- aborts _ (Print _ _ _) => apply aborts_print
  | |- aborts _ (Call _ _) => apply aborts_call; [intros r; reflexivity | intros ?]
  | |- context [if ?b then _ else _] => is_var b; destruct b
  | |- aborts _ (bind _ _) => apply aborts_bind
  end.

Lemma runBrowser_aborts env files :
  readsFrom env files -> Exists (unreadable files) Browser.parts ->
  aborts env runBrowser.
Proof.
  intros Hreads Hex. unfold runBrowser, Browser.bundle.
  repeat abort_step.
  all: eapply buildAndClean_aborts; eassumption.
Qed.

Lemma runCommonJS_aborts env files :
  readsFrom env files -> Exists (unreadable files) CommonJS.parts ->
  aborts env runCommonJS.
Proof.
  intros Hreads Hex. unfold runCommonJS.
  repeat abort_step.
  all: eapply buildAndClean_aborts; eassumption.
Qed.

(** ** Programs that leave one file alone *)

Section Sparing.

Variable env : Env.
Variable target : string.

Lemma passes_ret {A : Type} (a : A) : passes env target (Ret a).
Proof. intros w. split; [reflexivity | discriminate]. Qed.

Lemma passes_print {A : Type} out line (k : js A) :
  passes env target k -> passes env target (Print out line k).
Proof.
  intros Hk w. specialize (Hk w). unfold trace, result in *. cbn [run].
  destruct (run env k w) as [[t o] w']. exact Hk.
Qed.

Lemma passes_call {A X : Type} (c : call X) (k : X -> js A) :
  (forall r, isWriteTo target (Called c r) = false) ->
  (forall x, passes env target (k x)) -> passes env target (Call c k).
Proof.
  intros Hc Hk w. unfold trace, result. cbn [run].
  destruct (respond env X c w) as [[x|e] w1].
  - specialize (Hk x w1). unfold trace, result in Hk.
    destruct (run env (k x) w1) as [[t o] w']. cbn [fst snd existsb] in *.
    now rewrite Hc.
  - cbn [fst snd existsb]. rewrite Hc. split; [reflexivity | discriminate].
Qed.

Lemma passes_bind {A B : Type} (p : js A) (f : A -> js B) :
  passes env target p -> (forall a, passes env target (f a)) ->
  passes env target (bind p f).
Proof.
  intros Hp Hf w. specialize (Hp w). unfold trace, result in *.
  rewrite run_bind.
  destruct (run env p w) as [[t1 [a|e|n]] w1]; cbn [fst snd] in *.
  - specialize (Hf a w1). unfold trace, result in Hf.
    destruct (run env (f a) w1) as [[t2 o] w2]. cbn [fst snd] in *.
    rewrite existsb_app. destruct Hp as [-> _]. exact Hf.
  - split; [apply Hp | discriminate].
  - destruct Hp as [_ Hp]. now contradiction (Hp n).
Qed.

Lemma passes_try {A : Type} body handler (k : js A) :
  passes env target body -> (forall e, passes env target (handler e)) ->
  passes env target k -> passes env target (TryCatch body handler k).
Proof.
  intros Hb Hh Hk w. specialize (Hb w). unfold trace, result in *. cbn [run].
  destruct (run env body w) as [[t1 [[]|e|n]] w1]; cbn [fst snd] in *.
  - specialize (Hk w1). unfold trace, result in Hk.
    destruct (run env k w1) as [[t o] w']. cbn [fst snd] in *.
    rewrite existsb_app. destruct Hb as [-> _]. exact Hk.
  - specialize (Hh e w1). unfold trace, result in Hh.
    destruct (run env (handler e) w1) as [[t2 [[]|e'|n]] w2]; cbn [fst snd] in *.
    + specialize (Hk w2). unfold trace, result in Hk.
      destruct (run env k w2) as [[t o] w']. cbn [fst snd] in *.
      rewrite !existsb_app. destruct Hb as [-> _]. destruct Hh as [-> _]. exact Hk.
    + rewrite existsb_app. destruct Hb as [-> _]. destruct Hh as [-> _].
      split; [reflexivity | discriminate].
    + destruct Hh as [_ Hh]. now contradiction (Hh n).
  - destruct Hb as [_ Hb]. now contradiction (Hb n).
Qed.

Lemma passes_forEach {X : Type} (xs : list X) (f : X -> js unit) :
  (forall x, In x xs -> passes env target (f x)) ->
  passes env target (forEach xs f).
Proof.
  induction xs as [|x xs IH]; intros Hf; cbn [forEach].
  - apply passes_ret.
  - apply passes_bind; [apply Hf; now left|].
    intros _. apply IH. intros y Hy. apply Hf. now right.
Qed.

Lemma fails_print {A : Type} out line (k : js A) :
  failsSparing env target k -> failsSparing env target (Print out line k).
Proof.
  intros Hk w. specialize (Hk w). unfold trace, result in *. cbn [run].
  destruct (run env k w) as [[t o] w']. exact Hk.
Qed.

Lemma fails_call {A X : Type} (c : call X) (k : X -> js A) :
  (forall r, isWriteTo target (Called c r) = false) ->
  (forall x, failsSparing env target (k x)) -> failsSparing env target (Call c k).
Proof.
  intros Hc Hk w. unfold trace, result. cbn [run].
  destruct (respond env X c w) as [[x|e] w1].
  - specialize (Hk x w1). unfold trace, result in Hk.
    destruct (run env (k x) w1) as [[t o] w']. cbn [fst snd existsb] in *.
    now rewrite Hc.
  - cbn [fst snd existsb]. rewrite Hc. split; [reflexivity | now exists e].
Qed.

Lemma fails_bind {A B : Type} (p : js A) (f : A -> js B) :
  failsSparing env target p -> failsSparing env target (bind p f).
Proof.
  intros Hp w. specialize (Hp w). unfold trace, result in *. rewrite run_bind.
  destruct (run env p w) as [[t1 o] w1]. cbn [fst snd] in *.
  destruct Hp as [Ht [e ->]]. cbn [fst snd]. split; [exact Ht | now exists e].
Qed.

Lemma fails_after {A B : Type} (p : js A) (f : A -> js B) :
  passes env target p -> (forall a, failsSparing env target (f a)) ->
  failsSparing env target (bind p f).
Proof.
  intros Hp Hf w. specialize (Hp w). unfold trace, result in *.
  rewrite run_bind.
  destruct (run env p w) as [[t1 [a|e|n]] w1]; cbn [fst snd] in *.
  - specialize (Hf a w1). unfold trace, result in Hf.
    destruct (run env (f a) w1) as [[t2 o] w2]. cbn [fst snd] in *.
    rewrite existsb_app. destruct Hp as [-> _]. exact Hf.
  - split; [apply Hp | now exists e].
  - destruct Hp as [_ Hp]. now contradiction (Hp n).
Qed.

Lemma fails_after_try {A : Type} body handler (k : js A) :
  passes env target body -> (forall e, passes env target (handler e)) ->
  failsSparing env target k -> failsSparing env target (TryCatch body handler k).
Proof.
  intros Hb Hh Hk.
  assert (passes env target (TryCatch body handler (Ret tt))) as Htry
    by (apply passes_try; [assumption | assumption | apply passes_ret]).
  change (TryCatch body handler k)
    with (bind (TryCatch body handler (Ret tt)) (fun _ => k)).
  apply fails_after; [exact Htry | intros _; exact Hk].
Qed.

Lemma fails_in_forEach {X : Type} (dec : forall x y : X, {x = y} + {x <> y})
    (xs : list X) (f : X -> js unit) (bad : X) {B : Type} (g : unit -> js B) :
  In bad xs -> failsSparing env target (f bad) ->
  (forall x, In x xs -> x <> bad -> passes env target (f x)) ->
  failsSparing env target (bind (forEach xs f) g).
Proof.
  intros Hin Hbad Hothers. apply fails_bind.
  induction xs as [|x xs IH]; [contradiction|]. cbn [forEach].
  assert (x = bad \/ (x <> bad /\ In bad xs)) as [->|[Hne Hin']].
  { destruct Hin as [->|Hin]; [now left|].
    destruct (dec x bad) as [->|Hne]; [now left | right; split; assumption]. }
  - apply fails_bind. exact Hbad.
  - apply fails_after.
    + apply Hothers; [now left | exact Hne].
    + intros _. apply IH; [exact Hin'|].
      intros y Hy. apply Hothers. now right.
Qed.

Lemma aborts_failsSparing {A : Type} (p : js A) :
  aborts env p -> failsSparing env target p.
Proof.
  intros Hp w. destruct (Hp w) as (t & e & w' & Hrun & Ht).
  unfold trace, result. rewrite Hrun. cbn [fst snd].
  split; [|now exists e].
  clear Hrun. induction t as [|o t IH]; [reflexivity|].
  cbn [existsb] in *. apply orb_false_elim in Ht as [Ho Ht].
  rewrite IH by exact Ht. rewrite orb_false_r.
  destruct o as [|X c r]; [reflexivity|]. destruct c; try reflexivity. discriminate.
Qed.

End Sparing.

Lemma eqb_append_l a x y : String.eqb (a ++ x) (a ++ y) = String.eqb x y.
Proof.
  induction a as [|c a IH]; [reflexivity|].
  cbn [append String.eqb]. now rewrite Ascii.eqb_refl.
Qed.

Lemma concatParts_passes env target parts buffer :
  passes env target (concatParts parts buffer).
Proof.
  revert buffer. induction parts as [|p parts IH]; intros buffer; cbn [concatParts].
  - apply passes_ret.
  - apply passes_bind; [|intros buffer'; apply IH].
    unfold appendPart. apply passes_bind; [|intros buffer'; apply passes_ret].
    destruct (populated (path p)) as [filePath|].
    + cbn [bind fs]. apply passes_call; [reflexivity|]. intros data. apply passes_ret.
    + destruct (populated (content p)); apply passes_ret.
Qed.

Lemma buildAndClean_passes env target targetFile parts replacements :
  String.eqb targetFile target = false ->
  passes env target (buildAndClean targetFile parts replacements).
Proof.
  intros Hne. unfold buildAndClean.
  apply passes_bind; [apply concatParts_passes|]. intros buffer.
  cbn [bind fs]. apply passes_call; [intros r; exact Hne|].
  intros []. apply passes_ret.
Qed.

(** One step towards [passes]. *)
Ltac pass_step :=
  cbn [bind fs console_log console_error];
  lazymatch goal with
  | |- passes _ _ (Ret _) => apply passes_ret
  | |- passes _ _ (fs _) => unfold fs
  | |- passes _ _ (console_log _) => unfold console_log
  | |- passes _ _ (console_error _) => unfold console_error
  | |- passes _ _ (Throw _) => intros ?; split; [reflexivity | discriminate]
  | |- passes _ _ (Print _ _ _) => apply passes_print
  | |- passes _ _ (Call _ _) => apply passes_call; [intros ?; assumption || reflexivity | intros ?]
  | |- passes _ _ (TryCatch _ _ _) => apply passes_try; [ | intros ? | ]
  | |- context [if ?b then _ else _] => is_var b; destruct b
  | |- context [match error ?m with _ => _ end] => destruct (error m)
  | |- passes _ _ (bind (buildAndClean _ _ _) _) =>
      apply passes_bind; [apply buildAndClean_passes; assumption | intros ?]
  end.

Lemma bundle_passes env target :
  String.eqb Browser.targetFile target = false -> passes env target Browser.bundle.
Proof. intros Hne. unfold Browser.bundle. repeat pass_step. Qed.

Lemma minification_passes env target :
  String.eqb Browser.minFile target = false -> passes env target Browser.minification.
Proof.
  intros Hne. unfold Browser.minification, Browser.minifyTry, Browser.minifyCatch.
  repeat pass_step.
Qed.

Lemma wrapTestScript_aborts env files script :
  readsFrom env files -> files ("test/" ++ script) = None ->
  aborts env (Browser.wrapTestScript script).
Proof.
  intros Hreads Hnone. unfold Browser.wrapTestScript.
  apply aborts_bind. eapply buildAndClean_aborts; [exact Hreads|].
  unfold Browser.testParts. apply Exists_cons_tl, Exists_cons_hd.
  exists ("test/" ++ script). split; [reflexivity | exact Hnone].
Qed.

Lemma runBrowser_spares_failing_test env files script :
  readsFrom env files ->
  In script Browser.testScripts -> files ("test/" ++ script) = None ->
  failsSparing env (path_join Browser.testDir script) runBrowser.
Proof.
  intros Hreads Hin Hnone. unfold runBrowser. cbn [bind console_log].
  apply fails_print.
  apply fails_after; [apply bundle_passes; reflexivity | intros _].
  apply fails_after; [apply minification_passes; reflexivity | intros _].
  unfold Browser.hostTests. cbn [bind fs].
  apply fails_call; [reflexivity | intros _].
  apply fails_call; [reflexivity | intros _].
  apply (fails_in_forEach env _ string_dec _ _ script); [exact Hin | |].
  - apply aborts_failsSparing. eapply wrapTestScript_aborts; eassumption.
  - intros other _ Hne. unfold Browser.wrapTestScript.
    apply passes_bind; [|intros _; apply passes_ret].
    apply buildAndClean_passes. unfold path_join.
    rewrite !eqb_append_l. now apply String.eqb_neq.
Qed.

(** * The properties *)

(** C1, as stated, does not hold: with the unknown target [frobnicate] and
    no help flag the script prints its error and the help and then ends
    normally, so the exit status is 0 and not 1. *)
Lemma unknown_command_exit_status :
  hasHelpFlag ["frobnicate"] = false /\
  includes recognizedTargets (@primaryCommand asciiRuntime ["frobnicate"]) = false /\
  exitStatus (result (fixture stubFiles identityMinifier) (@main asciiRuntime ["frobnicate"]) tt) <> 1%Z.
Proof.
  split; [reflexivity|]. split; [reflexivity|]. vm_compute. discriminate.
Qed.

(** C1, amended: when the arguments hold no help flag and the lower-cased
    command word is missing or is not a recognized target, the script
    prints one error line on the error stream, then the brief help, does
    nothing else, and the process ends with exit status 0. *)
Theorem usage_error_reported {rt : Runtime} (userArgs : list string) :
  hasHelpFlag userArgs = false ->
  includes recognizedTargets (primaryCommand userArgs) = false ->
  printsOnly (main userArgs)
  = Some ((stderr, usageError (primaryCommand userArgs))
          :: map (pair stdout) (helpLines false)) /\
  forall env (w : world env),
    run env (main userArgs) w
    = (Printed stderr (usageError (primaryCommand userArgs))
         :: map (Printed stdout) (helpLines false), Normal tt, w) /\
    exitStatus (result env (main userArgs) w) = 0%Z.
Proof.
  intros Hflag Hcmd.
  assert (main userArgs
          = (console_error (usageError (primaryCommand userArgs)) ;; showHelp false))
    as Hmain.
  { unfold main.
    assert (forall flag, In flag helpFlags -> includes (options userArgs) flag = false)
      as Hno.
    { intros flag Hin.
      rewrite includes_options
        by (destruct Hin as [<-|[<-|[<-|[]]]]; reflexivity).
      destruct (includes userArgs flag) eqn:E; [|reflexivity].
      apply includes_In in E. unfold hasHelpFlag in Hflag.
      assert (existsb (includes helpFlags) userArgs = true) as Habs; [|congruence].
      apply existsb_exists. exists flag. split; [exact E|]. now apply includes_In. }
    rewrite !Hno by (cbn; tauto). cbn [orb].
    unfold usageError. destruct (primaryCommand userArgs =? "") eqn:E; [reflexivity|].
    unfold dispatch. unfold includes, recognizedTargets in Hcmd. cbn [existsb] in Hcmd.
    repeat (apply orb_false_elim in Hcmd as [?H Hcmd]).
    repeat match goal with H : (_ =? _) = false |- _ => rewrite H; clear H end.
    reflexivity. }
  assert (printsOnly (main userArgs)
          = Some ((stderr, usageError (primaryCommand userArgs))
                  :: map (pair stdout) (helpLines false))) as Hprints.
  { rewrite Hmain. reflexivity. }
  split; [exact Hprints|]. intros env w.
  destruct (run_printsOnly env _ _ w Hprints) as [[] Hrun].
  unfold result. rewrite Hrun. split; [|reflexivity].
  cbn [map fst snd]. rewrite map_map. reflexivity.
Qed.

Lemma usage_error_reported_witness :
  hasHelpFlag ["-v"; "Frobnicate"] = false /\
  includes recognizedTargets (@primaryCommand asciiRuntime ["-v"; "Frobnicate"]) = false /\
  exitStatus (result (fixture stubFiles identityMinifier) (@main asciiRuntime ["-v"; "Frobnicate"]) tt)
  = 0%Z.
Proof.
  split; [reflexivity|]. split; [reflexivity|].
  apply (usage_error_reported (rt := asciiRuntime) ["-v"; "Frobnicate"]); reflexivity.
Defined.

(** *** The pass cuts the buffer at the leftmost occurrences *)

Lemma prefix_app_true m u v : prefix m u = true -> prefix m (u ++ v) = true.
Proof.
  intros H. rewrite (prefix_split _ _ H), append_assoc. apply prefix_append.
Qed.

Lemma occurrences_self m : isEmpty m = false -> occurrences m m = 1.
Proof.
  destruct m as [|a m]; [discriminate|]. intros _. cbn [occurrences].
  rewrite <- (append_nil_r (String a m)) at 2. rewrite prefix_append.
  rewrite occurrences_longer; [reflexivity | simpl; lia].
Qed.

Lemma occurrences_app_ge m u v :
  isEmpty m = false ->
  occurrences m u + occurrences m v <= occurrences m (u ++ v).
Proof.
  intros Hm. induction u as [|c u IH].
  - cbn [occurrences append]. destruct m; [discriminate | simpl; lia].
  - change (String c u ++ v) with (String c (u ++ v)). cbn [occurrences].
    change (String c (u ++ v)) with (String c u ++ v).
    destruct (prefix m (String c u)) eqn:E.
    + rewrite (prefix_app_true _ _ v E). lia.
    + destruct (prefix m (String c u ++ v)); lia.
Qed.

Lemma occurrences_at_end m q : isEmpty m = false -> 1 <= occurrences m (q ++ m).
Proof.
  intros Hm. pose proof (occurrences_app_ge m q m Hm) as H.
  rewrite (occurrences_self m Hm) in H. lia.
Qed.

Lemma joined_length m pieces last :
  String.length (joined "" pieces last) + length pieces * String.length m
  = String.length (joined m pieces last).
Proof.
  induction pieces as [|p pieces IH]; [simpl; lia|].
  cbn [joined length]. rewrite !length_append. cbn [String.length]. lia.
Qed.

Lemma joined_occurrences m pieces last :
  isEmpty m = false ->
  Forall (fun piece => occurrences m (piece ++ m) = 1) pieces ->
  length pieces <= occurrences m (joined m pieces last).
Proof.
  intros Hm Hall. induction Hall as [|p pieces Hp _ IH]; [simpl; lia|].
  cbn [joined length]. rewrite <- append_assoc.
  pose proof (occurrences_app_ge m (p ++ m) (joined m pieces last) Hm). lia.
Qed.

(** The pass of the global replace cuts the text at the leftmost
    occurrences of the pattern and puts the pieces together. *)
Lemma scan_leftmost m s :
  isEmpty m = false ->
  exists pieces last,
    s = joined m pieces last /\
    scan m s = joined "" pieces last /\
    leftmost m pieces last.
Proof.
  intros Hm.
  apply (scan_ind m (fun s => exists pieces last,
                         s = joined m pieces last /\
                         scan m s = joined "" pieces last /\
                         leftmost m pieces last)); [exact Hm | | |].
  - exists [], "". repeat split; [constructor|].
    destruct m; [discriminate | reflexivity].
  - intros t (pieces & last & Ht & Hscan & Hall & Hlast).
    exists ("" :: pieces), last. rewrite (scan_match _ _ Hm). cbn [joined append].
    repeat split; [congruence | exact Hscan | | exact Hlast].
    constructor; [|exact Hall]. now apply occurrences_self.
  - intros c t Hp (pieces & last & Ht & Hscan & Hall & Hlast).
    rewrite (scan_nomatch _ _ _ Hp). destruct pieces as [|p pieces].
    + exists [], (String c last). cbn [joined] in *. subst t.
      repeat split; [congruence | constructor|].
      cbn [occurrences]. now rewrite Hp, Hlast.
    + exists (String c p :: pieces), last. cbn [joined] in *.
      repeat split; [now rewrite Ht | now rewrite Hscan | | exact Hlast].
      inversion Hall as [|? ? Hhead Htail]; subst. constructor; [|exact Htail].
      change (String c p ++ m) with (String c (p ++ m)). cbn [occurrences].
      destruct (prefix m (String c (p ++ m))) eqn:E; [|now rewrite Hhead].
      apply (prefix_app_true _ _ (joined m pieces last)) in E.
      change (String c (p ++ m) ++ joined m pieces last)
        with (String c ((p ++ m) ++ joined m pieces last)) in E.
      rewrite append_assoc in E. congruence.
Qed.

Lemma append_cancel_l u v w0 : u ++ v = u ++ w0 -> v = w0.
Proof. induction u as [|c u IH]; simpl; [easy|]. intros H. injection H. exact IH. Qed.

Lemma occurs_before_end m c q r r' :
  isEmpty m = false ->
  String c (q ++ m ++ r) = m ++ r' ->
  2 <= occurrences m (String c (q ++ m)).
Proof.
  intros Hm Heq.
  assert (prefix m (String c (q ++ m)) = true) as E.
  { rewrite <- (prefix_append_long m (String c (q ++ m)) r).
    - replace (String c (q ++ m) ++ r) with (m ++ r'); [apply prefix_append|].
      rewrite <- Heq. cbn [append]. now rewrite append_assoc.
    - cbn [String.length]. rewrite length_append. lia. }
  cbn [occurrences]. rewrite E. pose proof (occurrences_at_end m q Hm). lia.
Qed.

(** Where the first occurrence of [m] ends is determined by the text. *)
Lemma first_piece_unique m p p' r r' :
  isEmpty m = false ->
  p ++ m ++ r = p' ++ m ++ r' ->
  occurrences m (p ++ m) = 1 -> occurrences m (p' ++ m) = 1 ->
  p = p'.
Proof.
  intros Hm. revert p'. induction p as [|c p IH]; intros [|c' p'] Heq Hp Hp'.
  - reflexivity.
  - exfalso. cbn [append] in Heq. symmetry in Heq.
    pose proof (occurs_before_end m c' p' r' r Hm Heq) as H.
    change (String c' p' ++ m) with (String c' (p' ++ m)) in Hp'. lia.
  - exfalso. cbn [append] in Heq.
    pose proof (occurs_before_end m c p r r' Hm Heq) as H.
    change (String c p ++ m) with (String c (p ++ m)) in Hp. lia.
  - cbn [append] in Heq. injection Heq as -> Heq. f_equal.
    apply IH; [exact Heq | |].
    + change (String c' p ++ m) with (String c' (p ++ m)) in Hp.
      cbn [occurrences] in Hp. pose proof (occurrences_at_end m p Hm).
      destruct (prefix m (String c' (p ++ m))); lia.
    + change (String c' p' ++ m) with (String c' (p' ++ m)) in Hp'.
      cbn [occurrences] in Hp'. pose proof (occurrences_at_end m p' Hm).
      destruct (prefix m (String c' (p' ++ m))); lia.
Qed.

(** A text is cut at the leftmost occurrences in one way only. *)
Lemma leftmost_unique m pieces last pieces' last' :
  isEmpty m = false ->
  joined m pieces last = joined m pieces' last' ->
  leftmost m pieces last -> leftmost m pieces' last' ->
  pieces = pieces' /\ last = last'.
Proof.
  intros Hm. revert pieces'.
  induction pieces as [|p pieces IH]; intros [|p' pieces'] Heq [Hall Hlast] [Hall' Hlast'].
  - now split.
  - exfalso. cbn [joined] in Heq. subst last.
    inversion Hall' as [|? ? Hhead _]; subst.
    rewrite <- append_assoc in Hlast.
    pose proof (occurrences_app_ge m (p' ++ m) (joined m pieces' last') Hm). lia.
  - exfalso. cbn [joined] in Heq. subst last'.
    inversion Hall as [|? ? Hhead _]; subst.
    rewrite <- append_assoc in Hlast'.
    pose proof (occurrences_app_ge m (p ++ m) (joined m pieces last) Hm). lia.
  - cbn [joined] in Heq.
    inversion Hall as [|? ? Hhead Htail]; subst.
    inversion Hall' as [|? ? Hhead' Htail']; subst.
    assert (p = p') as <- by (eapply first_piece_unique; eassumption).
    apply append_cancel_l in Heq. apply append_cancel_l in Heq.
    destruct (IH pieces' Heq (conj Htail Hlast) (conj Htail' Hlast')) as [-> ->].
    now split.
Qed.

(** C2: marker removal is exhaustive and literal.  The assembler applies
    the step to the concatenated buffer, marker after marker, before the
    one write.  For every marker and every buffer the step is one pass of
    a literal global replace over the buffer.  When the marker is not empty, the buffer is cut at the
    occurrences of the marker found by searching from the left, each
    search starting where the previous occurrence ended: with [N] such
    occurrences the buffer is [N] pieces, each followed by the marker, and
    a last piece in which the marker does not occur; all [N] occurrences
    are deleted, wherever on a line they are, and the result is the
    pieces, unaltered and in order (so it is shorter by [N] times the
    length of the marker, and nothing that only looks like a part of the
    marker is touched).  The buffer can be cut in this way in one way
    only.  [N] is at most the number of positions at which the marker
    occurs, and it is that number for a marker that does not overlap
    itself, as both build markers; a position that overlaps a deleted
    occurrence does not start an occurrence of its own.  A marker that
    does not occur leaves the buffer unchanged, and so does the empty
    marker. *)
Theorem marker_removal_literal (marker buffer : string) :
  (forall (targetFile : string) (parts : list part),
      buildAndClean targetFile parts [marker]
      = (content <- concatParts parts "" ;;
         fs (writeFileSync targetFile (removeMarker marker content) None) ;;
         Ret undefined)) /\
  (forall (before after : list string) (content : string),
      removeMarkers before content = buffer ->
      removeMarkers (before ++ marker :: after) content
      = removeMarkers after (removeMarker marker buffer)) /\
  (occurrences marker buffer = 0 -> removeMarker marker buffer = buffer) /\
  (isEmpty marker = true -> removeMarker marker buffer = buffer) /\
  (isEmpty marker = false ->
   exists pieces last,
     buffer = joined marker pieces last /\
     leftmost marker pieces last /\
     removeMarker marker buffer = joined "" pieces last /\
     String.length (removeMarker marker buffer) + length pieces * String.length marker
     = String.length buffer /\
     length pieces <= occurrences marker buffer /\
     (self_overlap marker = false -> length pieces = occurrences marker buffer) /\
     forall pieces' last',
       buffer = joined marker pieces' last' -> leftmost marker pieces' last' ->
       pieces' = pieces /\ last' = last).
Proof.
  split; [reflexivity|].
  split; [intros before after content <-; unfold removeMarkers;
          now rewrite fold_left_app|].
  rewrite removeMarker_replaceGlobal.
  split; [apply replaceGlobal_absent|].
  split; [intros Hm; unfold replaceGlobal; now rewrite Hm|].
  intros Hm.
  destruct (scan_leftmost marker buffer Hm) as (pieces & last & Hbuf & Hscan & Hcut).
  pose proof (joined_length marker pieces last) as Hlen.
  exists pieces, last.
  assert (replaceGlobal marker buffer = joined "" pieces last) as Hres
    by (unfold replaceGlobal; now rewrite Hm).
  pose proof (joined_occurrences marker pieces last Hm (proj1 Hcut)) as Hocc.
  rewrite <- Hbuf in Hlen, Hocc. rewrite Hres.
  split; [exact Hbuf|]. split; [exact Hcut|]. split; [reflexivity|].
  split; [exact Hlen|]. split; [exact Hocc|].
  split.
  - intros Hb. pose proof (replaceGlobal_count marker buffer Hb) as Hcount.
    rewrite Hres in Hcount.
    assert (0 < String.length marker) by (destruct marker; [discriminate | simpl; lia]).
    nia.
  - intros pieces' last' Hbuf' Hcut'.
    destruct (leftmost_unique marker pieces last pieces' last' Hm) as [-> ->];
      [congruence | exact Hcut | exact Hcut' | now split].
Qed.

Lemma marker_removal_literal_witness :
  isEmpty "@REMOVE_LINE_FOR_BROWSER" = false /\
  occurrences "@REMOVE_LINE_FOR_BROWSER" "x = 1; //@REMOVE_LINE_FOR_BROWSE" = 0 /\
  removeMarker "@REMOVE_LINE_FOR_BROWSER" "x = 1; //@REMOVE_LINE_FOR_BROWSE"
  = "x = 1; //@REMOVE_LINE_FOR_BROWSE" /\
  exists pieces last,
    "a; //@REMOVE_LINE_FOR_BROWSER b @REMOVE_LINE_FOR_BROWSE @REMOVE_LINE_FOR_BROWSER"
    = joined "@REMOVE_LINE_FOR_BROWSER" pieces last /\
    removeMarker "@REMOVE_LINE_FOR_BROWSER"
      "a; //@REMOVE_LINE_FOR_BROWSER b @REMOVE_LINE_FOR_BROWSE @REMOVE_LINE_FOR_BROWSER"
    = joined "" pieces last.
Proof.
  split; [reflexivity|]. split; [reflexivity|]. split.
  - exact (proj1 (proj2 (proj2 (marker_removal_literal "@REMOVE_LINE_FOR_BROWSER"
                                  "x = 1; //@REMOVE_LINE_FOR_BROWSE"))) eq_refl).
  - destruct (proj2 (proj2 (proj2 (proj2 (marker_removal_literal "@REMOVE_LINE_FOR_BROWSER"
        "a; //@REMOVE_LINE_FOR_BROWSER b @REMOVE_LINE_FOR_BROWSE @REMOVE_LINE_FOR_BROWSER"))))
        eq_refl) as (pieces & last & Hbuf & _ & Hres & _).
    exists pieces, last. split; [exact Hbuf | exact Hres].
Defined.

(** Positions that overlap: ["aa"] occurs at offsets 0 and 1 of ["aaa"];
    the search from the left finds it at offset 0 and resumes at offset 2,
    so one occurrence is deleted and ["a"] is left. *)
Example overlapping_positions :
  occurrences "aa" "aaa" = 2 /\
  removeMarker "aa" "aaa" = "a" /\
  "aaa" = joined "aa" [""] "a" /\
  removeMarker "aba" "ababa" = "ba".
Proof. repeat split. Qed.

(** C3: the assembler appends, in order, each part's text followed by one
    newline, whatever the text ends in; the two literals ["a"] and ["b"] with
    no marker give ["a\nb\n"], which is what is written. *)
Theorem newline_after_each_fragment
    (env : Env) (files : string -> option string)
    (parts : list part) (texts : list string) (w : world env) :
  readsFrom env files ->
  Forall2 (fun p data => resolved files p = Some data) parts texts ->
  result env (concatParts parts "") w
  = Normal (assembled texts) /\
  forall targetFile,
  exists r,
    trace env (buildAndClean targetFile [text "a"; text "b"] []) w
    = [Called (writeFileSync targetFile ("a" ++ nl ++ "b" ++ nl) None) r].
Proof.
  intros Hreads Hparts. split.
  - destruct (concatParts_resolved env files Hreads parts texts Hparts "" w)
      as (t & w' & Hrun & _).
    unfold result. now rewrite Hrun.
  - intros targetFile. unfold trace. cbn.
    destruct (respond env unit _ w) as [[[]|e] w1]; eexists; reflexivity.
Qed.

Lemma newline_after_each_fragment_witness :
  result (fixture stubFiles identityMinifier)
    (concatParts [file "lib/core.js"; text "b"; text nl] "") tt
  = Normal ("stub" ++ nl ++ "b" ++ nl ++ nl ++ nl).
Proof.
  apply (newline_after_each_fragment (fixture stubFiles identityMinifier) stubFiles
           [file "lib/core.js"; text "b"; text nl] ["stub"; "b"; nl] tt).
  - intros p w. reflexivity.
  - repeat constructor.
Defined.

(** C4, as stated, does not hold: [buildAndClean] has no [return]
    statement.  For the two literals ["a"] and ["b"] it writes ["a\nb\n"] and
    the call evaluates to [undefined], not to the text written. *)
Lemma buildAndClean_returns_undefined :
  run (fixture stubFiles identityMinifier)
    (buildAndClean "out.js" [text "a"; text "b"] []) tt
  = ([Called (writeFileSync "out.js" ("a" ++ nl ++ "b" ++ nl) None) (inl tt)],
     Normal undefined, tt) /\
  result (fixture stubFiles identityMinifier)
    (buildAndClean "out.js" [text "a"; text "b"] []) tt
  <> Normal (str ("a" ++ nl ++ "b" ++ nl)).
Proof. split; [reflexivity | vm_compute; discriminate]. Qed.

(** C4, amended: when every part can be resolved, [buildAndClean] reads
    the files, then makes exactly one write, of the concatenation with the
    markers removed, to the destination path; if that write succeeds the
    call evaluates to [undefined] (the text written is not returned), and
    if it throws, so does the call. *)
Theorem buildAndClean_writes_artifact
    (env : Env) (files : string -> option string)
    (targetFile : string) (parts : list part) (texts : list string)
    (replacements : list string) (w : world env) :
  readsFrom env files ->
  Forall2 (fun p data => resolved files p = Some data) parts texts ->
  exists reads r,
    trace env (buildAndClean targetFile parts replacements) w
    = (reads ++
       [Called (writeFileSync targetFile
                  (removeMarkers replacements
                     (assembled texts))
                  None) r])%list /\
    existsb isWrite reads = false /\
    result env (buildAndClean targetFile parts replacements) w
    = match r with inl _ => Normal undefined | inr e => Thrown e end.
Proof.
  intros Hreads Hparts.
  destruct (concatParts_resolved env files Hreads parts texts Hparts "" w)
    as (t & w1 & Hrun & Ht).
  unfold trace, result, buildAndClean. rewrite run_bind, Hrun.
  cbn [bind fs run append].
  destruct (respond env unit _ w1) as [[[]|e] w2]; cbn [fst snd].
  - exists t, (inl tt). easy.
  - exists t, (inr e). easy.
Qed.

Lemma buildAndClean_writes_artifact_witness :
  exists reads r,
    trace (fixture stubFiles identityMinifier)
      (buildAndClean "dist/out.js"
         [file "lib/core.js"; text "x //@REMOVE_LINE_FOR_BROWSER"]
         ["@REMOVE_LINE_FOR_BROWSER"]) tt
    = (reads ++
       [Called (writeFileSync "dist/out.js"
                  (removeMarkers ["@REMOVE_LINE_FOR_BROWSER"]
                     (assembled ["stub"; "x //@REMOVE_LINE_FOR_BROWSER"]))
                  None) r])%list /\
    existsb isWrite reads = false /\
    result (fixture stubFiles identityMinifier)
      (buildAndClean "dist/out.js"
         [file "lib/core.js"; text "x //@REMOVE_LINE_FOR_BROWSER"]
         ["@REMOVE_LINE_FOR_BROWSER"]) tt
    = match r with inl _ => Normal undefined | inr e => Thrown e end.
Proof.
  apply (buildAndClean_writes_artifact (fixture stubFiles identityMinifier) stubFiles).
  - intros p w. reflexivity.
  - repeat constructor.
Defined.

(** C5: when some part names a file that cannot be read, [buildAndClean]
    throws before it writes: nothing is written, the buffer built so far
    is dropped with the exception, whatever the caller would do next is
    skipped, and the process ends with exit status 1.  Run from the
    command line, the [browser] and [commonjs] targets end with status 1
    without any write when a file of their bundle is unreadable, and the
    [browser] target ends with status 1 without writing the wrapped script
    when a test script is unreadable. *)
Theorem unreadable_fragment_aborts {rt : Runtime}
    (env : Env) (files : string -> option string) :
  readsFrom env files ->
  (forall targetFile parts replacements (w : world env),
     Exists (unreadable files) parts ->
     (exists t e w',
        run env (buildAndClean targetFile parts replacements) w = (t, Thrown e, w') /\
        existsb isWrite t = false) /\
     exitStatus (result env (buildAndClean targetFile parts replacements) w) = 1%Z /\
     forall (B : Type) (rest : value -> js B),
       aborts env (bind (buildAndClean targetFile parts replacements) rest)) /\
  (forall w : world env,
     Exists (unreadable files) Browser.parts ->
     existsb isWrite (trace env (main ["browser"]) w) = false /\
     exitStatus (result env (main ["browser"]) w) = 1%Z) /\
  (forall w : world env,
     Exists (unreadable files) CommonJS.parts ->
     existsb isWrite (trace env (main ["commonjs"]) w) = false /\
     exitStatus (result env (main ["commonjs"]) w) = 1%Z) /\
  (forall (script : string) (w : world env),
     In script Browser.testScripts -> files ("test/" ++ script) = None ->
     existsb (isWriteTo (path_join Browser.testDir script))
       (trace env (main ["browser"]) w) = false /\
     exitStatus (result env (main ["browser"]) w) = 1%Z).
Proof.
  intros Hreads. split; [|split; [|split]].
  - intros targetFile parts replacements w Hex.
    pose proof (buildAndClean_aborts env files targetFile parts replacements Hreads Hex)
      as Habort.
    split; [exact (Habort w)|]. split.
    + apply aborts_exit_status, Habort.
    + intros B rest. apply aborts_bind, Habort.
  - intros w Hex. change (main ["browser"]) with runBrowser.
    apply aborts_exit_status. eapply runBrowser_aborts; eassumption.
  - intros w Hex. change (main ["commonjs"]) with runCommonJS.
    apply aborts_exit_status. eapply runCommonJS_aborts; eassumption.
  - intros script w Hin Hnone. change (main ["browser"]) with runBrowser.
    destruct (runBrowser_spares_failing_test env files script Hreads Hin Hnone w)
      as [Ht [e He]].
    split; [exact Ht|]. now rewrite He.
Qed.

Lemma unreadable_fragment_aborts_witness :
  existsb isWrite (trace (fixture withoutCore identityMinifier) (@main asciiRuntime ["browser"]) tt)
  = false /\
  exitStatus (result (fixture withoutCore identityMinifier) (@main asciiRuntime ["browser"]) tt)
  = 1%Z.
Proof.
  apply (unreadable_fragment_aborts (rt := asciiRuntime) (fixture withoutCore identityMinifier) withoutCore).
  - apply fixture_readsFrom.
  - apply Exists_exists. exists (file "lib/core.js"). split.
    + unfold Browser.parts. simpl. tauto.
    + exists "lib/core.js". split; reflexivity.
Defined.

Lemma hyphensToUnderscores_no_hyphen s :
  hasChar "-" (hyphensToUnderscores s) = false.
Proof.
  unfold hyphensToUnderscores. induction s as [|c s IH]; [reflexivity|].
  cbn [mapChars hasChar]. rewrite IH, orb_false_r.
  destruct (Ascii.eqb_spec c "-") as [->|Hc]; [reflexivity|].
  apply Ascii.eqb_neq. congruence.
Qed.

(** *** What a run that returns has written *)

Lemma onSuccess_bind_l env {A B : Type} (p : js A) (f : A -> js B)
    (Q : list obs -> Prop) :
  (forall t t2, Q t -> Q (t ++ t2)%list) ->
  onSuccess env p Q -> onSuccess env (bind p f) Q.
Proof.
  intros Hext Hp w t b w' H.
  apply run_bind_normal in H as (t1 & a & w1 & t2 & H1 & _ & ->).
  apply Hext. eapply Hp; eassumption.
Qed.

Lemma onSuccess_bind_r env {A B : Type} (p : js A) (f : A -> js B)
    (Q : list obs -> Prop) :
  (forall t1 t, Q t -> Q (t1 ++ t)%list) ->
  (forall a, onSuccess env (f a) Q) -> onSuccess env (bind p f) Q.
Proof.
  intros Hext Hf w t b w' H.
  apply run_bind_normal in H as (t1 & a & w1 & t2 & _ & H2 & ->).
  apply Hext. eapply Hf; eassumption.
Qed.

Lemma onSuccess_forEach env {X : Type} (xs : list X) (f : X -> js unit) (x : X)
    (Q : list obs -> Prop) :
  (forall t t2, Q t -> Q (t ++ t2)%list) ->
  (forall t1 t, Q t -> Q (t1 ++ t)%list) ->
  In x xs -> onSuccess env (f x) Q -> onSuccess env (forEach xs f) Q.
Proof.
  intros Hl Hr Hin Hx. induction xs as [|y xs IH]; [destruct Hin|].
  cbn [forEach]. destruct Hin as [->|Hin].
  - now apply onSuccess_bind_l.
  - apply onSuccess_bind_r; [exact Hr|]. intros _. now apply IH.
Qed.

Lemma resolved_all_or_unreadable files parts :
  (exists texts, Forall2 (fun p data => resolved files p = Some data) parts texts)
  \/ Exists (unreadable files) parts.
Proof.
  induction parts as [|p parts IH].
  - left. exists []. constructor.
  - destruct (resolved_or_unreadable files p) as [[data Hp]|Hp].
    + destruct IH as [[texts IH]|IH].
      * left. exists (data :: texts). now constructor.
      * right. now apply Exists_cons_tl.
    + right. now apply Exists_cons_hd.
Qed.

(** A call of [buildAndClean] that returns has resolved every part and
    written the assembled text, markers removed, to the target. *)
Lemma buildAndClean_onSuccess env files targetFile parts replacements :
  readsFrom env files ->
  onSuccess env (buildAndClean targetFile parts replacements)
    (fun t =>
       exists texts,
         Forall2 (fun p data => resolved files p = Some data) parts texts /\
         existsb (isWriteOf targetFile (removeMarkers replacements (assembled texts))) t
         = true).
Proof.
  intros Hreads w t a w' H. unfold buildAndClean in H. rewrite run_bind in H.
  destruct (resolved_all_or_unreadable files parts) as [[texts Hparts]|Hex].
  - exists texts. split; [exact Hparts|].
    destruct (concatParts_resolved env files Hreads parts texts Hparts "" w)
      as (t0 & w1 & Hrun & _).
    rewrite Hrun in H. cbn [bind fs run append] in H.
    destruct (respond env unit _ w1) as [[[]|e] w2]; [|discriminate H].
    injection H as <- _ _.
    rewrite existsb_app. cbn [existsb isWriteOf]. rewrite !String.eqb_refl.
    apply orb_true_r.
  - destruct (concatParts_unreadable env files Hreads parts Hex "" w)
      as (t0 & e & w1 & Hrun & _).
    rewrite Hrun in H. discriminate H.
Qed.

(** The browser target, when it returns, has written the wrapper of each
    of its test scripts. *)
Lemma runBrowser_wraps env files script :
  readsFrom env files ->
  In script Browser.testScripts ->
  onSuccess env runBrowser
    (fun t =>
       exists texts,
         Forall2 (fun p data => resolved files p = Some data)
           (Browser.testParts script) texts /\
         existsb (isWriteOf (path_join Browser.testDir script)
                    (removeMarkers Browser.replacements (assembled texts))) t
         = true).
Proof.
  intros Hreads Hin.
  assert (forall t t2 : list obs,
             (exists texts,
                 Forall2 (fun p data => resolved files p = Some data)
                   (Browser.testParts script) texts /\
                 existsb (isWriteOf (path_join Browser.testDir script)
                            (removeMarkers Browser.replacements (assembled texts))) t
                 = true) ->
             exists texts,
               Forall2 (fun p data => resolved files p = Some data)
                 (Browser.testParts script) texts /\
               existsb (isWriteOf (path_join Browser.testDir script)
                          (removeMarkers Browser.replacements (assembled texts)))
                 (t ++ t2) = true) as Hl.
  { intros t t2 (texts & Hp & Ht). exists texts. split; [exact Hp|].
    rewrite existsb_app, Ht. reflexivity. }
  assert (forall t1 t : list obs,
             (exists texts,
                 Forall2 (fun p data => resolved files p = Some data)
                   (Browser.testParts script) texts /\
                 existsb (isWriteOf (path_join Browser.testDir script)
                            (removeMarkers Browser.replacements (assembled texts))) t
                 = true) ->
             exists texts,
               Forall2 (fun p data => resolved files p = Some data)
                 (Browser.testParts script) texts /\
               existsb (isWriteOf (path_join Browser.testDir script)
                          (removeMarkers Browser.replacements (assembled texts)))
                 (t1 ++ t) = true) as Hr.
  { intros t1 t (texts & Hp & Ht). exists texts. split; [exact Hp|].
    rewrite existsb_app, Ht. apply orb_true_r. }
  unfold runBrowser.
  apply onSuccess_bind_r; [exact Hr|]. intros _.
  apply onSuccess_bind_r; [exact Hr|]. intros _.
  apply onSuccess_bind_r; [exact Hr|]. intros _.
  unfold Browser.hostTests.
  apply onSuccess_bind_r; [exact Hr|]. intros _.
  apply onSuccess_bind_r; [exact Hr|]. intros _.
  apply onSuccess_bind_l; [exact Hl|].
  apply (onSuccess_forEach env _ _ script); [exact Hl | exact Hr | exact Hin |].
  unfold Browser.wrapTestScript.
  apply onSuccess_bind_l; [exact Hl|].
  now apply buildAndClean_onSuccess.
Qed.

(** C6: the browser target wraps the five legacy test scripts, and for
    each script [X] it assembles [dist/browser/test/X.js] from the literal
    [(function (exports) {], the file [test/X.js] and the literal
    [})(this.X' = {});], where [X'] is [X] with every hyphen turned into
    an underscore; for [test-runmodule.js] the identifier is
    [this.test_runmodule].  This is the plan the loop of the target
    builds for each script, and every run of the script with the command
    [browser] that returns has read [test/X.js] and written to
    [dist/browser/test/X.js] the three texts, each followed by a newline,
    with the browser marker removed. *)
Theorem legacy_test_wrappers {rt : Runtime} :
  Browser.testScripts = map (fun t => fst t ++ ".js") legacyTests /\
  Forall
    (fun t =>
       let X := fst t in
       let X' := snd t in
       X' = hyphensToUnderscores X /\
       hasChar "-" X' = false /\
       Browser.testParts (X ++ ".js")
       = [ text "(function (exports) {";
           file ("test/" ++ X ++ ".js");
           text ("})(this." ++ X' ++ " = {});") ] /\
       Browser.wrapTestScript (X ++ ".js")
       = (buildAndClean ("dist/browser/test/" ++ X ++ ".js")
            [ text "(function (exports) {";
              file ("test/" ++ X ++ ".js");
              text ("})(this." ++ X' ++ " = {});") ]
            ["@REMOVE_LINE_FOR_BROWSER"] ;; Ret tt))
    legacyTests /\
  Browser.testParts "test-runmodule.js"
  = [ text "(function (exports) {";
      file "test/test-runmodule.js";
      text "})(this.test_runmodule = {});" ] /\
  forall (env : Env) (files : string -> option string) (w : world env),
    readsFrom env files ->
    result env (main ["browser"]) w = Normal tt ->
    Forall
      (fun t =>
         let X := fst t in
         let X' := snd t in
         exists source,
           files ("test/" ++ X ++ ".js") = Some source /\
           existsb
             (isWriteOf ("dist/browser/test/" ++ X ++ ".js")
                (removeMarkers ["@REMOVE_LINE_FOR_BROWSER"]
                   (assembled [ "(function (exports) {";
                                source;
                                "})(this." ++ X' ++ " = {});" ])))
             (trace env (main ["browser"]) w)
           = true)
      legacyTests.
Proof.
  split; [reflexivity|]. split; [|split; [reflexivity|]].
  { repeat constructor; cbn [fst snd];
      rewrite ?hyphensToUnderscores_no_hyphen; reflexivity. }
  intros env files w Hreads Hres.
  change (main ["browser"]) with runBrowser in *.
  unfold result, trace in *.
  destruct (run env runBrowser w) as [[t o] w'] eqn:Hrun. cbn [fst snd] in *. subst o.
  assert (forall script, In script Browser.testScripts ->
            exists texts,
              Forall2 (fun p data => resolved files p = Some data)
                (Browser.testParts script) texts /\
              existsb (isWriteOf (path_join Browser.testDir script)
                         (removeMarkers Browser.replacements (assembled texts))) t
              = true) as Hall.
  { intros script Hin. exact (runBrowser_wraps env files script Hreads Hin w t tt w' Hrun). }
  unfold legacyTests.
  repeat (apply Forall_cons || apply Forall_nil); cbn [fst snd];
    match goal with
    | |- exists source, files ("test/" ++ ?X ++ ".js") = _ /\ _ =>
        destruct (Hall (X ++ ".js")) as (texts & Hparts & Hwrite);
          [cbn; tauto|];
        unfold Browser.testParts in Hparts;
        inversion Hparts as [|p1 d1 ps1 ts1 H1 Hparts1]; subst;
        inversion Hparts1 as [|p2 d2 ps2 ts2 H2 Hparts2]; subst;
        inversion Hparts2 as [|p3 d3 ps3 ts3 H3 Hparts3]; subst;
        inversion Hparts3; subst;
        cbn in H1, H2, H3;
        injection H1 as <-; injection H3 as <-;
        exists d2; split; [exact H2 | exact Hwrite]
    end.
Qed.

Lemma legacy_test_wrappers_witness :
  Forall
    (fun t =>
       exists source,
         stubFiles ("test/" ++ fst t ++ ".js") = Some source /\
         existsb
           (isWriteOf ("dist/browser/test/" ++ fst t ++ ".js")
              (removeMarkers ["@REMOVE_LINE_FOR_BROWSER"]
                 (assembled [ "(function (exports) {";
                              source;
                              "})(this." ++ snd t ++ " = {});" ])))
           (trace (fixture stubFiles identityMinifier) (@main asciiRuntime ["browser"]) tt)
         = true)
    legacyTests.
Proof.
  apply (proj2 (proj2 (proj2 (legacy_test_wrappers (rt := asciiRuntime))))
           (fixture stubFiles identityMinifier) stubFiles tt).
  - apply fixture_readsFrom.
  - reflexivity.
Defined.

(** C7, as stated, does not hold for every buffer: removing one marker
    can bring the two halves of the other together.  On the buffer below,
    removing the browser marker first leaves the CommonJS marker, which
    the second step then removes; in the other order the CommonJS marker
    is not there yet when its step runs and stays in the result. *)
Lemma marker_order_matters :
  Permutation CommonJS.replacements
    ["@REMOVE_LINE_FOR_COMMONJS"; "@REMOVE_LINE_FOR_BROWSER"] /\
  removeMarkers CommonJS.replacements
    ("@REMOVE_LINE_FOR_@REMOVE_LINE_FOR_BROWSERCOMMONJS" ++ nl) = nl /\
  removeMarkers ["@REMOVE_LINE_FOR_COMMONJS"; "@REMOVE_LINE_FOR_BROWSER"]
    ("@REMOVE_LINE_FOR_@REMOVE_LINE_FOR_BROWSERCOMMONJS" ++ nl)
  = "@REMOVE_LINE_FOR_COMMONJS" ++ nl /\
  removeMarkers CommonJS.replacements
    ("@REMOVE_LINE_FOR_@REMOVE_LINE_FOR_BROWSERCOMMONJS" ++ nl)
  <> removeMarkers ["@REMOVE_LINE_FOR_COMMONJS"; "@REMOVE_LINE_FOR_BROWSER"]
       ("@REMOVE_LINE_FOR_@REMOVE_LINE_FOR_BROWSERCOMMONJS" ++ nl).
Proof.
  split; [apply perm_swap|]. split; [reflexivity|]. split; [reflexivity|].
  vm_compute. discriminate.
Qed.

(** C7, amended: for the marker set of the browser target there is one
    order only; for the two markers of the CommonJS target, on every
    buffer in which each occurrence of either marker is immediately
    followed by a newline (markers close their line), removing the
    markers in either order gives the same buffer. *)
Theorem marker_order_line_final (buffer : string) (order : list string) :
  (Permutation Browser.replacements order ->
   removeMarkers order buffer = removeMarkers Browser.replacements buffer) /\
  (Forall (fun marker => line_final marker buffer = true) CommonJS.replacements ->
   Permutation CommonJS.replacements order ->
   removeMarkers order buffer = removeMarkers CommonJS.replacements buffer).
Proof.
  split.
  - intros Hperm. apply Permutation_length_1_inv in Hperm. now subst.
  - intros Hfinal Hperm.
    apply Permutation_length_2_inv in Hperm as [->| ->]; [reflexivity|].
    unfold CommonJS.replacements in Hfinal.
    inversion Hfinal as [|? ? Hb Hrest]; subst.
    inversion Hrest as [|? ? Hc _]; subst.
    unfold removeMarkers, CommonJS.replacements. cbn [fold_left].
    rewrite !removeMarker_replaceGlobal. unfold replaceGlobal. cbn [isEmpty].
    apply scan_commute; try reflexivity; assumption.
Qed.

Lemma marker_order_line_final_witness :
  Forall
    (fun marker =>
       line_final marker
         ("a(); //@REMOVE_LINE_FOR_COMMONJS" ++ nl ++ "b(); //@REMOVE_LINE_FOR_BROWSER" ++ nl)
       = true)
    CommonJS.replacements /\
  removeMarkers ["@REMOVE_LINE_FOR_COMMONJS"; "@REMOVE_LINE_FOR_BROWSER"]
    ("a(); //@REMOVE_LINE_FOR_COMMONJS" ++ nl ++ "b(); //@REMOVE_LINE_FOR_BROWSER" ++ nl)
  = removeMarkers CommonJS.replacements
      ("a(); //@REMOVE_LINE_FOR_COMMONJS" ++ nl ++ "b(); //@REMOVE_LINE_FOR_BROWSER" ++ nl).
Proof.
  split; [repeat constructor|].
  apply (marker_order_line_final
           ("a(); //@REMOVE_LINE_FOR_COMMONJS" ++ nl ++ "b(); //@REMOVE_LINE_FOR_BROWSER" ++ nl)
           ["@REMOVE_LINE_FOR_COMMONJS"; "@REMOVE_LINE_FOR_BROWSER"]).
  - repeat constructor.
  - apply perm_swap.
Defined.

(** C8: in the browser target, when the minifier throws or returns an
    error payload, the exception is caught and its message is printed on
    the error stream; the step ends normally without having written the
    minified file, and whatever follows it (wrapping the test scripts, the
    final copies) runs from there, its outcome being the outcome of the
    whole. *)
Theorem minifier_failure_not_fatal (env : Env) (w : world env) :
  minifierFails env ->
  exists t e w',
    run env Browser.minification w
    = ((t ++ [Printed stderr
                (nl ++ "❌ ERROR during UglifyJS minification: " ++ show (exn_message e))])%list,
       Normal tt, w') /\
    existsb isWrite t = false /\
    (forall rest : js unit,
       run env (Browser.minification ;; rest) w
       = (let '(t', o, w'') := run env rest w' in
          ((t ++ Printed stderr
                   (nl ++ "❌ ERROR during UglifyJS minification: "
                       ++ show (exn_message e)) :: t')%list, o, w'')) /\
       exitStatus (result env (Browser.minification ;; rest) w)
       = exitStatus (result env rest w')) /\
    runBrowser
    = (console_log (nl ++ "🌐 Running BROWSER build task...") ;;
       Browser.bundle ;; Browser.minification ;; Browser.hostTests).
Proof.
  intros Hfail.
  destruct (minifyTry_fails env Hfail w) as (t1 & e & w1 & Htry & Ht1).
  set (msg := Printed stderr
                (nl ++ "❌ ERROR during UglifyJS minification: " ++ show (exn_message e))).
  assert (run env Browser.minification w
          = (((Printed stdout "   -> Minifying browser bundle using UglifyJS module..." :: t1)
                ++ [msg])%list, Normal tt, w1)) as Hrun.
  { unfold Browser.minification. cbn [bind console_log run]. rewrite Htry.
    unfold Browser.minifyCatch, console_error. cbn [run]. rewrite app_nil_r.
    reflexivity. }
  exists (Printed stdout "   -> Minifying browser bundle using UglifyJS module..." :: t1),
    e, w1.
  split; [exact Hrun|]. split; [exact Ht1|]. split; [|reflexivity].
  intros rest. unfold result. rewrite run_bind, Hrun.
  destruct (run env rest w1) as [[t' o] w'']. cbn [fst snd].
  rewrite <- app_assoc. split; reflexivity.
Qed.

Lemma minifier_failure_not_fatal_witness :
  exists t e w',
    run (fixture stubFiles brokenMinifier) Browser.minification tt
    = ((t ++ [Printed stderr
                (nl ++ "❌ ERROR during UglifyJS minification: " ++ show (exn_message e))])%list,
       Normal tt, w') /\
    existsb isWrite t = false /\
    (forall rest : js unit,
       run (fixture stubFiles brokenMinifier) (Browser.minification ;; rest) tt
       = (let '(t', o, w'') := run (fixture stubFiles brokenMinifier) rest w' in
          ((t ++ Printed stderr
                   (nl ++ "❌ ERROR during UglifyJS minification: "
                       ++ show (exn_message e)) :: t')%list, o, w'')) /\
       exitStatus (result (fixture stubFiles brokenMinifier) (Browser.minification ;; rest) tt)
       = exitStatus (result (fixture stubFiles brokenMinifier) rest w')) /\
    runBrowser
    = (console_log (nl ++ "🌐 Running BROWSER build task...") ;;
       Browser.bundle ;; Browser.minification ;; Browser.hostTests).
Proof.
  apply (minifier_failure_not_fatal (fixture stubFiles brokenMinifier) tt).
  intros source w. cbn. discriminate.
Defined.

Example browser_build_with_broken_minifier :
  exitStatus (result (fixture stubFiles brokenMinifier) (@main asciiRuntime ["browser"]) tt) = 0%Z /\
  existsb (isWriteTo Browser.minFile)
    (trace (fixture stubFiles brokenMinifier) (@main asciiRuntime ["browser"]) tt) = false /\
  existsb (isWriteTo "dist/browser/test/test-testcase-legacy.js")
    (trace (fixture stubFiles brokenMinifier) (@main asciiRuntime ["browser"]) tt) = true.
Proof. repeat split; vm_compute; reflexivity. Qed.

(** C9: when the arguments hold [-h] or [--help], or hold [-hh], the
    script prints the help menu (the verbose one exactly when only [-hh]
    asks for it) and does nothing else, whatever other arguments there
    are; the process ends with exit status 0. *)
Theorem help_flag_only_prints_help {rt : Runtime} (userArgs : list string) :
  In "-h" userArgs \/ In "--help" userArgs \/ In "-hh" userArgs ->
  let verbose := negb (includes userArgs "-h" || includes userArgs "--help") in
  main userArgs = showHelp verbose /\
  printsOnly (main userArgs) = Some (map (pair stdout) (helpLines verbose)) /\
  forall env (w : world env),
    run env (main userArgs) w = (map (Printed stdout) (helpLines verbose), Normal tt, w) /\
    exitStatus (result env (main userArgs) w) = 0%Z.
Proof.
  intros Hflag verbose.
  assert (main userArgs = showHelp verbose) as Hmain.
  { unfold main, verbose.
    rewrite !includes_options by reflexivity.
    destruct (includes userArgs "-h" || includes userArgs "--help") eqn:E;
      [reflexivity|].
    apply orb_false_elim in E as [Eh Ehelp].
    assert (includes userArgs "-hh" = true) as ->; [|reflexivity].
    apply includes_In.
    destruct Hflag as [H|[H|H]]; [| |exact H];
      apply includes_In in H; congruence. }
  assert (printsOnly (main userArgs) = Some (map (pair stdout) (helpLines verbose)))
    as Hprints.
  { rewrite Hmain. destruct verbose; reflexivity. }
  split; [exact Hmain|]. split; [exact Hprints|]. intros env w.
  destruct (run_printsOnly env _ _ w Hprints) as [[] Hrun].
  unfold result. rewrite Hrun, map_map. split; reflexivity.
Qed.

Lemma help_flag_only_prints_help_witness :
  In "-h" ["clean"; "-h"] /\
  @main asciiRuntime ["clean"; "-h"] = showHelp false /\
  exitStatus (result (fixture stubFiles identityMinifier) (@main asciiRuntime ["clean"; "-h"]) tt) = 0%Z.
Proof.
  split; [simpl; tauto|].
  pose proof (help_flag_only_prints_help (rt := asciiRuntime) ["clean"; "-h"]) as H.
  split; [apply H | apply H]; simpl; tauto.
Defined.

(** C10: the command is matched without regard to case.  An argument that
    does not start with a hyphen can be replaced by its lower-case form
    without changing what the script does: this holds of every word of
    ASCII characters in any runtime, and of every word whatever in a
    conforming runtime.  The lower-case form of an ASCII word has a-z for
    A-Z and is otherwise the word.  So [BUILD] and [build] both run the
    build task, and [FROBNICATE] and [frobnicate] both give the
    unknown-command error, which quotes the word in lower case. *)
Theorem command_case_insensitive {rt : Runtime} (before after : list string) (word : string) :
  asciiOnly word = true \/ conforming rt ->
  startsWith word "-" = false ->
  main (before ++ word :: after) = main (before ++ toLowerCase word :: after) /\
  (asciiOnly word = true ->
   main (before ++ word :: after) = main (before ++ asciiLowerCase word :: after)) /\
  main ["BUILD"] = runBuild /\
  main ["build"] = runBuild /\
  main ["FROBNICATE"]
  = (console_error (nl ++ "❌ ERROR: Unknown command: 'frobnicate'") ;; showHelp false) /\
  main ["frobnicate"]
  = (console_error (nl ++ "❌ ERROR: Unknown command: 'frobnicate'") ;; showHelp false).
Proof.
  intros Hlaws Hword.
  assert (main (before ++ word :: after) = main (before ++ toLowerCase word :: after))
    as Hmain.
  { unfold main.
    rewrite <- (primaryCommand_lower before after word Hlaws Hword).
    rewrite (options_replace before after word (toLowerCase word)); [reflexivity| |].
    - exact Hword.
    - destruct (lower_laws word Hlaws) as (_ & Hhyphen & _). now rewrite Hhyphen. }
  split; [exact Hmain|]. split.
  - intros Hascii. now rewrite <- (toLowerCase_ascii word Hascii).
  - repeat split.
Qed.

Lemma command_case_insensitive_witness :
  (asciiOnly "Browser" = true \/ conforming asciiRuntime) /\
  startsWith "Browser" "-" = false /\
  @main asciiRuntime (["-v"] ++ "Browser" :: ["extra"])
  = @main asciiRuntime (["-v"] ++ "browser" :: ["extra"]) /\
  (asciiOnly "BUILD→" = true \/ conforming asciiRuntime) /\
  startsWith "BUILD→" "-" = false /\
  @main asciiRuntime ["BUILD→"] = @main asciiRuntime ["build→"].
Proof.
  split; [left; reflexivity|]. split; [reflexivity|]. split.
  - apply (proj1 (command_case_insensitive (rt := asciiRuntime) ["-v"] ["extra"] "Browser"
                   (or_introl eq_refl) eq_refl)).
  - split; [right; exact asciiRuntime_conforming|]. split; [reflexivity|].
    apply (proj1 (command_case_insensitive (rt := asciiRuntime) [] [] "BUILD→"
                   (or_intror asciiRuntime_conforming) eq_refl)).
Defined.

(** * Further properties of the script *)

(** ** [exec] *)

(** What [exec] does when the command succeeds. *)
Lemma exec_succeeds {rt : Runtime} (env : Env) (command taskName : string)
    (w w' : world env) (output : string) :
  respond env _ (execSync command) w = (inl output, w') ->
  run env (exec command taskName) w
  = (Printed stdout ("   -> Executing: " ++ command)
       :: Called (execSync command) (inl output)
       :: (if isEmpty output then []
           else map (fun line => Printed stdout ("      | " ++ line))
                    (split newline (trim output))),
     Normal tt, w').
Proof.
  intros E.
  assert (forall (lines : list string) (w0 : world env),
             run env (forEach lines (fun line => console_log ("      | " ++ line))) w0
             = (map (fun line => Printed stdout ("      | " ++ line)) lines, Normal tt, w0))
    as Hlines.
  { induction lines as [|l lines IH]; intros w0; [reflexivity|].
    cbn [forEach bind console_log run map]. change (bind (Ret tt) ?f) with (f tt).
    cbn beta. now rewrite IH. }
  unfold exec. cbn [bind console_log fs run]. rewrite E.
  destruct (isEmpty output); cbn [run bind].
  - reflexivity.
  - rewrite Hlines. cbn [app]. now rewrite app_nil_r.
Qed.

(** What [exec] does when the command fails: the process ends there. *)
Lemma exec_fails {rt : Runtime} (env : Env) (command taskName : string)
    (w w' : world env) (error : exn) :
  respond env _ (execSync command) w = (inr error, w') ->
  run env (exec command taskName) w
  = (Printed stdout ("   -> Executing: " ++ command)
       :: Called (execSync command) (inr error)
       :: Printed stderr (nl ++ "❌ ERROR in " ++ taskName ++ ": Command failed.")
       :: match populated (exn_stderr error) with
          | Some err =>
              [ Printed stderr "--- Shell Error Output ---";
                Printed stderr (trim err);
                Printed stderr "--------------------------" ]
          | None => []
          end,
     Exited 1, w').
Proof.
  intros E. unfold exec. cbn [bind console_log fs run]. rewrite E.
  destruct (populated (exn_stderr error)); reflexivity.
Qed.

(** ** The marker-removal step, continued *)

Lemma escapeRegExp_wraps_class line :
  String.length line <= String.length (escapeRegExp line) <= 2 * String.length line.
Proof.
  induction line as [|c line IH]; [simpl; lia|].
  cbn [escapeRegExp]. destruct (inEscapedClass c); cbn [String.length]; lia.
Qed.

(** X2: for every marker, also one made of regular-expression
    punctuation, the escaped source denotes the marker itself, character
    for character: the regular expression of the removal step matches the
    literal marker and nothing else, and the step is a literal global
    replace. *)
Theorem escaped_marker_is_literal (line content : string) :
  RegExp_literal (escapeRegExp line) = Some line /\
  removeMarker line content = replaceGlobal line content /\
  (forall c, syntaxChar c = true -> inEscapedClass c = true) /\
  String.length line <= String.length (escapeRegExp line) <= 2 * String.length line.
Proof.
  split; [apply escapeRegExp_literal|]. split; [apply removeMarker_replaceGlobal|].
  split; [|apply escapeRegExp_wraps_class].
  intros c. destruct c as [[] [] [] [] [] [] [] []]; vm_compute; intros H;
    try discriminate H; reflexivity.
Qed.

Lemma escaped_marker_is_literal_witness :
  syntaxChar "." = true /\ inEscapedClass "." = true /\
  RegExp_literal (escapeRegExp "a.b*") = Some "a.b*".
Proof.
  split; [reflexivity|]. split.
  - apply (escaped_marker_is_literal "a.b*" ""). reflexivity.
  - apply (escaped_marker_is_literal "a.b*" "").
Defined.

Example dots_and_stars_are_literal :
  removeMarker ".*" "a.*b.c*" = "ab.c*" /\ removeMarker "[x]" "x[x]" = "x" /\
  removeMarker "a|b" "a b a|b" = "a b ".
Proof. repeat split. Qed.

Lemma replaceGlobal_length m s :
  String.length (replaceGlobal m s) <= String.length s.
Proof.
  destruct (replaceGlobal_pieces m s) as (p & ps & Hs & Hr).
  rewrite Hr, Hs. clear Hs Hr. revert p.
  induction ps as [|q ps IH]; intros p; [reflexivity|].
  change (String.concat "" (p :: q :: ps)) with (p ++ "" ++ String.concat "" (q :: ps)).
  change (String.concat m (p :: q :: ps)) with (p ++ m ++ String.concat m (q :: ps)).
  rewrite !length_append. specialize (IH q). cbn [String.length]. lia.
Qed.

(** X3: marker removal only deletes.  For every list of markers the
    result is no longer than the buffer; an empty marker, an empty list of
    markers and an empty buffer change nothing; and a marker longer than
    the buffer is never found. *)
Theorem removal_only_deletes (replacements : list string) (buffer : string) :
  String.length (removeMarkers replacements buffer) <= String.length buffer /\
  removeMarkers [] buffer = buffer /\
  removeMarker "" buffer = buffer /\
  removeMarkers replacements "" = "" /\
  (forall marker, String.length buffer < String.length marker ->
     removeMarker marker buffer = buffer).
Proof.
  assert (forall ms b, String.length (removeMarkers ms b) <= String.length b) as Hlen.
  { induction ms as [|m ms IH]; intros b; [reflexivity|].
    cbn [removeMarkers fold_left]. fold (removeMarkers ms (removeMarker m b)).
    specialize (IH (removeMarker m b)). rewrite removeMarker_replaceGlobal in *.
    pose proof (replaceGlobal_length m b). lia. }
  split; [apply Hlen|]. split; [reflexivity|]. split; [reflexivity|]. split.
  - specialize (Hlen replacements ""). simpl in Hlen.
    destruct (removeMarkers replacements ""); [reflexivity | simpl in Hlen; lia].
  - intros marker Hlong. rewrite removeMarker_replaceGlobal.
    apply replaceGlobal_absent, occurrences_longer, Hlong.
Qed.

Lemma occurrences_suffix_zero q u t :
  occurrences q (u ++ t) = 0 -> occurrences q t = 0.
Proof.
  induction u as [|c u IH]; [easy|].
  change (String c u ++ t) with (String c (u ++ t)). cbn [occurrences].
  intros H. apply IH. lia.
Qed.

Lemma occurrences_after_own_scan p s :
  tagLike p = true -> line_final p s = true -> occurrences p (scan p s) = 0.
Proof.
  intros Hp. revert s.
  apply (scan_ind p (fun s => line_final p s = true -> occurrences p (scan p s) = 0));
    [now apply tagLike_nonempty | | |].
  - intros _. rewrite scan_equation_1. now destruct p.
  - intros t IH Hs. rewrite scan_match by now apply tagLike_nonempty.
    apply IH. eapply line_final_suffix; exact Hs.
  - intros c s Hno IH Hs. pose proof (line_final_tail _ _ _ Hs) as Hs'.
    rewrite (scan_nomatch _ _ _ Hno). cbn [occurrences].
    rewrite prefix_after_scan, Hno by assumption. now apply IH.
Qed.

Lemma occurrences_after_other_scan p q s :
  tagLike p = true -> tagLike q = true ->
  line_final p s = true -> occurrences q s = 0 -> occurrences q (scan p s) = 0.
Proof.
  intros Hp Hq. revert s.
  apply (scan_ind p (fun s => line_final p s = true -> occurrences q s = 0 ->
                              occurrences q (scan p s) = 0));
    [now apply tagLike_nonempty | | |].
  - intros _ _. rewrite scan_equation_1. now destruct q.
  - intros t IH Hs Hz. rewrite scan_match by now apply tagLike_nonempty.
    apply IH; [eapply line_final_suffix; exact Hs | eapply occurrences_suffix_zero; exact Hz].
  - intros c s Hno IH Hs Hz. pose proof (line_final_tail _ _ _ Hs) as Hs'.
    rewrite (scan_nomatch _ _ _ Hno). cbn [occurrences] in Hz |- *.
    rewrite prefix_after_scan by assumption.
    destruct (prefix q (String c s)); [discriminate|]. apply IH; [exact Hs' | exact Hz].
Qed.

Lemma line_final_after_other_scan p q s :
  tagLike p = true -> tagLike q = true ->
  prefix p q = false -> prefix q p = false ->
  line_final p s = true -> line_final q s = true -> line_final q (scan p s) = true.
Proof.
  intros Hp Hq Hpq Hqp. revert s.
  apply (scan_ind p (fun s => line_final p s = true -> line_final q s = true ->
                              line_final q (scan p s) = true));
    [now apply tagLike_nonempty | | |].
  - intros _ _. rewrite scan_equation_1. now destruct q.
  - intros t IH Hsp Hsq. rewrite scan_match by now apply tagLike_nonempty.
    apply IH; eapply line_final_suffix; eassumption.
  - intros c s Hno IH Hsp Hsq.
    pose proof (line_final_tail _ _ _ Hsp) as Hsp'.
    pose proof (line_final_tail _ _ _ Hsq) as Hsq'.
    assert (scan p (String c s) = String c (scan p s)) as E by now apply scan_nomatch.
    rewrite E. cbn [line_final]. rewrite (IH Hsp' Hsq'), andb_true_r.
    destruct (prefix q (String c s)) eqn:Hmq.
    + rewrite <- E. pose proof (prefix_split _ _ Hmq) as Hs. rewrite Hs in Hsq |- *.
      destruct (line_final_match _ _ Hsq) as (t' & Ht & _). rewrite Ht.
      rewrite scan_over_other by assumption.
      rewrite scan_nomatch by (apply tagLike_needs_at; [exact Hp | reflexivity]).
      change (String newline (scan p t')) with (nl ++ scan p t').
      rewrite <- append_assoc, prefix_append. apply implb_true_r.
    + rewrite prefix_after_scan by assumption. now rewrite Hmq.
Qed.

(** X4: on a buffer in which every occurrence of a build marker is
    immediately followed by a newline, the removal step of each target
    leaves none of its markers anywhere in the result.  Without that
    condition a marker can survive its own removal: deleting an occurrence
    can join the text around it into a new one. *)
Theorem build_markers_absent (buffer : string) :
  (line_final "@REMOVE_LINE_FOR_BROWSER" buffer = true ->
   occurrences "@REMOVE_LINE_FOR_BROWSER"
     (removeMarkers Browser.replacements buffer) = 0) /\
  (Forall (fun marker => line_final marker buffer = true) CommonJS.replacements ->
   Forall (fun marker =>
             occurrences marker (removeMarkers CommonJS.replacements buffer) = 0)
     CommonJS.replacements) /\
  removeMarkers Browser.replacements
    "@REMOVE_LINE_FOR_@REMOVE_LINE_FOR_BROWSERBROWSER"
  = "@REMOVE_LINE_FOR_BROWSER".
Proof.
  split; [|split; [|reflexivity]].
  - intros Hb. unfold removeMarkers, Browser.replacements. cbn [fold_left].
    rewrite removeMarker_replaceGlobal. unfold replaceGlobal. cbn [isEmpty].
    now apply occurrences_after_own_scan.
  - intros Hfinal. unfold CommonJS.replacements in *.
    inversion Hfinal as [|? ? Hb Hrest]; subst.
    inversion Hrest as [|? ? Hc _]; subst.
    unfold removeMarkers. cbn [fold_left].
    rewrite !removeMarker_replaceGlobal. unfold replaceGlobal. cbn [isEmpty].
    assert (line_final "@REMOVE_LINE_FOR_COMMONJS"
              (scan "@REMOVE_LINE_FOR_BROWSER" buffer) = true) as Hc'
      by (apply line_final_after_other_scan; try reflexivity; assumption).
    repeat constructor.
    + apply occurrences_after_other_scan; try reflexivity; [exact Hc'|].
      now apply occurrences_after_own_scan.
    + now apply occurrences_after_own_scan.
Qed.

Lemma build_markers_absent_witness :
  line_final "@REMOVE_LINE_FOR_BROWSER"
    ("var a = require('a'); //@REMOVE_LINE_FOR_BROWSER" ++ nl ++ "a();" ++ nl) = true /\
  occurrences "@REMOVE_LINE_FOR_BROWSER"
    (removeMarkers Browser.replacements
       ("var a = require('a'); //@REMOVE_LINE_FOR_BROWSER" ++ nl ++ "a();" ++ nl)) = 0.
Proof.
  split; [reflexivity|].
  apply (build_markers_absent
           ("var a = require('a'); //@REMOVE_LINE_FOR_BROWSER" ++ nl ++ "a();" ++ nl)).
  reflexivity.
Defined.

Lemma removal_only_deletes_witness :
  String.length "short" < String.length "@REMOVE_LINE_FOR_BROWSER" /\
  removeMarker "@REMOVE_LINE_FOR_BROWSER" "short" = "short".
Proof.
  split; [simpl; lia|].
  apply (removal_only_deletes [] "short"). simpl; lia.
Defined.

(** ** Argument parsing, continued *)

Lemma no_help_flag_options userArgs flag :
  hasHelpFlag userArgs = false -> In flag helpFlags ->
  includes (options userArgs) flag = false.
Proof.
  intros Hflag Hin.
  rewrite includes_options by (destruct Hin as [<-|[<-|[<-|[]]]]; reflexivity).
  destruct (includes userArgs flag) eqn:E; [|reflexivity].
  apply includes_In in E. unfold hasHelpFlag in Hflag.
  assert (existsb (includes helpFlags) userArgs = true) as Habs; [|congruence].
  apply existsb_exists. exists flag. split; [exact E|]. now apply includes_In.
Qed.

Lemma find_word_no_hyphen userArgs word :
  find (fun arg => negb (startsWith arg "-")) userArgs = Some word ->
  startsWith word "-" = false.
Proof.
  intros H. apply find_some in H as [_ H]. now apply negb_true_iff in H.
Qed.

(** The word the command is taken from. *)
Lemma first_word_laws {rt : Runtime} userArgs :
  forallb asciiOnly userArgs = true \/ conforming rt ->
  asciiOnly (orElse (find (fun arg => negb (startsWith arg "-")) userArgs) "") = true
  \/ conforming rt.
Proof.
  intros [Hascii|Hrt]; [left | now right].
  unfold orElse, populated.
  destruct (find _ userArgs) as [word|] eqn:E; [|reflexivity].
  destruct (isEmpty word); [reflexivity|].
  apply find_some in E as [Hin _].
  rewrite forallb_forall in Hascii. now apply Hascii.
Qed.

Lemma primaryCommand_no_hyphen {rt : Runtime} userArgs :
  forallb asciiOnly userArgs = true \/ conforming rt ->
  startsWith (primaryCommand userArgs) "-" = false.
Proof.
  intros Hlaws. unfold primaryCommand.
  destruct (lower_laws _ (first_word_laws userArgs Hlaws)) as (_ & -> & _).
  unfold orElse, populated.
  destruct (find _ userArgs) as [word|] eqn:E; [|reflexivity].
  destruct (isEmpty word); [reflexivity|]. eapply find_word_no_hyphen; exact E.
Qed.

Lemma primaryCommand_lowercase {rt : Runtime} userArgs :
  forallb asciiOnly userArgs = true \/ conforming rt ->
  toLowerCase (primaryCommand userArgs) = primaryCommand userArgs.
Proof.
  intros Hlaws. unfold primaryCommand.
  now destruct (lower_laws _ (first_word_laws userArgs Hlaws)) as (-> & _ & _).
Qed.

Lemma primaryCommand_single {rt : Runtime} userArgs :
  forallb asciiOnly userArgs = true \/ conforming rt ->
  primaryCommand [primaryCommand userArgs] = primaryCommand userArgs /\
  options [primaryCommand userArgs] = [].
Proof.
  intros Hlaws.
  pose proof (primaryCommand_no_hyphen userArgs Hlaws) as Hno.
  split.
  - unfold primaryCommand at 1. cbn [find]. rewrite Hno. cbn [negb].
    unfold orElse, populated.
    destruct (isEmpty (primaryCommand userArgs)) eqn:E.
    + destruct (primaryCommand userArgs); [reflexivity | discriminate].
    + now apply primaryCommand_lowercase.
  - unfold options. cbn [filter]. now rewrite Hno.
Qed.

Lemma find_after_flags flags tail :
  forallb (fun arg => startsWith arg "-") flags = true ->
  find (fun arg => negb (startsWith arg "-")) (flags ++ tail)
  = find (fun arg => negb (startsWith arg "-")) tail.
Proof.
  intros Hflags. induction flags as [|f flags IH]; [reflexivity|].
  cbn [forallb] in Hflags. apply andb_prop in Hflags as [Hf Hflags].
  cbn [app find]. rewrite Hf. cbn [negb]. now apply IH.
Qed.

Lemma main_without_help {rt : Runtime} userArgs :
  hasHelpFlag userArgs = false ->
  main userArgs
  = (if primaryCommand userArgs =? ""
     then console_error (nl ++ "❌ ERROR: No command provided.") ;; showHelp false
     else dispatch (primaryCommand userArgs)).
Proof.
  intros Hflag. unfold main.
  rewrite !(no_help_flag_options userArgs) by (assumption || cbn; tauto).
  reflexivity.
Qed.

(** X5: without a help flag, only the first word counts.  Flags that are
    not help flags, every later word and the case of the command are
    ignored: the script does what it does when given the lower-cased
    command alone (for arguments of ASCII characters in any runtime, for
    any arguments in a conforming runtime), and a recognized target
    written in capitals after any flags runs the task of that target. *)
Theorem extra_arguments_ignored {rt : Runtime} (userArgs : list string) :
  forallb asciiOnly userArgs = true \/ conforming rt ->
  hasHelpFlag userArgs = false ->
  main userArgs = main [primaryCommand userArgs] /\
  main userArgs
  = (if primaryCommand userArgs =? ""
     then console_error (nl ++ "❌ ERROR: No command provided.") ;; showHelp false
     else dispatch (primaryCommand userArgs)) /\
  forall flags rest target,
    forallb (fun arg => startsWith arg "-") flags = true ->
    In target recognizedTargets ->
    userArgs = (flags ++ asciiUpperCase target :: rest)%list
    \/ userArgs = (flags ++ target :: rest)%list
    \/ (exists word, userArgs = (flags ++ word :: rest)%list /\
                     asciiOnly word = true /\ asciiLowerCase word = target) ->
    main userArgs = dispatch target.
Proof.
  intros Hlaws Hflag.
  pose proof (main_without_help userArgs Hflag) as Hmain.
  split; [|split; [exact Hmain|]].
  - rewrite Hmain.
    destruct (primaryCommand_single userArgs Hlaws) as [Hc Ho].
    unfold main. rewrite Hc, Ho. reflexivity.
  - intros flags rest target Hflags Hin Hargs. rewrite Hmain.
    assert (primaryCommand userArgs = target) as ->.
    { unfold primaryCommand.
      destruct Hargs as [-> | [-> | (word & -> & Hascii & Hword)]];
        rewrite (find_after_flags flags _ Hflags).
      - cbn [In recognizedTargets] in Hin.
        destruct Hin as [<-|[<-|[<-|[<-|[<-|[<-|[<-|[<-|[<-|[<-|[]]]]]]]]]]];
          reflexivity.
      - cbn [In recognizedTargets] in Hin.
        destruct Hin as [<-|[<-|[<-|[<-|[<-|[<-|[<-|[<-|[<-|[<-|[]]]]]]]]]]];
          reflexivity.
      - assert (startsWith word "-" = false) as Hno.
        { rewrite <- startsWith_asciiLowerCase, Hword.
          cbn [In recognizedTargets] in Hin.
          destruct Hin as [<-|[<-|[<-|[<-|[<-|[<-|[<-|[<-|[<-|[<-|[]]]]]]]]]]];
            reflexivity. }
        cbn [find]. rewrite Hno. cbn [negb]. unfold orElse, populated.
        destruct word as [|c word].
        + rewrite <- Hword. reflexivity.
        + cbn [isEmpty]. now rewrite (toLowerCase_ascii _ Hascii). }
    cbn [In recognizedTargets] in Hin.
    destruct Hin as [<-|[<-|[<-|[<-|[<-|[<-|[<-|[<-|[<-|[<-|[]]]]]]]]]]]; reflexivity.
Qed.

Lemma extra_arguments_ignored_witness :
  (forallb asciiOnly ["--verbose"; "CLEAN"; "build"; "-x"] = true \/ conforming asciiRuntime) /\
  hasHelpFlag ["--verbose"; "CLEAN"; "build"; "-x"] = false /\
  @main asciiRuntime ["--verbose"; "CLEAN"; "build"; "-x"] = @main asciiRuntime ["clean"] /\
  @main asciiRuntime ["--verbose"; "CLEAN"; "build"; "-x"] = runClean.
Proof.
  split; [left; reflexivity|]. split; [reflexivity|].
  pose proof (extra_arguments_ignored (rt := asciiRuntime) ["--verbose"; "CLEAN"; "build"; "-x"]
                (or_introl eq_refl) eq_refl) as (Hsame & _ & Htarget).
  split; [exact Hsame|].
  apply (Htarget ["--verbose"] ["build"; "-x"] "clean"); [reflexivity | | left; reflexivity].
  simpl; tauto.
Defined.

(** X6: the command is the first argument that does not start with a
    hyphen, lower-cased: for a word of ASCII characters that is the word
    with a-z for A-Z and nothing else changed.  With only hyphen arguments
    there is no command, and an empty first word gives no command even when
    a target follows it.  The options are exactly the hyphen arguments, in
    order.  The command never starts with a hyphen and is its own
    lower-case form (for arguments of ASCII characters in any runtime, for
    any arguments in a conforming runtime). *)
Theorem primaryCommand_first_word {rt : Runtime} (flags rest : list string) (word : string) :
  forallb (fun arg => startsWith arg "-") flags = true ->
  startsWith word "-" = false ->
  primaryCommand (flags ++ word :: rest) = toLowerCase word /\
  (asciiOnly word = true ->
   primaryCommand (flags ++ word :: rest) = asciiLowerCase word) /\
  primaryCommand (flags ++ "ABCDEFGHIJKLMNOPQRSTUVWXYZ" :: rest)
  = "abcdefghijklmnopqrstuvwxyz" /\
  primaryCommand (flags ++ "Test_09.JS@[`{" :: rest) = "test_09.js@[`{" /\
  primaryCommand flags = "" /\
  options flags = flags /\
  options (flags ++ word :: rest) = (flags ++ options rest)%list /\
  primaryCommand (flags ++ "" :: rest) = "" /\
  (forallb asciiOnly rest = true \/ conforming rt ->
   startsWith (primaryCommand rest) "-" = false /\
   toLowerCase (primaryCommand rest) = primaryCommand rest).
Proof.
  intros Hflags Hword.
  pose proof (fun tail => find_after_flags flags tail Hflags) as Hfind.
  assert (options flags = flags) as Hopt.
  { unfold options. clear Hfind. induction flags as [|f flags IH]; [reflexivity|].
    cbn [forallb] in Hflags. apply andb_prop in Hflags as [Hf Hflags].
    cbn [filter]. rewrite Hf. now rewrite IH. }
  assert (primaryCommand (flags ++ word :: rest) = toLowerCase word) as Hcmd.
  { unfold primaryCommand. rewrite Hfind. cbn [find]. rewrite Hword. cbn [negb].
    unfold orElse, populated. now destruct word. }
  split; [exact Hcmd|]. split.
  { intros Hascii. now rewrite Hcmd, (toLowerCase_ascii word Hascii). }
  split; [unfold primaryCommand; rewrite Hfind; reflexivity|].
  split; [unfold primaryCommand; rewrite Hfind; reflexivity|].
  split; [unfold primaryCommand; rewrite <- (app_nil_r flags), Hfind; reflexivity|].
  split; [exact Hopt|].
  split; [unfold options in *; rewrite filter_app, Hopt; cbn [filter]; now rewrite Hword|].
  split; [unfold primaryCommand; rewrite Hfind; reflexivity|].
  intros Hlaws. split.
  - now apply primaryCommand_no_hyphen.
  - now apply primaryCommand_lowercase.
Qed.

Lemma primaryCommand_first_word_witness :
  forallb (fun arg => startsWith arg "-") ["-v"; "--force"] = true /\
  startsWith "Browser" "-" = false /\
  @primaryCommand asciiRuntime (["-v"; "--force"] ++ "Browser" :: ["clean"]) = "browser" /\
  @primaryCommand asciiRuntime (["-v"; "--force"] ++ "" :: ["clean"]) = "".
Proof.
  pose proof (primaryCommand_first_word (rt := asciiRuntime) ["-v"; "--force"] ["clean"] "Browser"
                eq_refl eq_refl) as H.
  split; [reflexivity|]. split; [reflexivity|].
  destruct H as (Hword & _ & _ & _ & _ & _ & _ & Hempty & _).
  split; [exact Hword | exact Hempty].
Defined.

(** ** Whole runs *)

Section Conforms.

Variable ok : obs -> bool.
Variable env : Env.
Hypothesis ok_print : forall out line, ok (Printed out line) = true.

Lemma conforms_ret {A : Type} (a : A) : conforms ok env (Ret a).
Proof. intros w. split; [reflexivity | now left]. Qed.

Lemma conforms_throw {A : Type} e : conforms ok env (@Throw A e).
Proof. intros w. split; [reflexivity | now right]. Qed.

Lemma conforms_exit_1 {A : Type} : conforms ok env (@Exit A 1).
Proof. intros w. split; [reflexivity | now right]. Qed.

Lemma conforms_print {A : Type} out line (k : js A) :
  conforms ok env k -> conforms ok env (Print out line k).
Proof.
  intros Hk w. specialize (Hk w). unfold trace, result in *. cbn [run].
  destruct (run env k w) as [[t o] w']. cbn [fst snd forallb] in *.
  now rewrite ok_print.
Qed.

Lemma conforms_call {A X : Type} (c : call X) (k : X -> js A) :
  (forall r, ok (Called c r) = true) ->
  (forall x, conforms ok env (k x)) -> conforms ok env (Call c k).
Proof.
  intros Hc Hk w. unfold trace, result. cbn [run].
  destruct (respond env X c w) as [[x|e] w1].
  - specialize (Hk x w1). unfold trace, result in Hk.
    destruct (run env (k x) w1) as [[t o] w']. cbn [fst snd forallb] in *.
    now rewrite Hc.
  - cbn [fst snd forallb]. rewrite Hc. split; [reflexivity | now right].
Qed.

Lemma conforms_bind {A B : Type} (p : js A) (f : A -> js B) :
  conforms ok env p -> (forall a, conforms ok env (f a)) ->
  conforms ok env (bind p f).
Proof.
  intros Hp Hf w. specialize (Hp w). unfold trace, result in *. rewrite run_bind.
  destruct (run env p w) as [[t1 [a|e|n]] w1]; cbn [fst snd] in *; try exact Hp.
  specialize (Hf a w1). unfold trace, result in Hf.
  destruct (run env (f a) w1) as [[t2 o] w2]. cbn [fst snd] in *.
  rewrite forallb_app. destruct Hp as [-> _]. exact Hf.
Qed.

Lemma conforms_try {A : Type} body handler (k : js A) :
  conforms ok env body -> (forall e, conforms ok env (handler e)) ->
  conforms ok env k -> conforms ok env (TryCatch body handler k).
Proof.
  intros Hb Hh Hk w. specialize (Hb w). unfold trace, result in *. cbn [run].
  destruct (run env body w) as [[t1 [[]|e|n]] w1]; cbn [fst snd] in *;
    [| |exact Hb].
  - specialize (Hk w1). unfold trace, result in Hk.
    destruct (run env k w1) as [[t o] w']. cbn [fst snd] in *.
    rewrite forallb_app. destruct Hb as [-> _]. exact Hk.
  - specialize (Hh e w1). unfold trace, result in Hh.
    destruct (run env (handler e) w1) as [[t2 [[]|e'|n]] w2]; cbn [fst snd] in *.
    + specialize (Hk w2). unfold trace, result in Hk.
      destruct (run env k w2) as [[t o] w']. cbn [fst snd] in *.
      rewrite !forallb_app. destruct Hb as [-> _]. destruct Hh as [-> _]. exact Hk.
    + rewrite forallb_app. destruct Hb as [-> _]. exact Hh.
    + rewrite forallb_app. destruct Hb as [-> _]. exact Hh.
Qed.

Lemma conforms_forEach {X : Type} (xs : list X) (f : X -> js unit) :
  (forall x, conforms ok env (f x)) -> conforms ok env (forEach xs f).
Proof.
  intros Hf. induction xs as [|x xs IH]; cbn [forEach].
  - apply conforms_ret.
  - apply conforms_bind; [apply Hf | intros _; exact IH].
Qed.

Lemma conforms_exec {rt : Runtime} command taskName :
  (forall r, ok (Called (execSync command) r) = true) ->
  conforms ok env (exec command taskName).
Proof.
  intros Hc. unfold exec. apply conforms_try.
  - cbn [bind console_log fs]. apply conforms_print, conforms_call; [exact Hc|].
    intros output. cbn [bind]. destruct (isEmpty output); [apply conforms_ret|].
    apply conforms_forEach. intros line. apply conforms_print, conforms_ret.
  - intros e. cbn [bind console_error]. apply conforms_print.
    destruct (populated (exn_stderr e)); cbn [bind console_error process_exit];
      repeat apply conforms_print; apply conforms_exit_1.
  - apply conforms_ret.
Qed.

Lemma conforms_buildAndClean targetFile parts replacements :
  (forall p r, ok (Called (readFileSync p) r) = true) ->
  (forall data r, ok (Called (writeFileSync targetFile data None) r) = true) ->
  conforms ok env (buildAndClean targetFile parts replacements).
Proof.
  intros Hread Hwrite. unfold buildAndClean. apply conforms_bind.
  - generalize EmptyString as buffer.
    induction parts as [|p parts IH]; intros buffer; cbn [concatParts].
    + apply conforms_ret.
    + apply conforms_bind; [|intros b; apply IH].
      unfold appendPart. apply conforms_bind; [|intros b; apply conforms_ret].
      destruct (populated (path p)).
      * cbn [bind fs]. apply conforms_call; [apply Hread|]. intros d. apply conforms_ret.
      * destruct (populated (content p)); apply conforms_ret.
  - intros buffer. cbn [bind fs]. apply conforms_call; [apply Hwrite|].
    intros []. apply conforms_ret.
Qed.

End Conforms.

(** One step towards [conforms]. *)
Ltac conf_step :=
  cbn [bind fs console_log console_error process_exit forEach];
  lazymatch goal with
  | |- conforms _ _ (Ret _) => apply conforms_ret
  | |- conforms _ _ (console_log _) => unfold console_log
  | |- conforms _ _ (console_error _) => unfold console_error
  | |- conforms _ _ (fs _) => unfold fs
  | |- conforms _ _ (process_exit _) => apply conforms_exit_1
  | |- conforms _ _ (Exit _) => apply conforms_exit_1
  | |- conforms _ _ (Throw _) => apply conforms_throw
  | |- conforms _ _ (Print _ _ _) => apply conforms_print; [intros ? ?; reflexivity|]
  | |- conforms _ _ (Call _ _) => apply conforms_call; [intros ?; reflexivity | intros ?]
  | |- conforms _ _ (TryCatch _ _ _) =>
      apply conforms_try; [ | intros ? | ]
  | |- conforms _ _ (exec _ _) =>
      apply conforms_exec; [intros ? ?; reflexivity | intros ?; reflexivity]
  | |- conforms _ _ (buildAndClean _ _ _) =>
      apply conforms_buildAndClean; [intros ? ?; reflexivity | intros ? ?; reflexivity]
  | |- conforms _ _ (bind (exec _ _) _) => apply conforms_bind; [ | intros ?]
  | |- conforms _ _ (bind (buildAndClean _ _ _) _) => apply conforms_bind; [ | intros ?]
  | |- conforms _ _ (bind (bind _ _) _) => apply conforms_bind; [ | intros ?]
  | |- context [if ?b then _ else _] => destruct b
  | |- context [match error ?m with _ => _ end] => destruct (error m)
  end.

Ltac conf := repeat conf_step.

Lemma showHelp_conforms ok env verbose :
  (forall out line, ok (Printed out line) = true) ->
  conforms ok env (showHelp verbose).
Proof.
  intros Hp. unfold showHelp. apply conforms_forEach.
  intros line. apply conforms_print; [exact Hp|]. apply conforms_ret.
Qed.

Lemma runBuild_confined {rt : Runtime} env : conforms confined env runBuild.
Proof. unfold runBuild, setupBuildDir. conf. Qed.

Lemma runBrowser_confined env : conforms confined env runBrowser.
Proof.
  unfold runBrowser, Browser.bundle, Browser.minification, Browser.minifyTry,
    Browser.minifyCatch, Browser.hostTests, Browser.testScripts, Browser.wrapTestScript.
  conf.
Qed.

Lemma runCommonJS_confined env : conforms confined env runCommonJS.
Proof. unfold runCommonJS. conf. Qed.

Lemma main_confined {rt : Runtime} env userArgs : conforms confined env (main userArgs).
Proof.
  unfold main.
  destruct (includes (options userArgs) "-h" || includes (options userArgs) "--help");
    [now apply showHelp_conforms|].
  destruct (includes (options userArgs) "-hh"); [now apply showHelp_conforms|].
  destruct (primaryCommand userArgs =? "").
  { cbn [bind console_error]. apply conforms_print; [reflexivity|].
    now apply showHelp_conforms. }
  unfold dispatch.
  repeat match goal with |- context [if ?b then _ else _] => destruct b end.
  - apply conforms_bind; [apply runBuild_confined | intros _].
    unfold runDoc. conf.
  - apply runBuild_confined.
  - apply runBrowser_confined.
  - apply runCommonJS_confined.
  - unfold runTest. conf.
  - unfold runClean. conf.
  - unfold runLint. conf.
  - unfold runDoc. conf.
  - unfold runInstall. cbn [bind console_log]. apply conforms_print; [reflexivity|].
    apply conforms_bind; [apply runBuild_confined | intros _]. conf.
  - unfold runUninstall. conf.
  - cbn [bind console_error]. apply conforms_print; [reflexivity|].
    now apply showHelp_conforms.
Qed.

(** X8: whatever the arguments and the environment, the calls the script
    makes to [fs] itself change nothing outside the build tree: every
    write, directory creation, removal and copy targets [dist], a path
    under [dist/], the stamp file [stamp-build] or the directory [man1];
    [rmSync] is only applied to [dist] or below and [unlinkSync] only to
    [stamp-build]. *)
Theorem fs_calls_stay_in_build_tree {rt : Runtime} (env : Env) (userArgs : list string) (w : world env) :
  forallb confined (trace env (main userArgs) w) = true.
Proof. apply main_confined. Qed.

(** X9: whatever the arguments and the environment, the process ends with
    exit status 0 or 1. *)
Theorem exit_status_zero_or_one {rt : Runtime} (env : Env) (userArgs : list string) (w : world env) :
  exitStatus (result env (main userArgs) w) = 0%Z \/
  exitStatus (result env (main userArgs) w) = 1%Z.
Proof. apply main_confined. Qed.

Lemma no_shell_trace t :
  forallb (fun o => negb (isShell o)) t = true -> existsb isShell t = false.
Proof.
  induction t as [|o t IH]; [reflexivity|]. cbn [forallb existsb].
  intros H. apply andb_prop in H as [Ho Ht]. apply negb_true_iff in Ho.
  now rewrite Ho, IH.
Qed.

(** X10: the targets [browser], [commonjs], [clean], [lint] and [doc]
    are done with [fs] alone: whatever the other arguments and the
    environment, no shell command is run for them. *)
Theorem native_targets_run_no_shell {rt : Runtime} (env : Env) (userArgs : list string) (w : world env) :
  includes nativeTargets (primaryCommand userArgs) = true ->
  existsb isShell (trace env (main userArgs) w) = false /\
  commands (trace env (main userArgs) w) = [].
Proof.
  intros Hcmd.
  assert (conforms (fun o => negb (isShell o)) env (main userArgs)) as Hconf.
  { unfold main.
    destruct (includes (options userArgs) "-h" || includes (options userArgs) "--help");
      [now apply showHelp_conforms|].
    destruct (includes (options userArgs) "-hh"); [now apply showHelp_conforms|].
    apply includes_In in Hcmd.
    destruct Hcmd as [<-|[<-|[<-|[<-|[<-|[]]]]]]; cbn [String.eqb Ascii.eqb Bool.eqb dispatch].
    - unfold runBrowser, Browser.bundle, Browser.minification, Browser.minifyTry,
        Browser.minifyCatch, Browser.hostTests, Browser.testScripts,
        Browser.wrapTestScript.
      conf.
    - unfold runCommonJS. conf.
    - unfold runClean. conf.
    - unfold runLint. conf.
    - unfold runDoc. conf. }
  destruct (Hconf w) as [Ht _]. apply no_shell_trace in Ht. split; [exact Ht|].
  revert Ht. generalize (trace env (main userArgs) w) as t.
  induction t as [|o t IH]; [reflexivity|]. cbn [existsb]. intros H.
  apply orb_false_elim in H as [Ho Ht].
  destruct o as [|X c r]; [now apply IH|].
  destruct c; try discriminate Ho; now apply IH.
Qed.

Lemma native_targets_run_no_shell_witness :
  includes nativeTargets (@primaryCommand asciiRuntime ["-q"; "Browser"]) = true /\
  commands (trace (fixture stubFiles identityMinifier) (@main asciiRuntime ["-q"; "Browser"]) tt) = [].
Proof.
  split; [reflexivity|].
  apply (native_targets_run_no_shell (rt := asciiRuntime) (fixture stubFiles identityMinifier)
           ["-q"; "Browser"] tt).
  reflexivity.
Defined.

(** X7: the minification step of the browser target can never abort the
    build.  Whatever goes wrong inside it (reading the bundle back, the
    minifier throwing or returning an error, writing the minified file)
    is caught: the step always returns, what follows it always runs, and
    the only file it may write is the minified bundle. *)
Theorem minification_never_aborts (env : Env) (w : world env) :
  result env Browser.minification w = Normal tt /\
  forallb (fun o => negb (isWrite o) || isWriteTo Browser.minFile o)
    (trace env Browser.minification w) = true /\
  forall rest : js unit,
    result env (Browser.minification ;; rest) w
    = result env rest (snd (run env Browser.minification w)).
Proof.
  assert (exists t w', run env Browser.minification w = (t, Normal tt, w') /\
            forallb (fun o => negb (isWrite o) || isWriteTo Browser.minFile o) t = true)
    as (t & w' & Hrun & Ht).
  { unfold Browser.minification, Browser.minifyTry, Browser.minifyCatch.
    cbn [bind console_log console_error fs run].
    destruct (respond env string (readFileSync Browser.targetFile) w) as [[source|e] w1];
      [|eexists _, _; split; reflexivity].
    destruct (respond env minified (minify source) w1) as [[m|e] w2];
      [|eexists _, _; split; reflexivity].
    destruct (error m) as [e|]; cbn [bind run]; [eexists _, _; split; reflexivity|].
    destruct (respond env unit (writeFileSync Browser.minFile (code m) None) w2)
      as [[[]|e] w3]; eexists _, _; split; reflexivity. }
  unfold result, trace. rewrite Hrun. cbn [fst snd].
  split; [reflexivity|]. split; [exact Ht|].
  intros rest. rewrite run_bind, Hrun.
  destruct (run env rest w') as [[t2 o] w2]. reflexivity.
Qed.

(** ** A failing shell command *)

Lemma runBuild_fails {rt : Runtime} env :
  commandFails env "cp -R bin deps index.js lib package.json share dist/nodeunit" ->
  forall w : world env,
  exists t o w',
    run env runBuild w = (t, o, w') /\
    ((exists e, o = Thrown e) \/ o = Exited 1) /\
    forallb (String.eqb "cp -R bin deps index.js lib package.json share dist/nodeunit")
      (commands t) = true /\
    existsb (isWriteTo "dist/nodeunit.sh") t = false.
Proof.
  intros Hfail w. unfold runBuild, setupBuildDir, exec.
  repeat (cbn [run bind fs console_log console_error process_exit];
    match goal with
    | |- context [respond ?env string (execSync ?c) ?w0] =>
        let e := fresh "e" in
        let He := fresh "He" in
        let r := fresh "r" in
        destruct (Hfail w0) as [e He];
        change (respond env string (execSync c) w0)
          with (respond env string
                  (execSync "cp -R bin deps index.js lib package.json share dist/nodeunit")
                  w0);
        destruct (respond env string
                    (execSync "cp -R bin deps index.js lib package.json share dist/nodeunit")
                    w0) as [r ?];
        cbn [fst] in He; subst r
    | |- context [respond ?env ?X ?c ?w0] =>
        destruct (respond env X c w0) as [[?|?] ?]
    | |- context [if ?b then _ else _] => destruct b
    | |- context [match populated ?x with _ => _ end] => destruct (populated x)
    end);
  eexists _, _, _; (split; [reflexivity|]);
  (split; [first [right; reflexivity | left; eexists; reflexivity]|]);
  split; reflexivity.
Qed.

(** X11: when the shell copy of the sources fails, the build stops there
    with exit status 1: the wrapper script [dist/nodeunit.sh] is not
    written, no other shell command is run, and nothing that would follow
    the build is run, so that [all] generates no documentation and
    [install] installs nothing. *)
Theorem failed_copy_stops_build {rt : Runtime} (env : Env) (w : world env) :
  commandFails env "cp -R bin deps index.js lib package.json share dist/nodeunit" ->
  (forall target, In target ["build"; "all"; "install"] ->
     exitStatus (result env (main [target]) w) = 1%Z /\
     forallb (String.eqb "cp -R bin deps index.js lib package.json share dist/nodeunit")
       (commands (trace env (main [target]) w)) = true /\
     existsb (isWriteTo "dist/nodeunit.sh") (trace env (main [target]) w) = false) /\
  trace env (main ["all"]) w = trace env (main ["build"]) w /\
  forall (B : Type) (rest : unit -> js B),
    trace env (bind runBuild rest) w = trace env runBuild w.
Proof.
  intros Hfail.
  destruct (runBuild_fails env Hfail w) as (t & o & w' & Hrun & Ho & Hc & Hw).
  assert (forall (B : Type) (rest : unit -> js B),
             run env (bind runBuild rest) w
             = (t, match o with
                   | Normal _ => Exited 1 | Thrown e => Thrown e | Exited n => Exited n
                   end, w')) as Hbind.
  { intros B rest. rewrite run_bind, Hrun.
    destruct Ho as [[e ->]| ->]; reflexivity. }
  assert (exitStatus o = 1%Z) as Hexit by (destruct Ho as [[e ->]| ->]; reflexivity).
  split; [|split].
  - intros target [<-|[<-|[<-|[]]]].
    + change (main ["build"]) with runBuild. unfold result, trace. rewrite Hrun.
      cbn [fst snd]. auto.
    + change (main ["all"]) with (bind runBuild (fun _ => runDoc)).
      unfold result, trace. rewrite Hbind. cbn [fst snd].
      split; [destruct Ho as [[e ->]| ->]; reflexivity | auto].
    + change (main ["install"]) with runInstall. unfold runInstall.
      cbn [bind console_log]. unfold result, trace. cbn [run]. rewrite Hbind.
      cbn [fst snd commands existsb isWriteTo orb].
      split; [destruct Ho as [[e ->]| ->]; reflexivity | auto].
  - change (main ["all"]) with (bind runBuild (fun _ => runDoc)).
    change (main ["build"]) with runBuild. unfold trace. now rewrite Hbind, Hrun.
  - intros B rest. unfold trace. now rewrite Hbind, Hrun.
Qed.

Lemma failed_copy_stops_build_witness :
  exitStatus (result barren (@main asciiRuntime ["install"]) tt) = 1%Z /\
  forallb (String.eqb "cp -R bin deps index.js lib package.json share dist/nodeunit")
    (commands (trace barren (@main asciiRuntime ["install"]) tt)) = true /\
  existsb (isWriteTo "dist/nodeunit.sh") (trace barren (@main asciiRuntime ["install"]) tt) = false.
Proof.
  apply (failed_copy_stops_build (rt := asciiRuntime) barren tt).
  - intros w. eexists. reflexivity.
  - simpl. tauto.
Defined.

(** X12: on a tree where neither [dist] nor [stamp-build] exists, [clean]
    removes nothing: it only asks twice whether the path exists, prints
    its two lines and ends with status 0. *)
Theorem clean_on_clean_tree {rt : Runtime} (env : Env) (w : world env) :
  nothingExists env ->
  result env (main ["clean"]) w = Normal tt /\
  existsb mutates (trace env (main ["clean"]) w) = false /\
  printed stdout (trace env (main ["clean"]) w)
  = [nl ++ "🧹 Running CLEAN task..."; "✅ Clean complete!"] /\
  trace env (main ["clean"]) w
  = [ Printed stdout (nl ++ "🧹 Running CLEAN task...");
      Called (existsSync "dist") (inl false);
      Called (existsSync "stamp-build") (inl false);
      Printed stdout "✅ Clean complete!" ].
Proof.
  intros Hnone. change (main ["clean"]) with runClean.
  unfold result, trace, runClean. cbn [run bind fs console_log].
  pose proof (Hnone BUILDDIR w) as H1.
  destruct (respond env bool (existsSync BUILDDIR) w) as [r1 w1].
  cbn [fst] in H1. subst r1. cbn [run bind fs console_log].
  pose proof (Hnone "stamp-build" w1) as H2.
  destruct (respond env bool (existsSync "stamp-build") w1) as [r2 w2].
  cbn [fst] in H2. subst r2. cbn [run bind fs console_log fst snd].
  repeat split.
Qed.

Lemma clean_on_clean_tree_witness :
  result barren (@main asciiRuntime ["clean"]) tt = Normal tt /\
  existsb mutates (trace barren (@main asciiRuntime ["clean"]) tt) = false.
Proof.
  pose proof (clean_on_clean_tree (rt := asciiRuntime) barren tt) as H.
  split; apply H; intros p w; reflexivity.
Defined.

(** ** The older script *)

(** X13: in the older script the targets [lint] and [doc] are listed by
    the help menu but are not cases of the switch: without a help flag,
    every command outside [all], [build], [browser], [commonjs], [test],
    [clean], [install], [uninstall] (so also [lint] and [doc]) only gets
    the error line and the brief help, and the process ends with status
    0; and [all] runs the build alone. *)
Theorem old_usage_error {rt : Runtime} (userArgs : list string) :
  hasHelpFlag userArgs = false ->
  includes Old.recognizedTargets (primaryCommand userArgs) = false ->
  printsOnly (Old.main userArgs)
  = Some ((stderr, usageError (primaryCommand userArgs))
          :: map (pair stdout) (Old.helpLines false)) /\
  (forall env (w : world env), exitStatus (result env (Old.main userArgs) w) = 0%Z) /\
  includes Old.recognizedTargets "lint" = false /\
  includes Old.recognizedTargets "doc" = false /\
  In "  lint       : Runs static analysis using 'nodelint'." (Old.helpLines false) /\
  In "  doc        : Generates man pages using 'ronn'." (Old.helpLines false) /\
  Old.main ["all"] = Old.main ["build"].
Proof.
  intros Hflag Hcmd.
  assert (Old.main userArgs
          = (console_error (usageError (primaryCommand userArgs)) ;; Old.showHelp false))
    as Hmain.
  { unfold Old.main.
    rewrite !(no_help_flag_options userArgs) by (assumption || cbn; tauto).
    cbn [orb].
    unfold usageError. destruct (primaryCommand userArgs =? "") eqn:E; [reflexivity|].
    unfold Old.dispatch. unfold includes, Old.recognizedTargets in Hcmd.
    cbn [existsb] in Hcmd.
    repeat (apply orb_false_elim in Hcmd as [?H Hcmd]).
    repeat match goal with H : (_ =? _) = false |- _ => rewrite H; clear H end.
    reflexivity. }
  assert (printsOnly (Old.main userArgs)
          = Some ((stderr, usageError (primaryCommand userArgs))
                  :: map (pair stdout) (Old.helpLines false))) as Hprints.
  { rewrite Hmain. reflexivity. }
  split; [exact Hprints|]. split.
  - intros env w. destruct (run_printsOnly env _ _ w Hprints) as [[] Hrun].
    unfold result. now rewrite Hrun.
  - repeat split; cbn; tauto.
Qed.

Lemma old_usage_error_witness :
  hasHelpFlag ["lint"] = false /\
  includes Old.recognizedTargets (@primaryCommand asciiRuntime ["lint"]) = false /\
  exitStatus (result (fixture stubFiles identityMinifier) (@Old.main asciiRuntime ["lint"]) tt) = 0%Z.
Proof.
  split; [reflexivity|]. split; [reflexivity|].
  apply (old_usage_error (rt := asciiRuntime) ["lint"]); reflexivity.
Defined.

Lemma old_main_confined {rt : Runtime} env userArgs : conforms confinedOld env (Old.main userArgs).
Proof.
  assert (forall verbose, conforms confinedOld env (Old.showHelp verbose)) as Hhelp.
  { intros verbose. unfold Old.showHelp. apply conforms_forEach.
    intros line. apply conforms_print; [reflexivity|]. apply conforms_ret. }
  assert (conforms confinedOld env Old.runBuild) as Hbuild
    by (unfold Old.runBuild, setupBuildDir; conf).
  unfold Old.main.
  destruct (includes (options userArgs) "-h" || includes (options userArgs) "--help");
    [apply Hhelp|].
  destruct (includes (options userArgs) "-hh"); [apply Hhelp|].
  destruct (primaryCommand userArgs =? "").
  { cbn [bind console_error]. apply conforms_print; [reflexivity|]. apply Hhelp. }
  unfold Old.dispatch.
  repeat match goal with |- context [if ?b then _ else _] => destruct b end.
  - exact Hbuild.
  - exact Hbuild.
  - unfold Old.runBrowser. conf.
  - unfold Old.runCommonJS. conf.
  - unfold Old.runTest. conf.
  - unfold Old.runClean. conf.
  - unfold Old.runInstall. cbn [bind console_log]. apply conforms_print; [reflexivity|].
    apply conforms_bind; [exact Hbuild | intros _]. conf.
  - unfold Old.runUninstall. conf.
  - cbn [bind console_error]. apply conforms_print; [reflexivity|]. apply Hhelp.
Qed.

(** X14: the older script does its work through the shell.  Whatever the
    arguments and the environment, the only calls it makes to [fs] that
    change anything are the creation of [dist] and the write of
    [dist/nodeunit.sh]; it never reads a file, removes or copies one
    itself, and never calls the minifier; and the process ends with exit
    status 0 or 1. *)
Theorem old_script_works_through_shell {rt : Runtime}
    (env : Env) (userArgs : list string) (w : world env) :
  forallb confinedOld (trace env (Old.main userArgs) w) = true /\
  (exitStatus (result env (Old.main userArgs) w) = 0%Z \/
   exitStatus (result env (Old.main userArgs) w) = 1%Z).
Proof. apply old_main_confined. Qed.

(** ** Concatenation, continued *)

Lemma assembled_app texts1 texts2 :
  assembled (texts1 ++ texts2) = assembled texts1 ++ assembled texts2.
Proof.
  unfold assembled. induction texts1 as [|x texts1 IH]; [reflexivity|].
  cbn [app map]. rewrite !concat_empty_cons, IH. now rewrite !append_assoc.
Qed.

Lemma assembled_length texts :
  String.length (assembled texts)
  = list_sum (map String.length texts) + List.length texts.
Proof.
  unfold assembled. induction texts as [|x texts IH]; [reflexivity|].
  cbn [map list_sum List.length]. rewrite concat_empty_cons, !length_append, IH.
  change (String.length nl) with 1. cbn [list_sum fold_right]. fold (list_sum (map String.length texts)). lia.
Qed.

(** X15: concatenation composes.  When every file can be read, the parts
    of two plans put one after the other give the text of the first plan
    followed by the text of the second, appended to whatever the buffer
    held; the result has exactly one character more per part than the
    texts together. *)
Theorem assembly_composes
    (env : Env) (files : string -> option string)
    (parts1 parts2 : list part) (texts1 texts2 : list string)
    (buffer : string) (w : world env) :
  readsFrom env files ->
  Forall2 (fun p data => resolved files p = Some data) parts1 texts1 ->
  Forall2 (fun p data => resolved files p = Some data) parts2 texts2 ->
  result env (concatParts (parts1 ++ parts2) buffer) w
  = Normal (buffer ++ assembled texts1 ++ assembled texts2) /\
  String.length (assembled (texts1 ++ texts2))
  = list_sum (map String.length (texts1 ++ texts2))
    + (List.length parts1 + List.length parts2).
Proof.
  intros Hreads H1 H2. split.
  - destruct (concatParts_resolved env files Hreads (parts1 ++ parts2) (texts1 ++ texts2)
                (Forall2_app H1 H2) buffer w) as (t & w' & Hrun & _).
    unfold result. rewrite Hrun. cbn [fst snd]. now rewrite assembled_app.
  - rewrite assembled_length, length_app.
    now rewrite (Forall2_length H1), (Forall2_length H2).
Qed.

Lemma assembly_composes_witness :
  result (fixture stubFiles identityMinifier)
    (concatParts ([text "a"; file "lib/core.js"] ++ [text "b"]) "x") tt
  = Normal ("x" ++ assembled ["a"; "stub"] ++ assembled ["b"]).
Proof.
  apply (assembly_composes (fixture stubFiles identityMinifier) stubFiles
           [text "a"; file "lib/core.js"] [text "b"] ["a"; "stub"] ["b"] "x" tt).
  - intros p w. reflexivity.
  - repeat constructor.
  - repeat constructor.
Defined.

(** X16: how a part is read.  A part whose [path] is missing or empty is
    never read from disk: it contributes its [content] (nothing when that
    is missing or empty too) and a newline.  A part whose [path] is
    populated is read from disk and its [content], if any, is ignored. *)
Theorem part_fallbacks (env : Env) (p : part) (buffer : string) (w : world env) :
  (populated (path p) = None ->
   run env (concatParts [p] buffer) w
   = ([], Normal (buffer ++ orElse (content p) "" ++ nl), w)) /\
  (forall filePath, populated (path p) = Some filePath ->
   run env (concatParts [p] buffer) w = run env (concatParts [file filePath] buffer) w /\
   exists r, trace env (concatParts [p] buffer) w = [Called (readFileSync filePath) r]).
Proof.
  split.
  - intros Hp. cbn [concatParts]. unfold appendPart, orElse. rewrite Hp.
    destruct (populated (content p)); cbn [bind run];
      [now rewrite append_assoc | reflexivity].
  - intros filePath Hp.
    assert (populated (path (file filePath)) = Some filePath) as Hf.
    { unfold populated in *. cbn [path file].
      destruct (path p) as [s|]; [|discriminate].
      destruct (isEmpty s) eqn:E; [discriminate|]. injection Hp as ->. now rewrite E. }
    split.
    + cbn [concatParts]. unfold appendPart. now rewrite Hp, Hf.
    + unfold trace. cbn [concatParts]. unfold appendPart. rewrite Hp.
      cbn [bind fs run].
      destruct (respond env string (readFileSync filePath) w) as [[data|e] w1];
        eexists; reflexivity.
Qed.

Lemma part_fallbacks_witness :
  populated (path {| path := Some ""; content := Some "x" |}) = None /\
  run (fixture stubFiles identityMinifier)
    (concatParts [{| path := Some ""; content := Some "x" |}] "") tt
  = ([], Normal ("" ++ orElse (Some "x") "" ++ nl), tt).
Proof.
  split; [reflexivity|].
  apply (part_fallbacks (fixture stubFiles identityMinifier)
           {| path := Some ""; content := Some "x" |} "" tt).
  reflexivity.
Defined.

(** ** What a successful run produces *)


Section Produces.

Variable env : Env.


Lemma produces_throw {A : Type} e files : producesOnSuccess env (@Throw A e) files.
Proof. intros w t a w' H. discriminate H. Qed.

Lemma produces_exit {A : Type} n files : producesOnSuccess env (@Exit A n) files.
Proof. intros w t a w' H. discriminate H. Qed.







End Produces.










Lemma commands_app t1 t2 : commands (t1 ++ t2) = (commands t1 ++ commands t2)%list.
Proof.
  induction t1 as [|o t1 IH]; [reflexivity|].
  destruct o as [|X c r]; cbn [app commands]; [exact IH|].
  destruct c; cbn [app]; now rewrite ?IH.
Qed.

Lemma printed_app out t1 t2 :
  printed out (t1 ++ t2) = (printed out t1 ++ printed out t2)%list.
Proof.
  induction t1 as [|o t1 IH]; [reflexivity|].
  destruct o as [out' line|X c r]; cbn [app printed]; [|exact IH].
  destruct out, out'; cbn [app]; now rewrite ?IH.
Qed.

Lemma commands_lines (f : string -> string) ls :
  commands (map (fun line => Printed stdout (f line)) ls) = [].
Proof. induction ls as [|l ls IH]; [reflexivity | exact IH]. Qed.


(** X18: the [test] target announces that test execution is skipped and
    then runs the test command all the same; the exit status of the
    process is that of the run: 0 when the command succeeds, 1 when it
    fails, and [Tests finished] is printed only in the first case. *)
Theorem test_target_runs_tests {rt : Runtime} (env : Env) (w : world env) :
  commands (trace env (main ["test"]) w) = ["node ./bin/nodeunit test"] /\
  In "   -> [SKIPPED] Test execution via external binary."
    (printed stdout (trace env (main ["test"]) w)) /\
  match fst (respond env _ (execSync "node ./bin/nodeunit test") w) with
  | inl _ =>
      exitStatus (result env (main ["test"]) w) = 0%Z /\
      In "✅ Tests finished." (printed stdout (trace env (main ["test"]) w))
  | inr _ =>
      exitStatus (result env (main ["test"]) w) = 1%Z /\
      ~ In "✅ Tests finished." (printed stdout (trace env (main ["test"]) w))
  end.
Proof.
  change (main ["test"]) with runTest. unfold runTest, trace, result.
  cbn [bind console_log run].
  rewrite run_bind.
  destruct (respond env string (execSync "node ./bin/nodeunit test") w)
    as [[output|e] w1] eqn:E; cbn [fst].
  - rewrite (exec_succeeds env _ "Test" w w1 output E). unfold console_log. cbn [run fst snd exitStatus].
    set (lines := if isEmpty output then []
                  else map (fun line => Printed stdout ("      | " ++ line))
                           (split newline (trim output))).
    assert (commands lines = []) as Hc
      by (unfold lines; destruct (isEmpty output); [reflexivity | apply commands_lines]).
    change (Printed stdout ("   -> Executing: " ++ "node ./bin/nodeunit test")
              :: Called (execSync "node ./bin/nodeunit test") (inl output) :: lines)
      with ([Printed stdout ("   -> Executing: " ++ "node ./bin/nodeunit test");
             Called (execSync "node ./bin/nodeunit test") (inl output)] ++ lines)%list.
    cbn [commands printed]. rewrite !commands_app, !printed_app, Hc.
    repeat split; try (cbn; tauto).
    cbn [In printed app]. do 3 right. apply in_or_app. right. now left.
  - rewrite (exec_fails env _ "Test" w w1 e E).
    cbn [run fst snd app commands printed exitStatus].
    destruct (populated (exn_stderr e)); cbn [commands printed In];
      (split; [reflexivity|]); (split; [tauto|]); (split; [reflexivity|]);
      intros H; repeat (destruct H as [H|H]; [discriminate H|]); exact H.
Qed.

(** ** [exec], as its callers see it *)

Lemma printed_stderr_lines (f : string -> string) ls :
  printed stderr (map (fun line => Printed stdout (f line)) ls) = [].
Proof. induction ls as [|l ls IH]; [reflexivity | exact IH]. Qed.

(** X1: [exec] never lets an exception escape, and runs its command
    exactly once.  When the command succeeds it prints the command and
    then the trimmed output line by line (nothing for an empty output),
    prints nothing on the error stream and returns; when [execSync] throws
    it reports on the error stream (with the captured error output,
    trimmed, between two rules when there is one) and ends the process
    with status 1, so nothing the caller would do next is run.  Trimming
    takes the white space off both ends of the output, not off its
    lines. *)
Theorem exec_outcome {rt : Runtime} (env : Env) (command taskName : string) (w : world env) :
  commands (trace env (exec command taskName) w) = [command] /\
  match respond env _ (execSync command) w with
  | (inl output, w') =>
      run env (exec command taskName) w
      = (Printed stdout ("   -> Executing: " ++ command)
           :: Called (execSync command) (inl output)
           :: (if isEmpty output then []
               else map (fun line => Printed stdout ("      | " ++ line))
                        (split newline (trim output))),
         Normal tt, w') /\
      printed stderr (trace env (exec command taskName) w) = []
  | (inr error, w') =>
      run env (exec command taskName) w
      = (Printed stdout ("   -> Executing: " ++ command)
           :: Called (execSync command) (inr error)
           :: Printed stderr (nl ++ "❌ ERROR in " ++ taskName ++ ": Command failed.")
           :: match populated (exn_stderr error) with
              | Some err =>
                  [ Printed stderr "--- Shell Error Output ---";
                    Printed stderr (trim err);
                    Printed stderr "--------------------------" ]
              | None => []
              end,
         Exited 1, w') /\
      printed stdout (trace env (exec command taskName) w)
      = ["   -> Executing: " ++ command] /\
      forall (B : Type) (rest : unit -> js B),
        run env (bind (exec command taskName) rest) w
        = (trace env (exec command taskName) w, Exited 1, w')
  end /\
  split newline (trim ("  one" ++ nl ++ " two" ++ nl ++ nl)) = ["one"; " two"].
Proof.
  unfold trace.
  destruct (respond env string (execSync command) w) as [[output|error] w'] eqn:E.
  - rewrite (exec_succeeds env command taskName w w' output E). cbn [fst].
    set (lines := if isEmpty output then []
                  else map (fun line => Printed stdout ("      | " ++ line))
                           (split newline (trim output))).
    assert (commands lines = [] /\ printed stderr lines = []) as [Hc Hp].
    { unfold lines. destruct (isEmpty output); [now split|].
      split; [apply commands_lines | apply printed_stderr_lines]. }
    cbn [commands printed]. rewrite Hc, Hp. repeat split.
  - pose proof (exec_fails env command taskName w w' error E) as Hrun.
    rewrite Hrun. cbn [fst].
    repeat split.
    + destruct (populated (exn_stderr error)); reflexivity.
    + destruct (populated (exn_stderr error)); reflexivity.
    + intros B rest. now rewrite run_bind, Hrun.
Qed.
